(** * weblab: the statistical performance analysis engine

    A shallow embedding of the numeric core of the load-testing tool:
    the descriptive statistics reducer and the metric extractor of the
    test runner, the two-sample comparator and the aggregate comparison
    engine of [compare.js], and the run validator of [validation.js].

    JavaScript numbers are IEEE 754 binary64 values.  They are modelled
    by [spec_float] with the binary64 operations of the standard
    library ([SF64add], [SF64mul], ...), which are defined on integers
    and evaluate inside the kernel. *)

From Stdlib Require Import ZArith List String Ascii Bool Lia Arith.
From Stdlib Require Import Sorted Permutation.
From Stdlib Require Import QArith Qround.
From Stdlib Require Import DecimalString.
From Stdlib Require Import Floats.
Import ListNotations.

Local Open Scope string_scope.
Local Open Scope list_scope.
Local Open Scope Z_scope.

(** Concatenation of strings, as in a template literal. *)
Local Notation "a +++ b" := (String.append a b) (at level 60, right associativity).

(** ** Numbers *)

Module Num.

Definition number := spec_float.

Definition NaN : number := S754_nan.
Definition Infinity : number := S754_infinity false.
Definition zero : number := S754_zero false.

Definition add : number -> number -> number := SF64add.
Definition sub : number -> number -> number := SF64sub.
Definition mul : number -> number -> number := SF64mul.
Definition div : number -> number -> number := SF64div.
Definition neg : number -> number := SFopp.

(** [a < b], [a <= b], [a > b] and [a === b] on numbers; each is false
    as soon as one side is NaN. *)
Definition ltb : number -> number -> bool := SFltb.
Definition leb : number -> number -> bool := SFleb.
Definition gtb (a b : number) : bool := SFltb b a.
Definition eqb : number -> number -> bool := SFeqb.

Definition isNaN (x : number) : bool :=
  match x with S754_nan => true | _ => false end.

Definition is_finite (x : number) : bool :=
  match x with S754_zero _ | S754_finite _ _ _ => true | _ => false end.

(** A number of the language is a canonical binary64 value. *)
Definition valid (x : number) : bool := valid_binary x.

(** The number denoted by an integer (exact below 2^53, rounded to
    nearest even above). *)
Definition of_Z (z : Z) : number := binary_normalize prec emax z 0 false.
Definition of_nat (n : nat) : number := of_Z (Z.of_nat n).

(** The number denoted by the decimal literal [n / 10^d] with sign [s]:
    the literal is read exactly and rounded once, to nearest even. *)
Definition dec (s : bool) (n : positive) (d : nat) : number :=
  SF64div (S754_finite s n 0) (S754_finite false (Z.to_pos (10 ^ Z.of_nat d)) 0).

(** [Math.abs], [Math.sqrt], [Math.pow(x, 2)] and [Math.floor]. *)
Definition Math_abs : number -> number := SFabs.
Definition Math_sqrt : number -> number := SF64sqrt.

(** [Math.pow(x, 2)] is taken to be the rounded product [x * x]. *)
Definition Math_pow2 (x : number) : number := mul x x.

Definition Math_floor (x : number) : number :=
  match x with
  | S754_finite s m e =>
      if 0 <=? e then x
      else binary_normalize prec emax
             ((if s then Z.neg m else Z.pos m) / 2 ^ (- e)) 0 s
  | _ => x
  end.

(** The integer a number is equal to, when it is one. *)
Definition to_integer (x : number) : option Z :=
  match x with
  | S754_zero _ => Some 0
  | S754_finite s m e =>
      if 0 <=? e then Some ((if s then Z.neg m else Z.pos m) * 2 ^ e)
      else if Z.pos m mod 2 ^ (- e) =? 0
           then Some ((if s then Z.neg m else Z.pos m) / 2 ^ (- e))
           else None
  | _ => None
  end.

(** [arr[i]] for a number [i]: the element when [i] is an index of
    the array, [undefined] otherwise. *)
Definition array_get {A : Type} (arr : list A) (i : number) : option A :=
  match to_integer i with
  | Some z => if 0 <=? z then nth_error arr (Z.to_nat z) else None
  | None => None
  end.

(** *** Rounding to a fixed number of decimals

    [x.toFixed(f)] prints the integer [n] closest to [x * 10^f] (the
    larger one on a tie, on the absolute value) with [f] decimals; at
    or above [10^21], and on NaN and the infinities, it prints [x] as
    [String(x)] does. *)

Definition fixed_digits (m : positive) (e : Z) (f : nat) : Z :=
  if 0 <=? e then Z.pos m * 2 ^ e * 10 ^ Z.of_nat f
  else (2 * Z.pos m * 10 ^ Z.of_nat f + 2 ^ (- e)) / 2 ^ (- e + 1).

Definition at_least_1e21 (m : positive) (e : Z) : bool :=
  if 0 <=? e then 10 ^ 21 <=? Z.pos m * 2 ^ e
  else 10 ^ 21 * 2 ^ (- e) <=? Z.pos m.

(** [parseFloat(x.toFixed(f))]: the printed decimal read back. *)
Definition round_fixed (f : nat) (x : number) : number :=
  match x with
  | S754_zero _ => S754_zero false
  | S754_finite s m e =>
      if at_least_1e21 m e then x
      else match fixed_digits m e f with
           | Z.pos n => dec s n f
           | _ => S754_zero s
           end
  | _ => x
  end.

(** *** Printing

    [String(x)]: the shortest decimal that reads back to [x].  For a
    finite positive [x = m * 2^e] the decimals that read back to [x]
    are those between the midpoints to the two neighbours of [x], the
    midpoints included when [m] is even. *)

Definition digits_of (z : Z) : string :=
  NilZero.string_of_uint (N.to_uint (Z.to_N z)).

Fixpoint zeros (n : nat) : string :=
  match n with O => EmptyString | S n' => String "0" (zeros n') end.

Definition Qvalue (m : positive) (e : Z) : Q := inject_Z (Z.pos m) * Qpower 2 e.

Definition reads_back (m : positive) (e : Z) (w : Q) : bool :=
  let v := Qvalue m e in
  let below :=
    if (Z.pos m =? 2 ^ (prec - 1)) && (emin <? e)
    then Qpower 2 (e - 2) else Qpower 2 (e - 1) in
  let lo := (v - below)%Q in
  let hi := (v + Qpower 2 (e - 1))%Q in
  if Z.even (Z.pos m)
  then Qle_bool lo w && Qle_bool w hi
  else negb (Qle_bool w lo) && negb (Qle_bool hi w).

(** The [n] with [10^(n-1) <= v < 10^n], from an estimate that is
    off by one at most. *)
Definition decimal_exponent (m : positive) (e : Z) : Z :=
  let v := Qvalue m e in
  let n0 := (Z.log2 (Z.pos m) + e) * 30103 / 100000 in
  let up n := if Qle_bool (Qpower 10 n) v then n + 1 else n in
  let down n := if Qle_bool (Qpower 10 (n - 1)) v then n else n - 1 in
  down (down (up (up n0))).

(** The [k]-digit decimals next to [v]: the one that reads back, the
    closer one when both do, the even one on a tie. *)
Definition candidate (m : positive) (e n k : Z) : option Z :=
  let v := Qvalue m e in
  let u := Qpower 10 (n - k) in
  let lo := Qfloor (v / u) in
  let hi := lo + 1 in
  let wlo := (inject_Z lo * u)%Q in
  let whi := (inject_Z hi * u)%Q in
  match reads_back m e wlo, reads_back m e whi with
  | false, false => None
  | true, false => Some lo
  | false, true => Some hi
  | true, true =>
      match Qcompare (v - wlo) (whi - v) with
      | Lt => Some lo
      | Gt => Some hi
      | Eq => Some (if Z.even lo then lo else hi)
      end
  end.

Fixpoint shortest (m : positive) (e n : Z) (fuel : nat) (k : Z) : Z * Z * Z :=
  match candidate m e n k with
  | Some s => if s =? 10 ^ k then (10 ^ (k - 1), k, n + 1) else (s, k, n)
  | None =>
      match fuel with
      | O => (Qfloor (Qvalue m e / Qpower 10 (n - k)), k, n)
      | S fuel' => shortest m e n fuel' (k + 1)
      end
  end.

(** Trailing zeros of a power of ten found at a larger [k] are not
    digits: [s] is never divisible by ten. *)
Fixpoint strip_zeros (fuel : nat) (s k : Z) : Z * Z :=
  match fuel with
  | O => (s, k)
  | S fuel' =>
      if (1 <? k) && (s mod 10 =? 0) then strip_zeros fuel' (s / 10) (k - 1)
      else (s, k)
  end.

Definition substring_from (i : nat) (s : string) : string :=
  substring i (String.length s - i) s.

Definition exponent_suffix (n : Z) : string :=
  "e" +++ (if 0 <=? n - 1 then "+" else "-") +++ digits_of (Z.abs (n - 1)).

Definition positive_to_string (m : positive) (e : Z) : string :=
  let n0 := decimal_exponent m e in
  let '(s0, k0, n) := shortest m e n0 17 1 in
  let '(s, k) := strip_zeros 17 s0 k0 in
  let ds := digits_of s in
  if (k <=? n) && (n <=? 21) then ds +++ zeros (Z.to_nat (n - k))
  else if (0 <? n) && (n <=? 21)
  then substring 0 (Z.to_nat n) ds +++ "." +++ substring_from (Z.to_nat n) ds
  else if (-6 <? n) && (n <=? 0)
  then "0." +++ zeros (Z.to_nat (- n)) +++ ds
  else if k =? 1 then ds +++ exponent_suffix n
  else substring 0 1 ds +++ "." +++ substring_from 1 ds +++ exponent_suffix n.

Definition to_string (x : number) : string :=
  match x with
  | S754_nan => "NaN"
  | S754_zero _ => "0"
  | S754_infinity s => if s then "-Infinity" else "Infinity"
  | S754_finite s m e =>
      (if s then "-" else "") +++ positive_to_string m e
  end.

(** [x.toFixed(f)] as a string. *)
Definition toFixed (f : nat) (x : number) : string :=
  let fixed (n : Z) :=
    let ds := digits_of n in
    let ds := zeros (S f - String.length ds) +++ ds in
    match f with
    | O => ds
    | _ => substring 0 (String.length ds - f) ds +++ "."
             +++ substring_from (String.length ds - f) ds
    end in
  match x with
  | S754_zero _ => fixed 0
  | S754_finite s m e =>
      if at_least_1e21 m e then to_string x
      else (if s then "-" else "") +++ fixed (fixed_digits m e f)
  | _ => to_string x
  end.

End Num.

Import Num.

(** ** Values and objects

    An object is the list of its own enumerable properties in the order
    [Object.entries] yields them. *)

#[local] Unset Elimination Schemes.
Inductive value : Type :=
  | VUndefined
  | VNull
  | VBool (b : bool)
  | VNum (n : number)
  | VStr (s : string)
  | VArr (items : list value)
  | VObj (fields : list (string * value)).
#[local] Set Elimination Schemes.

Definition object := list (string * value).

(** What a call either returns or throws. *)
Inductive outcome (A : Type) : Type :=
  | Ok (a : A)
  | TypeError.
Arguments Ok {A} a.
Arguments TypeError {A}.

Definition bind {A B : Type} (o : outcome A) (k : A -> outcome B) : outcome B :=
  match o with
  | Ok a => k a
  | TypeError => TypeError
  end.

(** ** Metric extractor ([flattenObject], [extractMetrics])

    The target of the extractor is a plain object used as a map from a
    metric path to its growing array of samples.  Reading a property of
    a plain object also finds what it inherits from [Object.prototype]. *)

Module Extractor.

Definition metrics := list (string * list number).

Fixpoint lookup (key : string) (m : metrics) : option (list number) :=
  match m with
  | [] => None
  | (k, arr) :: rest => if String.eqb k key then Some arr else lookup key rest
  end.

(** The sample sequence of a path; a path that is absent has none. *)
Definition samples (key : string) (m : metrics) : list number :=
  match lookup key m with
  | Some arr => arr
  | None => []
  end.

Fixpoint push_at (key : string) (v : number) (m : metrics) : metrics :=
  match m with
  | [] => []
  | (k, arr) :: rest =>
      if String.eqb k key then (k, arr ++ [v]) :: rest
      else (k, arr) :: push_at key v rest
  end.

(** The properties of [Object.prototype]. *)
Definition inherited_names : list string :=
  [ "constructor"; "__defineGetter__"; "__defineSetter__"; "hasOwnProperty";
    "__lookupGetter__"; "__lookupSetter__"; "isPrototypeOf";
    "propertyIsEnumerable"; "toString"; "valueOf"; "__proto__";
    "toLocaleString" ].

Definition inherited (key : string) : bool :=
  existsb (String.eqb key) inherited_names.

(** [if (!metrics[fullKey]) metrics[fullKey] = []; metrics[fullKey].push(value)].
    An inherited property is truthy and has no [push]. *)
Definition push_sample (fullKey : string) (v : number) (m : metrics)
  : outcome metrics :=
  match lookup fullKey m with
  | Some _ => Ok (push_at fullKey v m)
  | None =>
      if inherited fullKey then TypeError
      else Ok (m ++ [(fullKey, [v])])
  end.

Definition full_key (prefix key : string) : string :=
  match prefix with
  | EmptyString => key
  | _ => prefix +++ "." +++ key
  end.

(** The body of the loop of [flattenObject] on one property; the
    recursive call on a nested object runs the same loop on its
    entries. *)
Fixpoint flatten_property (v : value) (fullKey : string) (m : metrics)
  {struct v} : outcome metrics :=
  match v with
  | VNum n => if isNaN n then Ok m else push_sample fullKey n m
  | VObj fields =>
      (fix entries (fs : list (string * value)) (m : metrics) : outcome metrics :=
         match fs with
         | [] => Ok m
         | (key, v') :: rest =>
             bind (flatten_property v' (full_key fullKey key) m) (entries rest)
         end) fields m
  | _ => Ok m
  end.

Fixpoint flattenObject (obj : object) (m : metrics) (prefix : string)
  : outcome metrics :=
  match obj with
  | [] => Ok m
  | (key, v) :: rest =>
      bind (flatten_property v (full_key prefix key) m)
           (fun m' => flattenObject rest m' prefix)
  end.

(** [iterations.forEach(iteration => this.flattenObject(iteration, metrics, ''))] *)
Fixpoint flattenAll (iterations : list object) (m : metrics) : outcome metrics :=
  match iterations with
  | [] => Ok m
  | it :: rest => bind (flattenObject it m "") (flattenAll rest)
  end.

(** [extractMetrics]: the arrays that hold numbers only are kept. *)
Definition extractMetrics (iterations : list object) : outcome metrics :=
  bind (flattenAll iterations [])
       (fun m => Ok (filter (fun kv => forallb (fun v => negb (isNaN v)) (snd kv)) m)).

(** The leaves of an iteration record that are samples, read off the record:
    the numeric leaves that are not NaN, with their dot-joined paths,
    in enumeration order. *)
Fixpoint property_leaves (v : value) (fullKey : string) : list (string * number) :=
  match v with
  | VNum n => if isNaN n then [] else [(fullKey, n)]
  | VObj fields =>
      (fix entries (fs : list (string * value)) : list (string * number) :=
         match fs with
         | [] => []
         | (key, v') :: rest =>
             property_leaves v' (full_key fullKey key) ++ entries rest
         end) fields
  | _ => []
  end.

Fixpoint object_leaves (obj : object) (prefix : string) : list (string * number) :=
  match obj with
  | [] => []
  | (key, v) :: rest =>
      property_leaves v (full_key prefix key) ++ object_leaves rest prefix
  end.

(** The values among [leaves] that sit at [path], in order. *)
Definition at_path (path : string) (leaves : list (string * number)) : list number :=
  map snd (filter (fun kv => String.eqb (fst kv) path) leaves).

End Extractor.

(** ** Descriptive statistics reducer ([calculateStatistics]) *)

Module Reducer.

(** The comparator [(a, b) => a - b] as the sort reads it: a NaN
    result counts as zero. *)
Definition sort_compare (a b : number) : number :=
  let v := sub a b in if isNaN v then zero else v.

(** [sort] is stable: an element goes before the first element it does
    not compare greater than.  On finite numbers the comparator is a
    consistent order and every sort gives this array; with NaN or
    infinities among the elements the order is left to the engine, and
    only the length of the result is relied on. *)
Fixpoint insert (x : number) (l : list number) : list number :=
  match l with
  | [] => [x]
  | y :: l' =>
      if leb (sort_compare x y) zero then x :: y :: l' else y :: insert x l'
  end.

Fixpoint sort (l : list number) : list number :=
  match l with
  | [] => []
  | x :: l' => insert x (sort l')
  end.

Record statistics : Type := {
  count : number;
  min : option number;
  max : option number;
  mean : number;
  median : option number;
  stddev : number;
  cv : number;
  p75 : option number;
  p90 : option number;
  p95 : option number;
  p99 : option number
}.

(** The literals [0.75], [0.90], [0.95], [0.99], [2] and [100]. *)
Definition q75 : number := dec false 75 2.
Definition q90 : number := dec false 90 2.
Definition q95 : number := dec false 95 2.
Definition q99 : number := dec false 99 2.
Definition two : number := of_Z 2.
Definition hundred : number := of_Z 100.

(** [Math.floor(len * q)], the rank of a percentile. *)
Definition rank (len : nat) (q : number) : number :=
  Math_floor (mul (of_nat len) q).

(** [undefined] in an addition is NaN. *)
Definition operand (v : option number) : number :=
  match v with Some x => x | None => NaN end.

(** The length of an array is an integer below 2^32: its parity, its
    half and its predecessor are exact and are computed on [nat]; the
    ranks of the percentiles are rounded products and are computed in
    binary64. *)
Definition calculateStatistics (values : list number) : option statistics :=
  match values with
  | [] => None
  | _ =>
      let sorted := sort values in
      let len := List.length sorted in
      let sum := fold_left add sorted zero in
      let mean := div sum (of_nat len) in
      let variance :=
        div (fold_left (fun acc val => add acc (Math_pow2 (sub val mean))) sorted zero)
            (of_nat len) in
      let stddev := Math_sqrt variance in
      let cv := if gtb mean zero then mul (div stddev mean) hundred else zero in
      Some {|
        count := of_nat len;
        min := nth_error sorted 0;
        max := nth_error sorted (len - 1);
        mean := round_fixed 2 mean;
        median :=
          if Nat.even len
          then Some (div (add (operand (nth_error sorted (len / 2 - 1)))
                              (operand (nth_error sorted (len / 2)))) two)
          else nth_error sorted (len / 2);
        stddev := round_fixed 2 stddev;
        cv := round_fixed 2 cv;
        p75 := array_get sorted (rank len q75);
        p90 := array_get sorted (rank len q90);
        p95 := array_get sorted (rank len q95);
        p99 := array_get sorted (rank len q99)
      |}
  end.

End Reducer.

(** ** Two-sample comparator and aggregate comparison engine ([compare.js]) *)

Module Compare.

(** The engine's settings: [confidenceLevel], [significanceThreshold]
    and [regressionThreshold]. *)
Definition confidenceLevel : number := dec false 95 2.
Definition significanceThreshold : number := dec false 5 2.
Definition regressionThreshold : number := dec false 5 2.

Definition hundred : number := of_Z 100.

(** The part of a statistics record the comparator reads. *)
Record stats : Type := {
  mean : number;
  stddev : number;
  count : number;
  cv : option number
}.

Module Change.
Record t : Type := {
  absolute : number;
  percent : number;
  direction : string
}.
End Change.

Module Significance.
Record t : Type := {
  tStatistic : number;
  pValue : number;
  isSignificant : bool;
  confidenceLevel : number
}.
End Significance.

Module Interpretation.
Record t : Type := {
  summary : string;
  significance : string;
  magnitude : string;
  recommendation : string
}.
End Interpretation.

Record comparison_result : Type := {
  baseline : stats;
  comparison : stats;
  change : Change.t;
  significance : Significance.t;
  interpretation : Interpretation.t
}.

Record t_test : Type := {
  tStatistic : number;
  degreesOfFreedom : number;
  pValue : number
}.

Definition calculatePValue (tStat df : number) : number :=
  if leb df zero then of_Z 1
  else if ltb tStat (of_Z 1) then dec false 5 1
  else if ltb tStat (of_Z 2) then dec false 1 1
  else if ltb tStat (of_Z 3) then dec false 1 2
  else if ltb tStat (of_Z 4) then dec false 1 3
  else dec false 1 4.

Definition welchTTest (baseline comparison : stats) : t_test :=
  let n1 := count baseline in
  let n2 := count comparison in
  let mean1 := mean baseline in
  let mean2 := mean comparison in
  let var1 := mul (stddev baseline) (stddev baseline) in
  let var2 := mul (stddev comparison) (stddev comparison) in
  let tStatistic := div (sub mean1 mean2) (Math_sqrt (add (div var1 n1) (div var2 n2))) in
  let numerator := Math_pow2 (add (div var1 n1) (div var2 n2)) in
  let denominator :=
    add (div (Math_pow2 (div var1 n1)) (sub n1 (of_Z 1)))
        (div (Math_pow2 (div var2 n2)) (sub n2 (of_Z 1))) in
  let df := div numerator denominator in
  let pValue := calculatePValue (Math_abs tStatistic) df in
  {| tStatistic := round_fixed 4 tStatistic;
     degreesOfFreedom := round_fixed 2 df;
     pValue := round_fixed 4 pValue |}.

Definition interpretStatisticalResult
  (change : Change.t) (significance : Significance.t) : Interpretation.t :=
  let percent := Change.percent change in
  let significant := Significance.isSignificant significance in
  let absPercent := Math_abs percent in
  let isRegression := gtb percent (mul regressionThreshold hundred) in
  let isImprovement := ltb percent (mul (neg regressionThreshold) hundred) in
  {| Interpretation.significance :=
       if significant then "statistically significant"
       else "not statistically significant";
     Interpretation.magnitude :=
       if ltb absPercent (of_Z 5) then "small"
       else if ltb absPercent (of_Z 15) then "medium"
       else "large";
     Interpretation.summary :=
       if significant then
         if isRegression then
           "Significant performance regression detected (" +++ to_string percent
             +++ "% worse)"
         else if isImprovement then
           "Significant performance improvement detected ("
             +++ to_string (Math_abs percent) +++ "% better)"
         else
           "Statistically significant change but within acceptable range ("
             +++ to_string percent +++ "%)"
       else
         "No significant performance change detected (" +++ to_string percent +++ "%)";
     Interpretation.recommendation :=
       if significant then
         if isRegression then "Investigate and address performance regression"
         else if isImprovement then "Performance improvement confirmed"
         else "Monitor for consistency"
       else "Performance appears stable" |}.

Definition performStatisticalTest (baseline comparison : stats) : comparison_result :=
  let meanChange := sub (mean comparison) (mean baseline) in
  let meanChangePercent :=
    if gtb (mean baseline) zero
    then mul (div meanChange (mean baseline)) hundred else zero in
  let change :=
    {| Change.absolute := round_fixed 2 meanChange;
       Change.percent := round_fixed 2 meanChangePercent;
       Change.direction :=
         if gtb meanChange zero then "increase"
         else if ltb meanChange zero then "decrease"
         else "no-change" |} in
  let tTest := welchTTest baseline comparison in
  let significance :=
    {| Significance.tStatistic := tStatistic tTest;
       Significance.pValue := pValue tTest;
       Significance.isSignificant := ltb (pValue tTest) significanceThreshold;
       Significance.confidenceLevel := confidenceLevel |} in
  {| baseline := baseline;
     comparison := comparison;
     change := change;
     significance := significance;
     interpretation := interpretStatisticalResult change significance |}.

(** *** Statistics of a scenario

    The statistics object of a scenario holds one statistics record per
    metric next to the scalars [validRuns], [totalRuns] and
    [successRate] (or an [error] text).  Metric paths are not array
    indices, so a result object enumerates in insertion order. *)

Inductive stat_entry : Type :=
  | MetricStats (s : stats)
  | ScalarStat (n : number)
  | TextStat (s : string).

Definition statistics_object := list (string * stat_entry).

Fixpoint property {A : Type} (key : string) (obj : list (string * A)) : option A :=
  match obj with
  | [] => None
  | (k, v) :: rest => if String.eqb k key then Some v else property key rest
  end.

Definition is_metric (e : stat_entry) : bool :=
  match e with MetricStats _ => true | _ => false end.

Definition metric_keys (obj : statistics_object) : list string :=
  map fst (filter (fun kv => is_metric (snd kv)) obj).

Definition includes (l : list string) (key : string) : bool :=
  existsb (String.eqb key) l.

Definition compareStatistics (baseline comparison : statistics_object)
  : list (string * comparison_result) :=
  let baselineMetrics := metric_keys baseline in
  let comparisonMetrics := metric_keys comparison in
  let commonMetrics := filter (includes comparisonMetrics) baselineMetrics in
  flat_map
    (fun metric =>
       match property metric baseline, property metric comparison with
       | Some (MetricStats baselineStats), Some (MetricStats comparisonStats) =>
           [(metric, performStatisticalTest baselineStats comparisonStats)]
       | _, _ => []
       end)
    commonMetrics.

(** A scenario of a result set, as far as the summary depends on it:
    the [performance] and [reliability] blocks of a scenario comparison
    are not read by [generateSummary] and are left out. *)
Record scenario : Type := {
  statistics : option statistics_object
}.

Record scenario_analysis : Type := {
  statistical : list (string * comparison_result)
}.

Definition compareScenario (baseline comparison : scenario) : scenario_analysis :=
  {| statistical :=
       match statistics baseline, statistics comparison with
       | Some b, Some c => compareStatistics b c
       | _, _ => []
       end |}.

(** [new Set([...a, ...b])]: the first occurrence of each name. *)
Fixpoint set_of (seen l : list string) : list string :=
  match l with
  | [] => []
  | x :: rest =>
      if includes seen x then set_of seen rest else x :: set_of (x :: seen) rest
  end.

Definition compareScenarios (baseline comparison : list (string * scenario))
  : list (string * scenario_analysis) :=
  let allScenarios := set_of [] (map fst baseline ++ map fst comparison) in
  flat_map
    (fun scenarioName =>
       match property scenarioName baseline, property scenarioName comparison with
       | Some baselineScenario, Some comparisonScenario =>
           [(scenarioName, compareScenario baselineScenario comparisonScenario)]
       | _, _ => []
       end)
    allScenarios.

(** *** Infrastructure

    Of each infrastructure comparison the summary reads the [impact]
    only; a comparison with a side missing is [{ error }] and has
    none. *)

Record cdn_info : Type := { detected : bool; provider : option string }.
Record compression_info : Type := { algorithm : option string; ratio : number }.
Record protocol_info : Type := { http2Support : bool; http3Support : bool }.
Record security_info : Type := { score : number }.
Record caching_info : Type := { effectiveness : number }.

Record infrastructure_info : Type := {
  cdn : option cdn_info;
  compression : option compression_info;
  protocols : option protocol_info;
  security : option security_info;
  caching : option caching_info
}.

Definition same_text (a b : option string) : bool :=
  match a, b with
  | Some x, Some y => String.eqb x y
  | None, None => true
  | _, _ => false
  end.

Definition assessCdnImpact (baseline comparison : cdn_info) : string :=
  if negb (detected baseline) && detected comparison then "positive"
  else if detected baseline && negb (detected comparison) then "negative"
  else if negb (same_text (provider baseline) (provider comparison)) then "change"
  else "neutral".

Definition assessCompressionImpact (improvement : number) : string :=
  if gtb improvement (of_Z 10) then "significant-positive"
  else if gtb improvement (of_Z 5) then "positive"
  else if ltb improvement (of_Z (-10)) then "significant-negative"
  else if ltb improvement (of_Z (-5)) then "negative"
  else "neutral".

Definition compressionImprovement (baseline comparison : compression_info) : number :=
  if gtb (ratio baseline) zero && gtb (ratio comparison) zero
  then mul (div (sub (ratio baseline) (ratio comparison)) (ratio baseline)) hundred
  else zero.

Definition assessProtocolImpact (baseline comparison : protocol_info) : string :=
  if negb (http2Support baseline) && http2Support comparison then "positive"
  else if http2Support baseline && negb (http2Support comparison) then "negative"
  else if negb (http3Support baseline) && http3Support comparison then "positive"
  else "neutral".

Definition deltaImpact (change : number) : string :=
  if gtb change (of_Z 10) then "positive"
  else if ltb change (of_Z (-10)) then "negative"
  else "neutral".

Definition both {A B : Type} (a b : option A) (f : A -> A -> B) : option B :=
  match a, b with
  | Some x, Some y => Some (f x y)
  | _, _ => None
  end.

Definition compareInfrastructure (baseline comparison : infrastructure_info)
  : list (string * option string) :=
  [ ("cdn", both (cdn baseline) (cdn comparison) assessCdnImpact);
    ("compression",
     both (compression baseline) (compression comparison)
          (fun b c => assessCompressionImpact (compressionImprovement b c)));
    ("protocols", both (protocols baseline) (protocols comparison) assessProtocolImpact);
    ("security",
     both (security baseline) (security comparison)
          (fun b c => deltaImpact (sub (score c) (score b))));
    ("caching",
     both (caching baseline) (caching comparison)
          (fun b c => deltaImpact (sub (effectiveness c) (effectiveness b)))) ].

(** *** Run summary ([generateSummary]) *)

Record analysis : Type := {
  infrastructure : option (list (string * option string));
  scenarios : option (list (string * scenario_analysis))
}.

Record run_summary : Type := {
  overallImpact : string;
  significantChanges : list string;
  regressions : list string;
  improvements : list string;
  stability : string
}.

Definition is_one_of (names : list string) (impact : option string) : bool :=
  match impact with
  | Some i => includes names i
  | None => false
  end.

Definition impact_text (impact : option string) : string :=
  match impact with Some i => i | None => "undefined" end.

(** The three lists as the loops of [generateSummary] grow them. *)
Record lists : Type := {
  significant_list : list string;
  regression_list : list string;
  improvement_list : list string
}.

Definition infrastructure_step (acc : lists) (entry : string * option string) : lists :=
  let '(category, impact) := entry in
  if is_one_of ["positive"; "significant-positive"] impact then
    {| significant_list := significant_list acc;
       regression_list := regression_list acc;
       improvement_list :=
         improvement_list acc ++ [category +++ ": " +++ impact_text impact] |}
  else if is_one_of ["negative"; "significant-negative"] impact then
    {| significant_list := significant_list acc;
       regression_list :=
         regression_list acc ++ [category +++ ": " +++ impact_text impact];
       improvement_list := improvement_list acc |}
  else acc.

Definition metric_step (scenarioName : string) (acc : lists)
  (entry : string * comparison_result) : lists :=
  let '(metric, result) := entry in
  let percent := Change.percent (change result) in
  if Significance.isSignificant (significance result) then
    let significant :=
      significant_list acc
        ++ [scenarioName +++ "." +++ metric +++ ": " +++ to_string percent +++ "%"] in
    if gtb (Math_abs percent) (of_Z 5) then
      if gtb percent zero then
        {| significant_list := significant;
           regression_list :=
             regression_list acc
               ++ [scenarioName +++ "." +++ metric +++ ": +" +++ to_string percent +++ "%"];
           improvement_list := improvement_list acc |}
      else
        {| significant_list := significant;
           regression_list := regression_list acc;
           improvement_list :=
             improvement_list acc
               ++ [scenarioName +++ "." +++ metric +++ ": " +++ to_string percent +++ "%"] |}
    else
      {| significant_list := significant;
         regression_list := regression_list acc;
         improvement_list := improvement_list acc |}
  else acc.

Definition scenario_step (acc : lists) (entry : string * scenario_analysis) : lists :=
  let '(scenarioName, scenarioAnalysis) := entry in
  fold_left (metric_step scenarioName) (statistical scenarioAnalysis) acc.

Definition generateSummary (a : analysis) : run_summary :=
  let start :=
    {| significant_list := []; regression_list := []; improvement_list := [] |} in
  let afterInfrastructure :=
    match infrastructure a with
    | Some entries => fold_left infrastructure_step entries start
    | None => start
    end in
  let final :=
    match scenarios a with
    | Some entries => fold_left scenario_step entries afterInfrastructure
    | None => afterInfrastructure
    end in
  let nRegressions := List.length (regression_list final) in
  let nImprovements := List.length (improvement_list final) in
  let nSignificant := List.length (significant_list final) in
  {| overallImpact :=
       if (nImprovements <? nRegressions)%nat then "negative"
       else if (nRegressions <? nImprovements)%nat then "positive"
       else "neutral";
     significantChanges := significant_list final;
     regressions := regression_list final;
     improvements := improvement_list final;
     stability :=
       if (5 <? nSignificant)%nat then "unstable"
       else if (2 <? nSignificant)%nat then "changing"
       else "stable" |}.

(** *** The engine ([compareEnvironments]) *)

Record environment_result : Type := {
  env_infrastructure : option infrastructure_info;
  env_scenarios : option (list (string * scenario))
}.

Definition analyse (baseline comparison : environment_result) : analysis :=
  {| infrastructure :=
       both (env_infrastructure baseline) (env_infrastructure comparison)
            compareInfrastructure;
     scenarios :=
       both (env_scenarios baseline) (env_scenarios comparison) compareScenarios |}.

(** The [summary] of the comparison result. *)
Definition compareEnvironments (baseline comparison : environment_result) : run_summary :=
  generateSummary (analyse baseline comparison).

End Compare.

(** ** Run validator ([validation.js]) *)

Module Validation.

Import Compare.

(** [this.thresholds], as far as the statistics check reads them. *)
Definition coefficientOfVariation : number := of_Z 10.
Definition successRateThreshold : number := of_Z 95.

(** An entry of [issues] or [warnings]. *)
Record issue : Type := {
  type : string;
  severity : string;
  environment : option string;
  scenario : option string;
  metric : option string;
  message : string;
  value : option number;
  threshold : option number
}.

(** A sub-report; its [metrics] block is not read by the aggregation
    and is left out. *)
Record report : Type := {
  passed : bool;
  issues : list issue;
  warnings : list issue
}.

(** The counters of the statistics check. *)
Record counters : Type := {
  totalMetrics : nat;
  unstableMetrics : nat;
  reliableMetrics : nat
}.

Definition state := (report * counters)%type.

Definition add_issue (i : issue) (fails : bool) (r : report) : report :=
  {| passed := if fails then false else passed r;
     issues := issues r ++ [i];
     warnings := warnings r |}.

Definition add_warning (w : issue) (r : report) : report :=
  {| passed := passed r; issues := issues r; warnings := warnings r ++ [w] |}.

(** The check of one entry of a scenario's statistics: only a
    statistics record with a [cv] is a metric. *)
Definition metric_check (envName scenarioName : string) (st : state)
  (entry : string * stat_entry) : state :=
  let '(metricName, e) := entry in
  let '(r, c) := st in
  match e with
  | MetricStats stats =>
      match cv stats with
      | Some cv =>
          let total := S (totalMetrics c) in
          let '(r1, c1) :=
            if gtb cv (mul coefficientOfVariation (of_Z 2)) then
              (add_issue
                 {| type := "high_variability"; severity := "error";
                    environment := Some envName; scenario := Some scenarioName;
                    metric := Some metricName;
                    message := "High coefficient of variation: " +++ toFixed 1 cv +++ "%";
                    value := Some cv;
                    threshold := Some (mul coefficientOfVariation (of_Z 2)) |}
                 true r,
               {| totalMetrics := total;
                  unstableMetrics := S (unstableMetrics c);
                  reliableMetrics := reliableMetrics c |})
            else if gtb cv coefficientOfVariation then
              (add_warning
                 {| type := "moderate_variability"; severity := "warning";
                    environment := Some envName; scenario := Some scenarioName;
                    metric := Some metricName;
                    message := "Moderate coefficient of variation: " +++ toFixed 1 cv +++ "%";
                    value := Some cv;
                    threshold := Some coefficientOfVariation |}
                 r,
               {| totalMetrics := total;
                  unstableMetrics := unstableMetrics c;
                  reliableMetrics := reliableMetrics c |})
            else
              (r,
               {| totalMetrics := total;
                  unstableMetrics := unstableMetrics c;
                  reliableMetrics := S (reliableMetrics c) |}) in
          if ltb (count stats) (of_Z 5) then
            (add_warning
               {| type := "small_sample_size"; severity := "warning";
                  environment := Some envName; scenario := Some scenarioName;
                  metric := Some metricName;
                  message := "Small sample size: " +++ to_string (count stats);
                  value := Some (count stats);
                  threshold := None |}
               r1,
             c1)
          else (r1, c1)
      | None => st
      end
  | _ => st
  end.

(** The success rate a scenario reports, if it reports one. *)
Definition reported_success_rate (statistics : statistics_object) : option number :=
  match property "successRate" statistics with
  | Some (ScalarStat n) => Some n
  | _ => None
  end.

(** The check of the success rate of one scenario. *)
Definition success_rate_check (envName scenarioName : string)
  (successRate : option number) (r : report) : report :=
  match successRate with
  | Some rate =>
      if ltb rate successRateThreshold then
        add_issue
          {| type := "low_success_rate";
             severity := if ltb rate (of_Z 80) then "error" else "warning";
             environment := Some envName; scenario := Some scenarioName;
             metric := None;
             message := "Low success rate: " +++ toFixed 1 rate +++ "%";
             value := Some rate;
             threshold := Some successRateThreshold |}
          (ltb rate (of_Z 80)) r
      else r
  | None => r
  end.

Definition scenario_check (envName : string) (st : state)
  (entry : string * Compare.scenario) : state :=
  let '(scenarioName, sc) := entry in
  match statistics sc with
  | Some statistics =>
      let '(r, c) := fold_left (metric_check envName scenarioName) statistics st in
      (success_rate_check envName scenarioName (reported_success_rate statistics) r, c)
  | None => st
  end.

Record environment_result : Type := {
  scenarios : option (list (string * Compare.scenario))
}.

Definition environment_check (st : state) (entry : string * environment_result) : state :=
  let '(envName, envResult) := entry in
  match scenarios envResult with
  | Some entries => fold_left (scenario_check envName) entries st
  | None => st
  end.

(** [validateStatistics(results)], on [results.results]. *)
Definition validateStatistics (results : option (list (string * environment_result))) : state :=
  let start :=
    ({| passed := true; issues := []; warnings := [] |},
     {| totalMetrics := 0; unstableMetrics := 0; reliableMetrics := 0 |}) in
  match results with
  | Some entries => fold_left environment_check entries start
  | None => start
  end.

(** *** The top-level report ([aggregateValidationResults])

    Counts and the score are small integers, on which the arithmetic of
    the language is exact. *)

Record validation : Type := {
  v_passed : bool;
  v_score : Z;
  v_issues : list issue;
  v_warnings : list issue;
  detailed : list (string * report)
}.

Record tally : Type := {
  totalIssues : Z;
  totalWarnings : Z;
  t_passed : bool;
  t_issues : list issue;
  t_warnings : list issue
}.

Definition section_step (acc : tally) (entry : string * report) : tally :=
  let section := snd entry in
  {| totalIssues := totalIssues acc + Z.of_nat (List.length (issues section));
     totalWarnings := totalWarnings acc + Z.of_nat (List.length (warnings section));
     t_passed := if negb (passed section) then false else t_passed acc;
     t_issues := t_issues acc ++ issues section;
     t_warnings := t_warnings acc ++ warnings section |}.

Definition aggregateValidationResults (v : validation) : validation :=
  let final :=
    fold_left section_step (detailed v)
      {| totalIssues := 0; totalWarnings := 0; t_passed := v_passed v;
         t_issues := v_issues v; t_warnings := v_warnings v |} in
  let score := 100 - totalIssues final * 10 - totalWarnings final * 5 in
  {| v_passed := t_passed final;
     v_score := Z.max 0 score;
     v_issues := t_issues final;
     v_warnings := t_warnings final;
     detailed := detailed v |}.

(** [validateTestRun], from the five sub-reports on. *)
Definition validateTestRun (execution statistics dataQuality infrastructure coverage : report)
  : validation :=
  aggregateValidationResults
    {| v_passed := true; v_score := 100; v_issues := []; v_warnings := [];
       detailed :=
         [ ("execution", execution); ("statistics", statistics);
           ("dataQuality", dataQuality); ("infrastructure", infrastructure);
           ("coverage", coverage) ] |}.

End Validation.

(** ** Recommendations of a comparison ([compare.js]) *)

Module Advice.

Import Compare.

Record recommendation : Type := {
  type : string;
  category : string;
  priority : string;
  message : string;
  action : string;
  details : option (list string)
}.

(** [infra.<category>?.impact === 'negative'] *)
Definition impact_is_negative (category : string)
  (infra : list (string * option string)) : bool :=
  match property category infra with
  | Some (Some impact) => String.eqb impact "negative"
  | _ => false
  end.

(** [generateRecommendations], from the [analysis] and the [summary] of
    the comparison result. *)
Definition generateRecommendations (a : analysis) (s : run_summary)
  : list recommendation :=
  match infrastructure a with
  | Some infra =>
      (if impact_is_negative "cdn" infra then
         [{| type := "infrastructure"; category := "cdn"; priority := "high";
             message := "CDN configuration change has negative impact";
             action := "Review CDN settings and consider reverting changes";
             details := None |}]
       else [])
      ++ (if impact_is_negative "compression" infra then
            [{| type := "infrastructure"; category := "compression"; priority := "medium";
                message := "Compression effectiveness decreased";
                action := "Review compression settings and algorithms";
                details := None |}]
          else [])
  | None => []
  end
  ++ (if (0 <? List.length (regressions s))%nat then
        [{| type := "performance"; category := "regression"; priority := "high";
            message :=
              "Performance regressions detected: "
              +++ to_string (of_nat (List.length (regressions s))) +++ " metrics affected";
            action := "Investigate and address performance regressions";
            details := Some (regressions s) |}]
      else [])
  ++ (if String.eqb (stability s) "unstable" then
        [{| type := "reliability"; category := "stability"; priority := "medium";
            message := "Performance appears unstable with many significant changes";
            action := "Review testing methodology and environment consistency";
            details := None |}]
      else []).

(** The [recommendations] of [compareEnvironments]. *)
Definition recommendations (baseline comparison : environment_result)
  : list recommendation :=
  generateRecommendations (analyse baseline comparison)
                          (compareEnvironments baseline comparison).

End Advice.

(** ** Performance budget ([validatePerformanceBudget]) *)

Module Budget.

Import Compare.

Record violation : Type := {
  scenario : string;
  metric : string;
  value : number;
  limit : number;
  exceedBy : number
}.

Record warning : Type := {
  w_scenario : string;
  w_metric : string;
  w_value : number;
  w_limit : number;
  warningThreshold : number
}.

Record validation : Type := {
  passed : bool;
  violations : list violation;
  warnings : list warning
}.

(** [scenario.statistics[metric].mean], where [scenario.statistics[metric]]
    is truthy: an entry that is not a statistics record has no [mean], and
    [undefined] compares false with every limit. *)
Definition mean_of (statistics : statistics_object) (metric : string) : option number :=
  match property metric statistics with
  | Some (MetricStats s) => Some (mean s)
  | _ => None
  end.

(** The body of the inner loop, for one limit and one scenario. *)
Definition check (metric : string) (limit : number) (v : validation)
  (entry : string * Compare.scenario) : validation :=
  let '(scenarioName, sc) := entry in
  match statistics sc with
  | Some st =>
      match mean_of st metric with
      | Some value =>
          if gtb value limit then
            {| passed := false;
               violations :=
                 violations v
                   ++ [{| scenario := scenarioName; metric := metric; value := value;
                          limit := limit; exceedBy := sub value limit |}];
               warnings := warnings v |}
          else if gtb value (mul limit (dec false 9 1)) then
            {| passed := passed v;
               violations := violations v;
               warnings :=
                 warnings v
                   ++ [{| w_scenario := scenarioName; w_metric := metric; w_value := value;
                          w_limit := limit;
                          warningThreshold := mul limit (dec false 9 1) |}] |}
          else v
      | None => v
      end
  | None => v
  end.

Definition validatePerformanceBudget
  (scenarios : option (list (string * Compare.scenario)))
  (budget : option (list (string * number))) : validation :=
  let start := {| passed := true; violations := []; warnings := [] |} in
  match budget, scenarios with
  | Some limits, Some scs =>
      fold_left
        (fun v '(metric, limit) => fold_left (check metric limit) scs v)
        limits start
  | _, _ => start
  end.

End Budget.

(** ** Validation against a baseline ([validateAgainstBaseline])

    The statistics of a baseline are those of a result set, by environment
    and by scenario ([extractBaselineStatistics]).  The score moves by small
    integers, on which the arithmetic of the language is exact. *)

Module Baseline.

Import Compare.

Record change : Type := {
  environment : string;
  scenario : string;
  metric : string;
  changePercent : number;
  significance : Significance.t
}.

Record validation : Type := {
  passed : bool;
  regressions : list change;
  improvements : list change;
  changes : list change;
  score : Z
}.

Definition baseline_statistics : Type :=
  list (string * list (string * statistics_object)).

(** [extractBaselineStatistics(results)]: an environment with scenarios gets
    an entry, which holds the statistics of the scenarios that have some. *)
Definition extractBaselineStatistics
  (results : list (string * Validation.environment_result)) : baseline_statistics :=
  flat_map
    (fun '(envName, envResult) =>
       match Validation.scenarios envResult with
       | Some scs =>
           [(envName,
             flat_map
               (fun '(scenarioName, sc) =>
                  match statistics sc with
                  | Some st => [(scenarioName, st)]
                  | None => []
                  end)
               scs)]
       | None => []
       end)
    results.

(** The comparison of one metric of the current run with the baseline. *)
Definition metric_step (envName scenarioName : string) (baselineStats : statistics_object)
  (v : validation) (entry : string * stat_entry) : validation :=
  let '(metricName, stats) := entry in
  match stats, property metricName baselineStats with
  | MetricStats current, Some (MetricStats base) =>
      let comparison := performStatisticalTest base current in
      if Significance.isSignificant (Compare.significance comparison) then
        let c :=
          {| environment := envName; scenario := scenarioName; metric := metricName;
             changePercent := Change.percent (Compare.change comparison);
             significance := Compare.significance comparison |} in
        if gtb (Change.percent (Compare.change comparison)) (of_Z 5) then
          {| passed := false;
             regressions := regressions v ++ [c];
             improvements := improvements v;
             changes := changes v;
             score := score v - 15 |}
        else if ltb (Change.percent (Compare.change comparison)) (of_Z (-5)) then
          {| passed := passed v;
             regressions := regressions v;
             improvements := improvements v ++ [c];
             changes := changes v;
             score := score v + 5 |}
        else
          {| passed := passed v;
             regressions := regressions v;
             improvements := improvements v;
             changes := changes v ++ [c];
             score := score v |}
      else v
  | _, _ => v
  end.

Definition scenario_step (envName : string)
  (baselineEnv : list (string * statistics_object))
  (v : validation) (entry : string * Compare.scenario) : validation :=
  let '(scenarioName, sc) := entry in
  match property scenarioName baselineEnv, statistics sc with
  | Some baselineStats, Some currentStats =>
      fold_left (metric_step envName scenarioName baselineStats) currentStats v
  | _, _ => v
  end.

Definition environment_step (baseline : baseline_statistics)
  (v : validation) (entry : string * Validation.environment_result) : validation :=
  let '(envName, envResult) := entry in
  match property envName baseline, Validation.scenarios envResult with
  | Some baselineEnv, Some scs => fold_left (scenario_step envName baselineEnv) scs v
  | _, _ => v
  end.

(** [validateAgainstBaseline(currentResults, baseline)], on
    [currentResults.results] and [baseline.statistics]; without results
    [Object.entries] throws. *)
Definition validateAgainstBaseline
  (results : option (list (string * Validation.environment_result)))
  (statistics : option baseline_statistics) : outcome validation :=
  let start :=
    {| passed := true; regressions := []; improvements := []; changes := [];
       score := 100 |} in
  match statistics with
  | None => Ok start
  | Some baseline =>
      match results with
      | None => TypeError
      | Some entries =>
          let v := fold_left (environment_step baseline) entries start in
          Ok {| passed := passed v;
                regressions := regressions v;
                improvements := improvements v;
                changes := changes v;
                score := Z.max 0 (Z.min 100 (score v)) |}
      end
  end.

End Baseline.

(** ** Test runner: the statistics of a scenario and the summary of an
    environment ([calculateScenarioStatistics], [generateEnvironmentSummary]) *)

Module Runner.

Import Extractor Reducer.

(** An own property of a record, or [undefined]. *)
Definition get (key : string) (obj : object) : value :=
  match Compare.property key obj with
  | Some v => v
  | None => VUndefined
  end.

(** What counts as true in a condition. *)
Definition truthy (v : value) : bool :=
  match v with
  | VUndefined | VNull => false
  | VBool b => b
  | VNum (S754_zero _) | VNum S754_nan => false
  | VNum _ => true
  | VStr s => negb (String.eqb s "")
  | VArr _ | VObj _ => true
  end.

(** [iter => !iter.failed && !iter.error] *)
Definition usable (iter : object) : bool :=
  negb (truthy (get "failed" iter)) && negb (truthy (get "error" iter)).

(** The statistics object of a scenario with a valid iteration: one entry
    per metric, and the three scalars, which are assigned last and replace
    a metric of the same name. *)
Record scenario_stats : Type := {
  metric_stats : list (string * option statistics);
  validRuns : number;
  totalRuns : number;
  successRate : number
}.

Inductive scenario_statistics : Type :=
  | NoValidIterations (totalRuns : number)
  | ScenarioStats (s : scenario_stats).

Definition scalars : list string := ["validRuns"; "totalRuns"; "successRate"].

Definition hundred : number := of_Z 100.

Definition calculateScenarioStatistics (iterations : list object)
  : outcome scenario_statistics :=
  let validIterations := filter usable iterations in
  match validIterations with
  | [] => Ok (NoValidIterations (of_nat (List.length iterations)))
  | _ =>
      bind (extractMetrics validIterations)
        (fun metrics =>
           Ok (ScenarioStats
                 {| metric_stats :=
                      map (fun kv => (fst kv, calculateStatistics (snd kv)))
                          (filter (fun kv => negb (Compare.includes scalars (fst kv))) metrics);
                    validRuns := of_nat (List.length validIterations);
                    totalRuns := of_nat (List.length iterations);
                    successRate :=
                      mul (div (of_nat (List.length validIterations))
                               (of_nat (List.length iterations)))
                          hundred |}))
  end.

(** The result of a scenario, as [runScenario] assembles it from its
    iterations; it has no [error] property. *)
Record scenario_result : Type := {
  error : option string;
  statistics : option scenario_statistics
}.

Definition runScenario_result (iterations : list object) : outcome scenario_result :=
  bind (calculateScenarioStatistics iterations)
       (fun st => Ok {| error := None; statistics := Some st |}).

Record summary : Type := {
  totalScenarios : nat;
  successfulScenarios : nat;
  totalIterations : number;
  successfulIterations : number;
  averageSuccessRate : number
}.

(** [x || 0] on a number that may be missing. *)
Definition or_zero (x : option number) : number :=
  match x with
  | Some n => if truthy (VNum n) then n else zero
  | None => zero
  end.

Definition successRate_of (st : scenario_statistics) : option number :=
  match st with
  | NoValidIterations _ => None
  | ScenarioStats s => Some (successRate s)
  end.

Definition totalRuns_of (st : scenario_statistics) : option number :=
  match st with
  | NoValidIterations n => Some n
  | ScenarioStats s => Some (totalRuns s)
  end.

Definition validRuns_of (st : scenario_statistics) : option number :=
  match st with
  | NoValidIterations _ => None
  | ScenarioStats s => Some (validRuns s)
  end.

Definition has_error (r : scenario_result) : bool :=
  match error r with
  | Some text => negb (String.eqb text "")
  | None => false
  end.

(** The counters of the loop of [generateEnvironmentSummary]. *)
Record counters : Type := {
  successful : nat;
  totalSuccessRate : number;
  scenarioCount : nat;
  iterations_sum : number;
  valid_sum : number
}.

(** One scenario; reading [statistics.successRate] of a scenario without
    error and without statistics throws. *)
Definition summary_step (c : counters) (entry : string * scenario_result)
  : outcome counters :=
  let r := snd entry in
  bind
    (if has_error r then Ok c
     else
       match statistics r with
       | Some st =>
           Ok {| successful := S (successful c);
                 totalSuccessRate := add (totalSuccessRate c) (or_zero (successRate_of st));
                 scenarioCount := S (scenarioCount c);
                 iterations_sum := iterations_sum c;
                 valid_sum := valid_sum c |}
       | None => TypeError
       end)
    (fun c' =>
       Ok {| successful := successful c';
             totalSuccessRate := totalSuccessRate c';
             scenarioCount := scenarioCount c';
             iterations_sum :=
               add (iterations_sum c')
                   (or_zero (match statistics r with
                             | Some st => totalRuns_of st
                             | None => None
                             end));
             valid_sum :=
               add (valid_sum c')
                   (or_zero (match statistics r with
                             | Some st => validRuns_of st
                             | None => None
                             end)) |}).

Fixpoint summary_loop (scenarios : list (string * scenario_result)) (c : counters)
  : outcome counters :=
  match scenarios with
  | [] => Ok c
  | entry :: rest => bind (summary_step c entry) (summary_loop rest)
  end.

Definition generateEnvironmentSummary (scenarios : list (string * scenario_result))
  : outcome summary :=
  bind
    (summary_loop scenarios
       {| successful := 0; totalSuccessRate := zero; scenarioCount := 0;
          iterations_sum := zero; valid_sum := zero |})
    (fun c =>
       Ok {| totalScenarios := List.length scenarios;
             successfulScenarios := successful c;
             totalIterations := iterations_sum c;
             successfulIterations := valid_sum c;
             averageSuccessRate :=
               if (0 <? scenarioCount c)%nat
               then div (totalSuccessRate c) (of_nat (scenarioCount c))
               else zero |}).

End Runner.

(** ** Run validator: execution, data quality, infrastructure and coverage
    ([validation.js]) *)

Module Checks.

(** A test run as the validator reads it: [results.metadata.duration] and
    [results.results], the result of each environment by name. *)

Record compression_state : Type := {
  enabled : bool;
  effectiveness : option string;
  algorithm : option string
}.

Record security_state : Type := { score : option number }.

Record infrastructure_state : Type := {
  cdn : option Compare.cdn_info;
  compression : option compression_state;
  protocols : option Compare.protocol_info;
  security : option security_state
}.

Record scenario_result : Type := {
  scenario_error : option string;
  iterations : option (list object);
  statistics : option Compare.statistics_object
}.

Record environment_result : Type := {
  error : option string;
  scenarios : option (list (string * scenario_result));
  infrastructure : option infrastructure_state
}.

Record run : Type := {
  duration : option number;
  results : option (list (string * environment_result))
}.

(** A record of the tool's data, and a metric of an iteration with its
    name. *)
Definition data : Type := value.
Definition named_value : Type := (string * data)%type.

(** An entry of [issues] or [warnings]; [iteration] counts from 1, and
    [names] is the [environments] or the [missing] of an entry. *)
Record entry : Type := {
  type : string;
  severity : string;
  environment : option string;
  scenario : option string;
  iteration : option nat;
  metric : option string;
  message : data;
  value : option number;
  threshold : option number;
  names : option (list string)
}.

Record report : Type := {
  passed : bool;
  issues : list entry;
  warnings : list entry
}.

Definition start : report := {| passed := true; issues := []; warnings := [] |}.

(** [issues.push(i); passed = false] *)
Definition fail (i : entry) (r : report) : report :=
  {| passed := false; issues := issues r ++ [i]; warnings := warnings r |}.

(** [warnings.push(w)] *)
Definition warn (w : entry) (r : report) : report :=
  {| passed := passed r; issues := issues r; warnings := warnings r ++ [w] |}.

(** A text that is set and not empty. *)
Definition given (t : option string) : bool :=
  match t with
  | Some s => negb (String.eqb s "")
  | None => false
  end.

Definition text (t : option string) : string :=
  match t with Some s => s | None => "undefined" end.

(** *** Execution ([validateExecution]) *)

Definition maxExecutionTime : number := of_Z 30000.
Definition minIterations : nat := 3.
Definition maxIterations : nat := 100.

Definition duration_check (d : number) (r : report) : report :=
  if gtb d (mul maxExecutionTime (of_Z 10)) then
    fail {| type := "execution_time"; severity := "error";
            environment := None; scenario := None; iteration := None; metric := None;
            message := VStr ("Test execution took too long: " +++ to_string d +++ "ms");
            value := None; threshold := Some (mul maxExecutionTime (of_Z 10));
            names := None |} r
  else if gtb d (mul maxExecutionTime (of_Z 5)) then
    warn {| type := "execution_time"; severity := "warning";
            environment := None; scenario := None; iteration := None; metric := None;
            message := VStr ("Test execution time is high: " +++ to_string d +++ "ms");
            value := None; threshold := Some (mul maxExecutionTime (of_Z 5));
            names := None |} r
  else r.

(** [scenario.iterations?.length || 0] *)
Definition iterationCount (sc : scenario_result) : nat :=
  match iterations sc with
  | Some its => List.length its
  | None => 0
  end.

Definition execution_scenario (envName : string) (r : report)
  (item : string * scenario_result) : report :=
  let '(scenarioName, sc) := item in
  let r1 :=
    if given (scenario_error sc) then
      fail {| type := "scenario_error"; severity := "error";
              environment := Some envName; scenario := Some scenarioName;
              iteration := None; metric := None;
              message := VStr ("Scenario failed: " +++ text (scenario_error sc));
              value := None; threshold := None; names := None |} r
    else r in
  if (iterationCount sc <? minIterations)%nat then
    fail {| type := "insufficient_iterations"; severity := "error";
            environment := Some envName; scenario := Some scenarioName;
            iteration := None; metric := None;
            message :=
              VStr ("Too few iterations: " +++ to_string (of_nat (iterationCount sc))
                    +++ " < " +++ to_string (of_nat minIterations));
            value := None; threshold := None; names := None |} r1
  else if (maxIterations <? iterationCount sc)%nat then
    warn {| type := "excessive_iterations"; severity := "warning";
            environment := Some envName; scenario := Some scenarioName;
            iteration := None; metric := None;
            message :=
              VStr ("Many iterations: " +++ to_string (of_nat (iterationCount sc))
                    +++ " > " +++ to_string (of_nat maxIterations));
            value := None; threshold := None; names := None |} r1
  else r1.

Definition execution_environment (r : report) (item : string * environment_result) : report :=
  let '(envName, envResult) := item in
  let r1 :=
    if given (error envResult) then
      fail {| type := "environment_error"; severity := "error";
              environment := Some envName; scenario := None;
              iteration := None; metric := None;
              message := VStr ("Environment test failed: " +++ text (error envResult));
              value := None; threshold := None; names := None |} r
    else r in
  match scenarios envResult with
  | Some scs => fold_left (execution_scenario envName) scs r1
  | None => r1
  end.

Definition validateExecution (x : run) : report :=
  let r1 :=
    match duration x with
    | Some d => duration_check d start
    | None => start
    end in
  match results x with
  | Some envs => fold_left execution_environment envs r1
  | None => r1
  end.

(** *** Data quality ([validateDataQuality]) *)

(** [extractIterationMetrics]: the numeric leaves of an iteration, NaN
    included, with their dot-joined names. *)
Fixpoint extractFromProperty (v : data) (fullKey : string) : list named_value :=
  match v with
  | VNum n => [(fullKey, VNum n)]
  | VObj fields =>
      (fix each (fs : list (string * data)) : list named_value :=
         match fs with
         | [] => []
         | (key, v') :: rest =>
             extractFromProperty v' (Extractor.full_key fullKey key) ++ each rest
         end) fields
  | _ => []
  end.

Fixpoint extractIterationMetrics (obj : object) : list named_value :=
  match obj with
  | [] => []
  | (key, v) :: rest =>
      extractFromProperty v (Extractor.full_key "" key) ++ extractIterationMetrics rest
  end.

(** [metricPath.split('.')] *)
Fixpoint split_from (current : string) (s : string) : list string :=
  match s with
  | EmptyString => [current]
  | String c rest =>
      if Ascii.eqb c "."%char then current :: split_from "" rest
      else split_from (current +++ String c "") rest
  end.

Definition split (s : string) : list string := split_from "" s.

(** The index a property name denotes, if it is the decimal numeral of a
    natural number without superfluous zeros. *)
Definition array_index (part : string) : option nat :=
  match NilEmpty.uint_of_string part with
  | Some u =>
      let n := Nat.of_uint u in
      if String.eqb (NilZero.string_of_uint (Nat.to_uint n)) part then Some n else None
  | None => None
  end.

(** The walk of [extractMetricValue] down a path.  A property that is
    inherited is a function or a prototype, from which the walk reaches no
    number, except that the prototype of an array has a [length] of 0: so
    of the inherited properties only [__proto__] of an array is followed. *)
Fixpoint walk (parts : list string) (current : data) : option data :=
  match parts with
  | [] => Some current
  | part :: rest =>
      match current with
      | VObj fields =>
          match Compare.property part fields with
          | Some v => walk rest v
          | None => None
          end
      | VArr items =>
          match array_index part with
          | Some i =>
              match nth_error items i with
              | Some v => walk rest v
              | None => None
              end
          | None =>
              if String.eqb part "length" then walk rest (VNum (of_nat (List.length items)))
              else if String.eqb part "__proto__" then
                match rest with
                | ["length"] => Some (VNum zero)
                | _ => None
                end
              else None
          end
      | _ => None
      end
  end.

Definition extractMetricValue (it : object) (metricPath : string) : option number :=
  match walk (split metricPath) (VObj it) with
  | Some (VNum n) => Some n
  | _ => None
  end.

(** The test of the callback of [isOutlier] on one entry of the
    statistics. *)
Definition beyond_three_deviations (it : object) (item : string * Compare.stat_entry) : bool :=
  match snd item with
  | Compare.MetricStats s =>
      match extractMetricValue it (fst item) with
      | Some metricValue =>
          gtb (Math_abs (div (sub metricValue (Compare.mean s)) (Compare.stddev s))) (of_Z 3)
      | None => false
      end
  | _ => false
  end.

(** [isOutlier]: the [return true] of the callback of [forEach] ends the
    callback, not [isOutlier]. *)
Definition isOutlier (it : object) (statistics : option Compare.statistics_object) : bool :=
  match statistics with
  | None => false
  | Some st =>
      if negb (Runner.truthy (Runner.get "phases" it)) then false
      else
        let visited := map (beyond_three_deviations it) st in
        false
  end.

Definition nullish (v : data) : bool :=
  match v with
  | VNull | VUndefined => true
  | _ => false
  end.

Record quality_counters : Type := {
  totalIterations : nat;
  validIterations : nat;
  nullMetrics : nat;
  outliers : nat
}.

Definition quality_state : Type := (report * quality_counters)%type.

Definition null_metric_step (envName scenarioName : string) (index : nat)
  (st : quality_state) (m : named_value) : quality_state :=
  let '(r, c) := st in
  if nullish (snd m) then
    (warn {| type := "null_metric"; severity := "warning";
             environment := Some envName; scenario := Some scenarioName;
             iteration := Some (index + 1)%nat; metric := Some (fst m);
             message := VStr "Null or undefined metric value";
             value := None; threshold := None; names := None |} r,
     {| totalIterations := totalIterations c; validIterations := validIterations c;
        nullMetrics := S (nullMetrics c); outliers := outliers c |})
  else st.

(** The body of the loop over the iterations of a scenario, with the index
    of the iteration. *)
Definition iteration_step (envName scenarioName : string)
  (statistics : option Compare.statistics_object)
  (st : quality_state) (index : nat) (it : object) : quality_state :=
  let '(r, c) := st in
  let c1 :=
    {| totalIterations := S (totalIterations c); validIterations := validIterations c;
       nullMetrics := nullMetrics c; outliers := outliers c |} in
  if Runner.truthy (Runner.get "error" it) || Runner.truthy (Runner.get "failed" it) then
    (warn {| type := "failed_iteration"; severity := "warning";
             environment := Some envName; scenario := Some scenarioName;
             iteration := Some (index + 1)%nat; metric := None;
             message :=
               if Runner.truthy (Runner.get "error" it) then Runner.get "error" it
               else VStr "Iteration failed";
             value := None; threshold := None; names := None |} r,
     c1)
  else
    let c2 :=
      {| totalIterations := totalIterations c1; validIterations := S (validIterations c1);
         nullMetrics := nullMetrics c1; outliers := outliers c1 |} in
    let '(r3, c3) :=
      fold_left (null_metric_step envName scenarioName index)
                (extractIterationMetrics it) (r, c2) in
    if isOutlier it statistics then
      (warn {| type := "outlier"; severity := "warning";
               environment := Some envName; scenario := Some scenarioName;
               iteration := Some (index + 1)%nat; metric := None;
               message := VStr "Potential outlier detected";
               value := None; threshold := None; names := None |} r3,
       {| totalIterations := totalIterations c3; validIterations := validIterations c3;
          nullMetrics := nullMetrics c3; outliers := S (outliers c3) |})
    else (r3, c3).

Fixpoint iterations_from (envName scenarioName : string)
  (statistics : option Compare.statistics_object)
  (index : nat) (its : list object) (st : quality_state) : quality_state :=
  match its with
  | [] => st
  | it :: rest =>
      iterations_from envName scenarioName statistics (S index) rest
        (iteration_step envName scenarioName statistics st index it)
  end.

Definition quality_scenario (envName : string) (st : quality_state)
  (item : string * scenario_result) : quality_state :=
  let '(scenarioName, sc) := item in
  match iterations sc with
  | Some its => iterations_from envName scenarioName (statistics sc) 0 its st
  | None => st
  end.

Definition quality_environment (st : quality_state) (item : string * environment_result)
  : quality_state :=
  let '(envName, envResult) := item in
  match scenarios envResult with
  | Some scs => fold_left (quality_scenario envName) scs st
  | None => st
  end.

Record quality_metrics : Type := {
  q_totalIterations : nat;
  q_validIterations : nat;
  validDataRate : number;
  q_nullMetrics : nat;
  q_outliers : nat
}.

(** [validateDataQuality]: the report and its [metrics]; without
    [results.results] the [metrics] are the empty object. *)
Definition validateDataQuality (x : run) : report * option quality_metrics :=
  match results x with
  | None => (start, None)
  | Some envs =>
      let '(r, c) :=
        fold_left quality_environment envs
          (start, {| totalIterations := 0; validIterations := 0; nullMetrics := 0;
                     outliers := 0 |}) in
      let rate :=
        if (0 <? totalIterations c)%nat
        then mul (div (of_nat (validIterations c)) (of_nat (totalIterations c))) (of_Z 100)
        else zero in
      let r' :=
        if ltb rate (of_Z 80) then
          fail {| type := "low_data_quality"; severity := "error";
                  environment := None; scenario := None; iteration := None; metric := None;
                  message := VStr ("Low valid data rate: " +++ toFixed 1 rate +++ "%");
                  value := Some rate; threshold := Some (of_Z 80); names := None |} r
        else if ltb rate (of_Z 90) then
          warn {| type := "moderate_data_quality"; severity := "warning";
                  environment := None; scenario := None; iteration := None; metric := None;
                  message := VStr ("Moderate valid data rate: " +++ toFixed 1 rate +++ "%");
                  value := Some rate; threshold := Some (of_Z 90); names := None |} r
        else r in
      (r',
       Some {| q_totalIterations := totalIterations c;
               q_validIterations := validIterations c;
               validDataRate := rate;
               q_nullMetrics := nullMetrics c;
               q_outliers := outliers c |})
  end.

(** *** Infrastructure ([validateInfrastructure]) *)

(** [infraConfigs]: the environments with an infrastructure, by name.  An
    assignment to the name [__proto__] creates no property. *)
Definition infraConfigs (envs : list (string * environment_result))
  : list (string * infrastructure_state) :=
  flat_map
    (fun item =>
       match infrastructure (snd item) with
       | Some infra => if String.eqb (fst item) "__proto__" then [] else [(fst item, infra)]
       | None => []
       end)
    envs.

(** The size of [new Set(l)]. *)
Definition distinct_texts (l : list string) : nat :=
  List.length (Compare.set_of [] l).

Definition same_flag (a b : option bool) : bool :=
  match a, b with
  | Some x, Some y => Bool.eqb x y
  | None, None => true
  | _, _ => false
  end.

Fixpoint distinct_flags (seen l : list (option bool)) : nat :=
  match l with
  | [] => 0
  | x :: rest =>
      if existsb (same_flag x) seen then distinct_flags seen rest
      else S (distinct_flags (x :: seen) rest)
  end.

Definition cdnProviders (configs : list (string * infrastructure_state)) : list string :=
  flat_map
    (fun item =>
       match cdn (snd item) with
       | Some c => if given (Compare.provider c) then [text (Compare.provider c)] else []
       | None => []
       end)
    configs.

Definition compressionAlgorithms (configs : list (string * infrastructure_state))
  : list string :=
  flat_map
    (fun item =>
       match compression (snd item) with
       | Some c => if given (algorithm c) then [text (algorithm c)] else []
       | None => []
       end)
    configs.

Definition http2Support (configs : list (string * infrastructure_state))
  : list (option bool) :=
  map (fun item => option_map Compare.http2Support (protocols (snd item))) configs.

Definition inconsistency (type message : string) (envNames : list string) : entry :=
  {| type := type; severity := "warning";
     environment := None; scenario := None; iteration := None; metric := None;
     message := VStr message; value := None; threshold := None;
     names := Some envNames |}.

Definition detectInfrastructureInconsistencies
  (configs : list (string * infrastructure_state)) (r : report) : report :=
  let envNames := map fst configs in
  let r1 :=
    if (1 <? distinct_texts (cdnProviders configs))%nat then
      warn (inconsistency "cdn_inconsistency"
              ("Different CDN providers detected: "
               +++ String.concat ", " (cdnProviders configs)) envNames) r
    else r in
  let r2 :=
    if (1 <? distinct_texts (compressionAlgorithms configs))%nat then
      warn (inconsistency "compression_inconsistency"
              ("Different compression algorithms: "
               +++ String.concat ", " (compressionAlgorithms configs)) envNames) r1
    else r1 in
  if (1 <? distinct_flags [] (http2Support configs))%nat then
    warn (inconsistency "protocol_inconsistency"
            "Inconsistent HTTP/2 support across environments" envNames) r2
  else r2.

Definition about (type severity envName message : string)
  (value threshold : option number) : entry :=
  {| type := type; severity := severity;
     environment := Some envName; scenario := None; iteration := None; metric := None;
     message := VStr message; value := value; threshold := threshold; names := None |}.

Definition cdn_detected (infra : infrastructure_state) : bool :=
  match cdn infra with Some c => Compare.detected c | None => false end.

Definition compression_enabled (infra : infrastructure_state) : bool :=
  match compression infra with Some c => enabled c | None => false end.

Definition compression_is_poor (infra : infrastructure_state) : bool :=
  match compression infra with
  | Some c => match effectiveness c with Some e => String.eqb e "poor" | None => false end
  | None => false
  end.

Definition has_http2 (infra : infrastructure_state) : bool :=
  match protocols infra with Some p => Compare.http2Support p | None => false end.

Definition security_score (infra : infrastructure_state) : option number :=
  match security infra with Some s => score s | None => None end.

Definition validateEnvironmentInfrastructure (r : report)
  (item : string * infrastructure_state) : report :=
  let '(envName, infra) := item in
  let r1 :=
    if negb (cdn_detected infra) then
      warn (about "no_cdn" "warning" envName
              "No CDN detected - consider implementing CDN for better performance"
              None None) r
    else r in
  let r2 :=
    if negb (compression_enabled infra) then
      fail (about "no_compression" "error" envName
              "No compression detected - enable gzip/brotli compression" None None) r1
    else if compression_is_poor infra then
      warn (about "poor_compression" "warning" envName
              "Poor compression effectiveness detected" None None) r1
    else r1 in
  let r3 :=
    if negb (has_http2 infra) then
      warn (about "no_http2" "warning" envName
              "HTTP/2 not detected - consider upgrading for better performance"
              None None) r2
    else r2 in
  match security_score infra with
  | Some sc =>
      if ltb sc (of_Z 70) then
        fail (about "low_security_score" "error" envName
                ("Low security score: " +++ to_string sc +++ "/100")
                (Some sc) (Some (of_Z 70))) r3
      else r3
  | None => r3
  end.

Definition validateInfrastructure (x : run) : report :=
  match results x with
  | None => start
  | Some envs =>
      let configs := infraConfigs envs in
      let r1 :=
        if (1 <? List.length envs)%nat
        then detectInfrastructureInconsistencies configs start else start in
      fold_left validateEnvironmentInfrastructure configs r1
  end.

(** *** Coverage ([validateCoverage]) *)

Definition expectedScenarios : list string :=
  ["cold-start"; "warm-start"; "critical-path"; "api-endpoints"].

Definition foundScenarios (envs : list (string * environment_result)) : list string :=
  Compare.set_of []
    (flat_map
       (fun item =>
          match scenarios (snd item) with
          | Some scs => map fst scs
          | None => []
          end)
       envs).

Definition missingScenarios (envs : list (string * environment_result)) : list string :=
  filter (fun name => negb (Compare.includes (foundScenarios envs) name)) expectedScenarios.

Record coverage_metrics : Type := {
  c_expectedScenarios : nat;
  c_foundScenarios : nat;
  coverageRate : number;
  c_missingScenarios : nat
}.

Definition validateCoverage (x : run) : report * option coverage_metrics :=
  match results x with
  | None => (start, None)
  | Some envs =>
      let missing := missingScenarios envs in
      ((if (0 <? List.length missing)%nat then
          warn {| type := "missing_scenarios"; severity := "warning";
                  environment := None; scenario := None; iteration := None;
                  metric := None;
                  message :=
                    VStr ("Missing test scenarios: " +++ String.concat ", " missing);
                  value := None; threshold := None; names := Some missing |} start
        else start),
       Some {| c_expectedScenarios := List.length expectedScenarios;
               c_foundScenarios := List.length (foundScenarios envs);
               coverageRate :=
                 mul (div (of_nat (List.length (foundScenarios envs)))
                          (of_nat (List.length expectedScenarios)))
                     (of_Z 100);
               c_missingScenarios := List.length missing |})
  end.

(** *** Recommendations ([generateValidationRecommendations]) *)

(** [hay.includes(needle)] *)
Fixpoint contains (needle hay : string) : bool :=
  String.prefix needle hay
  || match hay with
     | EmptyString => false
     | String _ rest => contains needle rest
     end.

Record recommendation : Type := {
  r_type : string;
  priority : string;
  r_message : string;
  actions : list string
}.

(** The recommendations, from the [type]s of the issues of the report. *)
Definition generateValidationRecommendations (types : list string) : list recommendation :=
  (if existsb (contains "execution") types then
     [{| r_type := "execution"; priority := "high";
         r_message := "Address test execution failures";
         actions := ["Check browser and network stability";
                     "Verify target URLs are accessible";
                     "Review test timeouts and retry logic"] |}]
   else [])
  ++ (if existsb (contains "variability") types then
        [{| r_type := "reliability"; priority := "medium";
            r_message := "Improve test measurement reliability";
            actions := ["Increase number of test iterations";
                        "Ensure consistent test environment";
                        "Check for external factors affecting performance"] |}]
      else [])
  ++ (if existsb (contains "data") types then
        [{| r_type := "data-quality"; priority := "medium";
            r_message := "Improve data collection quality";
            actions := ["Review metrics collection implementation";
                        "Handle edge cases in data collection";
                        "Implement better error handling"] |}]
      else [])
  ++ (if existsb (fun t => contains "compression" t || contains "security" t) types then
        [{| r_type := "infrastructure"; priority := "high";
            r_message := "Address infrastructure configuration issues";
            actions := ["Enable compression (gzip/brotli)";
                        "Implement security headers";
                        "Consider CDN implementation"] |}]
      else []).

(** *** The whole validation ([validateTestRun]) *)

(** The run as [validateStatistics] reads it. *)
Definition statistics_input (x : run)
  : option (list (string * Validation.environment_result)) :=
  option_map
    (map (fun item =>
            (fst item,
             {| Validation.scenarios :=
                  option_map
                    (map (fun sc => (fst sc, {| Compare.statistics := statistics (snd sc) |})))
                    (scenarios (snd item)) |})))
    (results x).

(** The [type]s of the issues of the five sections, in the order of the
    aggregation. *)
Definition issue_types (x : run) : list string :=
  map type (issues (validateExecution x))
  ++ map Validation.type (Validation.issues (fst (Validation.validateStatistics (statistics_input x))))
  ++ map type (issues (fst (validateDataQuality x)))
  ++ map type (issues (validateInfrastructure x))
  ++ map type (issues (fst (validateCoverage x))).

(** The [recommendations] of [validateTestRun]. *)
Definition recommendations (x : run) : list recommendation :=
  generateValidationRecommendations (issue_types x).

End Checks.

(** * Properties *)

(** ** The top-level validation report *)

Module ValidationFacts.

Import Validation.

Lemma fold_section_step (sections : list (string * report)) (acc : tally) :
  let final := fold_left section_step sections acc in
  totalIssues final
    = totalIssues acc
      + Z.of_nat (List.length (flat_map (fun e => issues (snd e)) sections))
  /\ totalWarnings final
    = totalWarnings acc
      + Z.of_nat (List.length (flat_map (fun e => warnings (snd e)) sections))
  /\ t_passed final = t_passed acc && forallb (fun e => passed (snd e)) sections
  /\ t_issues final = t_issues acc ++ flat_map (fun e => issues (snd e)) sections
  /\ t_warnings final = t_warnings acc ++ flat_map (fun e => warnings (snd e)) sections.
Proof.
  revert acc. induction sections as [|[name section] rest IH]; intros acc; simpl.
  - rewrite !Z.add_0_r, andb_true_r, !app_nil_r. repeat split; reflexivity.
  - destruct (IH (section_step acc (name, section))) as (Hi & Hw & Hp & Hil & Hwl).
    simpl in *. rewrite Hi, Hw, Hp, Hil, Hwl.
    rewrite !length_app, !Nat2Z.inj_add, <- !app_assoc.
    repeat split; try lia.
    destruct (passed section), (t_passed acc); reflexivity.
Qed.

(** C7.  The score of the top-level report is 100 minus 10 per issue
    and 5 per warning of the five sub-reports, clamped to [0, 100], and
    the report passes exactly when the five sub-reports all pass. *)
Theorem validateTestRun_score_and_passed
  (execution statistics dataQuality infrastructure coverage : report) :
  let v := validateTestRun execution statistics dataQuality infrastructure coverage in
  let issueCount :=
    Z.of_nat (List.length (issues execution) + List.length (issues statistics)
              + List.length (issues dataQuality) + List.length (issues infrastructure)
              + List.length (issues coverage)) in
  let warningCount :=
    Z.of_nat (List.length (warnings execution) + List.length (warnings statistics)
              + List.length (warnings dataQuality) + List.length (warnings infrastructure)
              + List.length (warnings coverage)) in
  v_score v = Z.max 0 (Z.min 100 (100 - 10 * issueCount - 5 * warningCount))
  /\ v_passed v
     = passed execution && passed statistics && passed dataQuality
       && passed infrastructure && passed coverage
  /\ v_issues v
     = issues execution ++ issues statistics ++ issues dataQuality
       ++ issues infrastructure ++ issues coverage
  /\ v_warnings v
     = warnings execution ++ warnings statistics ++ warnings dataQuality
       ++ warnings infrastructure ++ warnings coverage.
Proof.
  intros v issueCount warningCount. subst v issueCount warningCount.
  unfold validateTestRun, aggregateValidationResults.
  cbn [detailed v_passed v_issues v_warnings v_score].
  match goal with
  | |- context [fold_left section_step ?l ?a] =>
      destruct (fold_section_step l a) as (Hi & Hw & Hp & Hil & Hwl)
  end.
  rewrite Hi, Hw, Hp, Hil, Hwl.
  cbn [flat_map snd forallb totalIssues totalWarnings t_passed t_issues t_warnings app].
  rewrite !app_nil_r, !length_app, andb_true_r.
  repeat split; try lia.
  rewrite !andb_assoc. reflexivity.
Qed.

(** *** The statistics check keeps what it has recorded *)

Definition keeps (r r' : report) : Prop :=
  (passed r = false -> passed r' = false)
  /\ (forall i, In i (issues r) -> In i (issues r')).

Lemma keeps_refl (r : report) : keeps r r.
Proof. split; auto. Qed.

Lemma keeps_trans (r1 r2 r3 : report) : keeps r1 r2 -> keeps r2 r3 -> keeps r1 r3.
Proof. intros [H1 H2] [H3 H4]. split; auto. Qed.

Lemma keeps_add_issue (i : issue) (fails : bool) (r : report) :
  keeps r (add_issue i fails r).
Proof.
  split; simpl.
  - intros ->. destruct fails; reflexivity.
  - intros j Hj. apply in_or_app. left. exact Hj.
Qed.

Lemma keeps_add_warning (w : issue) (r : report) : keeps r (add_warning w r).
Proof. split; simpl; auto. Qed.

Create HintDb keeps.
#[local] Hint Resolve keeps_refl keeps_add_issue keeps_add_warning : keeps.

Lemma keeps_metric_check (envName scenarioName : string) (st : state)
  (entry : string * Compare.stat_entry) :
  keeps (fst st) (fst (metric_check envName scenarioName st entry)).
Proof.
  destruct entry as [metricName e], st as [r c]. unfold metric_check.
  destruct e as [stats| |]; auto with keeps.
  destruct (Compare.cv stats) as [cv|]; auto with keeps.
  destruct (gtb cv (mul coefficientOfVariation (of_Z 2)));
    [|destruct (gtb cv coefficientOfVariation)];
    destruct (ltb (Compare.count stats) (of_Z 5)); simpl;
    eauto using keeps_trans with keeps.
Qed.

Lemma keeps_fold {A : Type} (step : state -> A -> state) (l : list A) :
  (forall st a, keeps (fst st) (fst (step st a))) ->
  forall st, keeps (fst st) (fst (fold_left step l st)).
Proof.
  intros Hstep. induction l as [|a l IH]; intros st; simpl.
  - apply keeps_refl.
  - eapply keeps_trans; [apply Hstep | apply IH].
Qed.

Lemma keeps_success_rate_check (envName scenarioName : string)
  (rate : option number) (r : report) :
  keeps r (success_rate_check envName scenarioName rate r).
Proof.
  unfold success_rate_check. destruct rate as [rate|]; auto with keeps.
  destruct (ltb rate successRateThreshold); auto with keeps.
Qed.

Lemma keeps_scenario_check (envName : string) (st : state)
  (entry : string * Compare.scenario) :
  keeps (fst st) (fst (scenario_check envName st entry)).
Proof.
  destruct entry as [scenarioName sc]. unfold scenario_check.
  destruct (Compare.statistics sc) as [statistics|]; auto with keeps.
  pose proof (keeps_fold (metric_check envName scenarioName) statistics
                (keeps_metric_check envName scenarioName) st) as H.
  destruct (fold_left (metric_check envName scenarioName) statistics st) as [r c].
  simpl in *. eapply keeps_trans; [exact H | apply keeps_success_rate_check].
Qed.

Lemma keeps_environment_check (st : state) (entry : string * environment_result) :
  keeps (fst st) (fst (environment_check st entry)).
Proof.
  destruct entry as [envName envResult]. unfold environment_check.
  destruct (scenarios envResult) as [entries|]; auto with keeps.
  apply keeps_fold. apply keeps_scenario_check.
Qed.

(** What the check of a scenario found in the run leaves in the final
    sub-report. *)
Lemma scenario_reaches_report
  (results : list (string * environment_result)) (envName : string)
  (envResult : environment_result) (scs : list (string * Compare.scenario))
  (scenarioName : string) (sc : Compare.scenario)
  (statistics : Compare.statistics_object) :
  In (envName, envResult) results ->
  scenarios envResult = Some scs ->
  In (scenarioName, sc) scs ->
  Compare.statistics sc = Some statistics ->
  exists r,
    keeps (success_rate_check envName scenarioName
             (reported_success_rate statistics) r)
          (fst (validateStatistics (Some results))).
Proof.
  intros Henv Hscs Hsc Hstats. unfold validateStatistics.
  generalize ({| passed := true; issues := []; warnings := [] |},
              {| totalMetrics := 0%nat; unstableMetrics := 0%nat;
                 reliableMetrics := 0%nat |}).
  induction results as [|entry results IH]; intros st; [destruct Henv|].
  destruct Henv as [->|Henv]; [|simpl; apply IH; exact Henv].
  simpl. rewrite Hscs.
  assert (exists r,
             keeps (success_rate_check envName scenarioName
                      (reported_success_rate statistics) r)
                   (fst (fold_left (scenario_check envName) scs st)))
    as [r Hr].
  { clear IH Hscs. revert st. induction scs as [|e scs IHs]; intros st; [destruct Hsc|].
    destruct Hsc as [->|Hsc]; [|simpl; apply IHs; exact Hsc].
    simpl. rewrite Hstats.
    destruct (fold_left (metric_check envName scenarioName) statistics st) as [r c].
    exists r.
    exact (keeps_fold (scenario_check envName) scs (keeps_scenario_check envName)
             (success_rate_check envName scenarioName
                (reported_success_rate statistics) r, c)). }
  exists r. eapply keeps_trans; [exact Hr|].
  apply (keeps_fold environment_check results keeps_environment_check).
Qed.

(** The issue recorded for a low success rate. *)
Definition low_success_rate (envName scenarioName severity text : string)
  (rate : number) : issue :=
  {| type := "low_success_rate"; severity := severity;
     environment := Some envName; scenario := Some scenarioName;
     metric := None;
     message := "Low success rate: " +++ text +++ "%";
     value := Some rate;
     threshold := Some successRateThreshold |}.

(** C8.  A scenario that reports a success rate of exactly 79.9 leaves
    an issue of severity error in the statistics sub-report and makes
    it fail; one that reports exactly 80 leaves an issue of severity
    warning, and its check does not touch the passed flag: the
    boundary is a strict less-than 80. *)
Theorem success_rate_boundary
  (results : list (string * environment_result)) (envName : string)
  (envResult : environment_result) (scs : list (string * Compare.scenario))
  (scenarioName : string) (sc : Compare.scenario)
  (statistics : Compare.statistics_object) :
  In (envName, envResult) results ->
  scenarios envResult = Some scs ->
  In (scenarioName, sc) scs ->
  Compare.statistics sc = Some statistics ->
  let final := fst (validateStatistics (Some results)) in
  (reported_success_rate statistics = Some (dec false 799 1) ->
   passed final = false
   /\ In (low_success_rate envName scenarioName "error" "79.9" (dec false 799 1))
         (issues final))
  /\ (reported_success_rate statistics = Some (of_Z 80) ->
      In (low_success_rate envName scenarioName "warning" "80.0" (of_Z 80))
         (issues final)
      /\ forall r,
          passed (success_rate_check envName scenarioName (Some (of_Z 80)) r)
          = passed r).
Proof.
  intros Henv Hscs Hsc Hstats final.
  destruct (scenario_reaches_report results envName envResult scs scenarioName
              sc statistics Henv Hscs Hsc Hstats) as [r [Hpassed Hissues]].
  fold final in Hpassed, Hissues.
  assert (Hlow : ltb (dec false 799 1) successRateThreshold = true)
    by (vm_compute; reflexivity).
  assert (Hlow' : ltb (dec false 799 1) (of_Z 80) = true) by (vm_compute; reflexivity).
  assert (Htext : toFixed 1 (dec false 799 1) = "79.9") by (vm_compute; reflexivity).
  assert (Hmid : ltb (of_Z 80) successRateThreshold = true) by (vm_compute; reflexivity).
  assert (Hmid' : ltb (of_Z 80) (of_Z 80) = false) by (vm_compute; reflexivity).
  assert (Htext' : toFixed 1 (of_Z 80) = "80.0") by (vm_compute; reflexivity).
  split; intros Hrate; rewrite Hrate in Hpassed, Hissues;
    unfold success_rate_check in Hpassed, Hissues.
  - rewrite Hlow, Hlow', Htext in Hpassed, Hissues. split.
    + apply Hpassed. reflexivity.
    + apply Hissues. cbn [add_issue issues]. apply in_or_app. right. left. reflexivity.
  - rewrite Hmid, Hmid', Htext' in Hissues. split.
    + apply Hissues. cbn [add_issue issues]. apply in_or_app. right. left. reflexivity.
    + intros r'. unfold success_rate_check. rewrite Hmid, Hmid'. reflexivity.
Qed.

(** A run with a scenario at 79.9 percent and one at 80 percent. *)
Definition scenario_at (rate : number) : Compare.scenario :=
  {| Compare.statistics :=
       Some [ ("timing.total",
               Compare.MetricStats
                 {| Compare.mean := of_Z 369; Compare.stddev := of_Z 30;
                    Compare.count := of_Z 10; Compare.cv := Some (dec false 813 2) |});
              ("validRuns", Compare.ScalarStat (of_Z 10));
              ("successRate", Compare.ScalarStat rate) ] |}.

Definition boundary_run : list (string * environment_result) :=
  [ ("production",
     {| scenarios :=
          Some [ ("cold-start", scenario_at (dec false 799 1));
                 ("warm-start", scenario_at (of_Z 80)) ] |}) ].

Lemma success_rate_boundary_witness :
  passed (fst (validateStatistics (Some boundary_run))) = false
  /\ In (low_success_rate "production" "cold-start" "error" "79.9" (dec false 799 1))
        (issues (fst (validateStatistics (Some boundary_run))))
  /\ In (low_success_rate "production" "warm-start" "warning" "80.0" (of_Z 80))
        (issues (fst (validateStatistics (Some boundary_run)))).
Proof.
  pose proof (success_rate_boundary boundary_run "production" _ _ "cold-start"
                (scenario_at (dec false 799 1)) _
                (or_introl eq_refl) eq_refl (or_introl eq_refl) eq_refl) as [Hlow _].
  pose proof (success_rate_boundary boundary_run "production" _ _ "warm-start"
                (scenario_at (of_Z 80)) _
                (or_introl eq_refl) eq_refl (or_intror (or_introl eq_refl)) eq_refl)
    as [_ Hhigh].
  destruct (Hlow eq_refl) as [Hfailed Herror].
  destruct (Hhigh eq_refl) as [Hwarning _].
  exact (conj Hfailed (conj Herror Hwarning)).
Defined.

End ValidationFacts.

(** ** The run summary *)

Module SummaryFacts.

Import Compare.

(** The entries a metric comparison is said to contribute: it is listed
    as a regression or an improvement when it is statistically
    significant and its change exceeds 5 percent in absolute value. *)
Definition listed (result : comparison_result) : bool :=
  Significance.isSignificant (significance result)
  && gtb (Math_abs (Change.percent (change result))) (of_Z 5).

Definition worse (result : comparison_result) : bool :=
  gtb (Change.percent (change result)) zero.

Definition regression_entry (scenarioName metric : string)
  (result : comparison_result) : string :=
  scenarioName +++ "." +++ metric +++ ": +"
    +++ to_string (Change.percent (change result)) +++ "%".

Definition change_entry (scenarioName metric : string)
  (result : comparison_result) : string :=
  scenarioName +++ "." +++ metric +++ ": "
    +++ to_string (Change.percent (change result)) +++ "%".

Definition metric_regressions (scenarioName : string)
  (entry : string * comparison_result) : list string :=
  if listed (snd entry) && worse (snd entry)
  then [regression_entry scenarioName (fst entry) (snd entry)] else [].

Definition metric_improvements (scenarioName : string)
  (entry : string * comparison_result) : list string :=
  if listed (snd entry) && negb (worse (snd entry))
  then [change_entry scenarioName (fst entry) (snd entry)] else [].

Definition metric_significant (scenarioName : string)
  (entry : string * comparison_result) : list string :=
  if Significance.isSignificant (significance (snd entry))
  then [change_entry scenarioName (fst entry) (snd entry)] else [].

Definition over_scenarios (f : string -> string * comparison_result -> list string)
  (scs : option (list (string * scenario_analysis))) : list string :=
  match scs with
  | Some entries => flat_map (fun e => flat_map (f (fst e)) (statistical (snd e))) entries
  | None => []
  end.

Definition infrastructure_entries (names : list string)
  (infra : option (list (string * option string))) : list string :=
  match infra with
  | Some entries =>
      flat_map
        (fun e => if is_one_of names (snd e)
                  then [fst e +++ ": " +++ impact_text (snd e)] else [])
        entries
  | None => []
  end.

Lemma fold_infrastructure_step (entries : list (string * option string)) (acc : lists) :
  (forall i, is_one_of ["positive"; "significant-positive"] i = true ->
             is_one_of ["negative"; "significant-negative"] i = false) ->
  let final := fold_left infrastructure_step entries acc in
  significant_list final = significant_list acc
  /\ regression_list final
     = regression_list acc
       ++ infrastructure_entries ["negative"; "significant-negative"] (Some entries)
  /\ improvement_list final
     = improvement_list acc
       ++ infrastructure_entries ["positive"; "significant-positive"] (Some entries).
Proof.
  intros Hexcl. revert acc.
  induction entries as [|[category impact] rest IH]; intros acc;
    cbn [fold_left infrastructure_entries flat_map fst snd].
  - rewrite !app_nil_r. auto.
  - destruct (IH (infrastructure_step acc (category, impact))) as (Hs & Hr & Hi).
    cbn [infrastructure_entries] in Hr, Hi. rewrite Hs, Hr, Hi. clear Hs Hr Hi IH.
    unfold infrastructure_step.
    destruct (is_one_of ["positive"; "significant-positive"] impact) eqn:Hpos.
    + rewrite (Hexcl _ Hpos). simpl. rewrite <- app_assoc. auto.
    + destruct (is_one_of ["negative"; "significant-negative"] impact); simpl;
        rewrite <- ?app_assoc; auto.
Qed.

Lemma positive_not_negative (i : option string) :
  is_one_of ["positive"; "significant-positive"] i = true ->
  is_one_of ["negative"; "significant-negative"] i = false.
Proof.
  destruct i as [i|]; simpl; [|discriminate].
  rewrite !orb_false_r. intros H.
  apply orb_true_iff in H. destruct H as [H|H]; apply String.eqb_eq in H; subst i;
    reflexivity.
Qed.

Lemma fold_metric_step (scenarioName : string)
  (entries : list (string * comparison_result)) (acc : lists) :
  let final := fold_left (metric_step scenarioName) entries acc in
  significant_list final
  = significant_list acc ++ flat_map (metric_significant scenarioName) entries
  /\ regression_list final
     = regression_list acc ++ flat_map (metric_regressions scenarioName) entries
  /\ improvement_list final
     = improvement_list acc ++ flat_map (metric_improvements scenarioName) entries.
Proof.
  revert acc. induction entries as [|[metric result] rest IH]; intros acc;
    cbn [fold_left flat_map].
  - rewrite !app_nil_r. auto.
  - destruct (IH (metric_step scenarioName acc (metric, result))) as (Hs & Hr & Hi).
    rewrite Hs, Hr, Hi. clear Hs Hr Hi IH.
    unfold metric_step, metric_significant, metric_regressions,
      metric_improvements, listed, worse, regression_entry, change_entry.
    cbn [fst snd].
    destruct (Significance.isSignificant (significance result)); cbn [andb].
    + destruct (gtb (Math_abs (Change.percent (change result))) (of_Z 5)); cbn [andb].
      * destruct (gtb (Change.percent (change result)) zero); cbn [negb];
          cbn [significant_list regression_list improvement_list];
          rewrite <- ?app_assoc; auto.
      * cbn [significant_list regression_list improvement_list].
        rewrite <- ?app_assoc; auto.
    + auto.
Qed.

Lemma fold_scenario_step (entries : list (string * scenario_analysis)) (acc : lists) :
  let final := fold_left scenario_step entries acc in
  significant_list final
  = significant_list acc ++ over_scenarios metric_significant (Some entries)
  /\ regression_list final
     = regression_list acc ++ over_scenarios metric_regressions (Some entries)
  /\ improvement_list final
     = improvement_list acc ++ over_scenarios metric_improvements (Some entries).
Proof.
  revert acc. induction entries as [|[scenarioName sa] rest IH]; intros acc;
    cbn [fold_left over_scenarios flat_map fst snd].
  - rewrite !app_nil_r. auto.
  - destruct (IH (scenario_step acc (scenarioName, sa))) as (Hs & Hr & Hi).
    cbn [over_scenarios] in Hs, Hr, Hi. rewrite Hs, Hr, Hi. clear Hs Hr Hi IH.
    destruct (fold_metric_step scenarioName (statistical sa) acc) as (Hs & Hr & Hi).
    unfold scenario_step. rewrite Hs, Hr, Hi, <- !app_assoc. auto.
Qed.

(** C1, as the code has it.  A metric comparison is added to the
    regressions (when its percent change is positive) or to the
    improvements (otherwise) exactly when it is statistically
    significant and its percent change exceeds 5 in absolute value; a
    comparison that is not significant is added to neither list,
    however large its change. *)
Theorem generateSummary_lists (a : analysis) :
  regressions (generateSummary a)
  = infrastructure_entries ["negative"; "significant-negative"] (infrastructure a)
    ++ over_scenarios metric_regressions (scenarios a)
  /\ improvements (generateSummary a)
     = infrastructure_entries ["positive"; "significant-positive"] (infrastructure a)
       ++ over_scenarios metric_improvements (scenarios a)
  /\ significantChanges (generateSummary a)
     = over_scenarios metric_significant (scenarios a).
Proof.
  unfold generateSummary. cbn [regressions improvements significantChanges].
  set (start := {| significant_list := []; regression_list := [];
                   improvement_list := [] |}).
  assert (Hinfra :
    let after := match infrastructure a with
                 | Some entries => fold_left infrastructure_step entries start
                 | None => start
                 end in
    significant_list after = []
    /\ regression_list after
       = infrastructure_entries ["negative"; "significant-negative"] (infrastructure a)
    /\ improvement_list after
       = infrastructure_entries ["positive"; "significant-positive"] (infrastructure a)).
  { destruct (infrastructure a) as [entries|]; [|simpl; auto].
    apply (fold_infrastructure_step entries start positive_not_negative). }
  destruct Hinfra as (Hs & Hr & Hi).
  destruct (scenarios a) as [entries|].
  - match goal with
    | |- context [fold_left scenario_step entries ?acc] =>
        destruct (fold_scenario_step entries acc) as (Hs' & Hr' & Hi')
    end.
    rewrite Hs', Hr', Hi', Hs, Hr, Hi. auto.
  - rewrite Hs, Hr, Hi. simpl. rewrite !app_nil_r. auto.
Qed.

End SummaryFacts.

(** ** The comparator on concrete records *)

Module ComparatorFacts.

Import Compare.

Definition record (mean stddev count : Z) : stats :=
  {| mean := of_Z mean; stddev := of_Z stddev; count := of_Z count; cv := None |}.

(** A result set with one scenario and one metric. *)
Definition run (scenarioName metric : string) (s : stats) : environment_result :=
  {| env_infrastructure := None;
     env_scenarios :=
       Some [(scenarioName, {| statistics := Some [(metric, MetricStats s)] |})] |}.

(** C1, as stated, fails.  Between [{mean: 100, stddev: 50, count: 2}]
    and [{mean: 120, stddev: 50, count: 2}] the change is +20 percent
    and not significant (t = -0.4), and the metric is not listed as a
    regression. *)
Lemma large_insignificant_change_is_not_listed :
  gtb (Math_abs (Change.percent
                   (change (performStatisticalTest (record 100 50 2) (record 120 50 2)))))
      (of_Z 5) = true
  /\ Change.percent (change (performStatisticalTest (record 100 50 2) (record 120 50 2)))
     = of_Z 20
  /\ Significance.isSignificant
       (significance (performStatisticalTest (record 100 50 2) (record 120 50 2)))
     = false
  /\ regressions
       (compareEnvironments (run "cold-start" "timing.total" (record 100 50 2))
                            (run "cold-start" "timing.total" (record 120 50 2)))
     = [].
Proof. vm_compute. repeat split; reflexivity. Qed.

(** C2 on the code.  With zero variance on both sides
    ([{mean: 10, stddev: 0, count: 5}] against [{mean: 12, stddev: 0,
    count: 5}]) the degrees of freedom are [0 / 0], which is NaN and
    passes the guard [df <= 0]: the test reports a p-value of 0.0001
    and the change is significant.  The same happens with a sample of
    one, whose standard deviation is zero ([{mean: 100, stddev: 0,
    count: 1}] against [{mean: 110, stddev: 5, count: 10}]). *)
Theorem degenerate_pairs_are_significant :
  welchTTest (record 10 0 5) (record 12 0 5)
  = {| tStatistic := S754_infinity true;
       degreesOfFreedom := NaN;
       pValue := dec false 1 4 |}
  /\ Significance.isSignificant
       (significance (performStatisticalTest (record 10 0 5) (record 12 0 5)))
     = true
  /\ degreesOfFreedom (welchTTest (record 100 0 1) (record 110 5 10)) = NaN
  /\ pValue (welchTTest (record 100 0 1) (record 110 5 10)) = dec false 1 4
  /\ Significance.isSignificant
       (significance (performStatisticalTest (record 100 0 1) (record 110 5 10)))
     = true.
Proof. vm_compute. repeat split; reflexivity. Qed.

(** Where the guard does apply: a sample of one with a standard
    deviation that is not zero divides by [n - 1 = 0], the degrees of
    freedom are 0 and the p-value is 1. *)
Example sample_of_one_with_spread :
  degreesOfFreedom (welchTTest (record 100 5 1) (record 110 5 10)) = zero
  /\ pValue (welchTTest (record 100 5 1) (record 110 5 10)) = of_Z 1
  /\ Significance.isSignificant
       (significance (performStatisticalTest (record 100 5 1) (record 110 5 10)))
     = false.
Proof. vm_compute. repeat split; reflexivity. Qed.

(** C3 on the code.  A result set with a metric of zero variance,
    compared with itself, has that metric among the significant
    changes: [t = 0 / 0] and [df = 0 / 0] are NaN, and the p-value is
    0.0001. *)
Theorem identical_runs_with_a_constant_metric :
  compareEnvironments (run "cold-start" "size.total" (record 2048 0 5))
                      (run "cold-start" "size.total" (record 2048 0 5))
  = {| overallImpact := "neutral";
       significantChanges := ["cold-start.size.total: 0%"];
       regressions := [];
       improvements := [];
       stability := "stable" |}.
Proof. vm_compute. reflexivity. Qed.

(** C5.  Between [{mean: 369, stddev: 30, count: 10}] and
    [{mean: 1959, stddev: 403, count: 10}] the percent change is
    430.89, the change is significant, it is interpreted as a
    regression, and the metric is listed among the regressions of the
    summary. *)
Theorem end_to_end_regression :
  Change.percent (change (performStatisticalTest (record 369 30 10) (record 1959 403 10)))
  = dec false 43089 2
  /\ Significance.isSignificant
       (significance (performStatisticalTest (record 369 30 10) (record 1959 403 10)))
     = true
  /\ interpretation (performStatisticalTest (record 369 30 10) (record 1959 403 10))
     = {| Interpretation.summary :=
            "Significant performance regression detected (430.89% worse)";
          Interpretation.significance := "statistically significant";
          Interpretation.magnitude := "large";
          Interpretation.recommendation :=
            "Investigate and address performance regression" |}
  /\ regressions
       (compareEnvironments (run "cold-start" "timing.total" (record 369 30 10))
                            (run "cold-start" "timing.total" (record 1959 403 10)))
     = ["cold-start.timing.total: +430.89%"].
Proof. vm_compute. repeat split; reflexivity. Qed.

End ComparatorFacts.

(** ** The metric extractor *)

Module ExtractorFacts.

Import Extractor.

(** Induction on a value, through the fields of an object. *)
Section ValueInduction.
Variable P : value -> Prop.
Hypothesis Hundefined : P VUndefined.
Hypothesis Hnull : P VNull.
Hypothesis Hbool : forall b, P (VBool b).
Hypothesis Hnum : forall n, P (VNum n).
Hypothesis Hstr : forall s, P (VStr s).
Hypothesis Harr : forall items, P (VArr items).
Hypothesis Hobj : forall fields, Forall (fun kv => P (snd kv)) fields -> P (VObj fields).

Fixpoint value_fields_ind (v : value) : P v :=
  match v with
  | VUndefined => Hundefined
  | VNull => Hnull
  | VBool b => Hbool b
  | VNum n => Hnum n
  | VStr s => Hstr s
  | VArr items => Harr items
  | VObj fields =>
      Hobj fields
        ((fix all (fs : list (string * value)) : Forall (fun kv => P (snd kv)) fs :=
            match fs with
            | [] => Forall_nil _
            | kv :: rest => Forall_cons kv (value_fields_ind (snd kv)) (all rest)
            end) fields)
  end.
End ValueInduction.

Lemma at_path_app (path : string) (l1 l2 : list (string * number)) :
  at_path path (l1 ++ l2) = at_path path l1 ++ at_path path l2.
Proof. unfold at_path. rewrite filter_app, map_app. reflexivity. Qed.

Lemma lookup_push_at (key path : string) (v : number) (m : metrics) :
  lookup path (push_at key v m)
  = if String.eqb key path
    then option_map (fun arr => arr ++ [v]) (lookup path m)
    else lookup path m.
Proof.
  induction m as [|[k arr] rest IH]; simpl.
  - destruct (String.eqb key path); reflexivity.
  - destruct (String.eqb k key) eqn:Hk; simpl.
    + apply String.eqb_eq in Hk. subst k.
      destruct (String.eqb key path); reflexivity.
    + rewrite IH. destruct (String.eqb k path) eqn:Hp; [|reflexivity].
      apply String.eqb_eq in Hp. subst k. rewrite String.eqb_sym, Hk. reflexivity.
Qed.

Lemma lookup_app_new (key path : string) (arr : list number) (m : metrics) :
  lookup path (m ++ [(key, arr)])
  = match lookup path m with
    | Some a => Some a
    | None => if String.eqb key path then Some arr else None
    end.
Proof.
  induction m as [|[k a] rest IH]; simpl.
  - reflexivity.
  - destruct (String.eqb k path); [reflexivity | exact IH].
Qed.

(** One push appends one sample to the sequence of its path and leaves
    the other sequences alone. *)
Lemma samples_push_sample (key path : string) (v : number) (m m' : metrics) :
  push_sample key v m = Ok m' ->
  samples path m' = samples path m ++ (if String.eqb key path then [v] else []).
Proof.
  unfold push_sample, samples.
  destruct (lookup key m) as [arr|] eqn:Hkey.
  - intros [= <-]. rewrite lookup_push_at.
    destruct (String.eqb key path) eqn:Hp.
    + apply String.eqb_eq in Hp. subst path. rewrite Hkey. reflexivity.
    + rewrite app_nil_r. reflexivity.
  - destruct (inherited key); [discriminate|].
    intros [= <-]. rewrite lookup_app_new.
    destruct (String.eqb key path) eqn:Hp.
    + apply String.eqb_eq in Hp. subst path. rewrite Hkey. reflexivity.
    + destruct (lookup path m); rewrite app_nil_r; reflexivity.
Qed.

Lemma push_sample_returns (key : string) (v : number) (m : metrics) :
  inherited key = false -> exists m', push_sample key v m = Ok m'.
Proof.
  intros H. unfold push_sample. rewrite H.
  destruct (lookup key m); eauto.
Qed.

Definition no_inherited_path (leaves : list (string * number)) : Prop :=
  forall path v, In (path, v) leaves -> inherited path = false.

Lemma no_inherited_path_app (l1 l2 : list (string * number)) :
  no_inherited_path (l1 ++ l2) -> no_inherited_path l1 /\ no_inherited_path l2.
Proof.
  intros H. split; intros path v Hin; apply (H path v), in_or_app; auto.
Qed.

Lemma flatten_property_spec (v : value) :
  forall (fullKey : string) (m : metrics),
    no_inherited_path (property_leaves v fullKey) ->
    exists m',
      flatten_property v fullKey m = Ok m'
      /\ forall path,
          samples path m' = samples path m ++ at_path path (property_leaves v fullKey).
Proof.
  induction v as [| |b|n|s|items|fields IH] using value_fields_ind;
    intros fullKey m Hsafe;
    try (exists m; split; [reflexivity | intros path; simpl; rewrite app_nil_r; reflexivity]).
  - simpl in *. destruct (isNaN n).
    + exists m. split; [reflexivity|]. intros path. rewrite app_nil_r. reflexivity.
    + destruct (push_sample_returns fullKey n m) as [m' Hm'].
      { apply (Hsafe fullKey n). left. reflexivity. }
      exists m'. split; [exact Hm'|]. intros path.
      rewrite (samples_push_sample _ path _ _ _ Hm'). unfold at_path. simpl.
      destruct (String.eqb fullKey path); reflexivity.
  - simpl in *. revert m Hsafe.
    induction IH as [|[key v'] rest Hv' _ IHrest]; intros m Hsafe.
    + exists m. split; [reflexivity|]. intros path. rewrite app_nil_r. reflexivity.
    + apply no_inherited_path_app in Hsafe. destruct Hsafe as [Hhead Hrest].
      destruct (Hv' (full_key fullKey key) m Hhead) as (m1 & Hm1 & Hs1).
      destruct (IHrest m1 Hrest) as (m2 & Hm2 & Hs2).
      exists m2. simpl in Hm1. rewrite Hm1. simpl. split; [exact Hm2|].
      intros path. rewrite Hs2, Hs1, at_path_app, app_assoc. reflexivity.
Qed.

Lemma flattenObject_spec (obj : object) :
  forall (prefix : string) (m : metrics),
    no_inherited_path (object_leaves obj prefix) ->
    exists m',
      flattenObject obj m prefix = Ok m'
      /\ forall path,
          samples path m' = samples path m ++ at_path path (object_leaves obj prefix).
Proof.
  induction obj as [|[key v] rest IH]; intros prefix m Hsafe.
  - exists m. split; [reflexivity|]. intros path. simpl. rewrite app_nil_r. reflexivity.
  - simpl in Hsafe. apply no_inherited_path_app in Hsafe. destruct Hsafe as [Hhead Hrest].
    destruct (flatten_property_spec v (full_key prefix key) m Hhead) as (m1 & Hm1 & Hs1).
    destruct (IH prefix m1 Hrest) as (m2 & Hm2 & Hs2).
    exists m2. simpl. rewrite Hm1. simpl. split; [exact Hm2|].
    intros path. rewrite Hs2, Hs1, at_path_app, app_assoc. reflexivity.
Qed.

(** C9, as stated, fails: [Infinity] is a number and is not NaN, and
    the extractor appends it. *)
Lemma infinity_is_appended :
  flattenObject [("timing", VObj [("total", VNum Infinity)])] [] ""
  = Ok [("timing.total", [Infinity])]
  /\ is_finite Infinity = false.
Proof. split; reflexivity. Qed.

(** C9, as the code has it.  Over the iterations of a run, in order,
    the extractor appends to the sequence of each dot-joined path the
    leaves at that path that are numbers and are not NaN (the
    infinities included), in the order in which the records enumerate
    them, and changes nothing else; it returns as long as no such path
    is a property inherited from [Object.prototype]. *)
Theorem flattenAll_appends_in_order (iterations : list object) (m : metrics) :
  (forall it, In it iterations -> no_inherited_path (object_leaves it "")) ->
  exists m',
    flattenAll iterations m = Ok m'
    /\ forall path,
        samples path m'
        = samples path m
          ++ flat_map (fun it => at_path path (object_leaves it "")) iterations.
Proof.
  revert m. induction iterations as [|it rest IH]; intros m Hsafe.
  - exists m. split; [reflexivity|]. intros path. simpl. rewrite app_nil_r. reflexivity.
  - destruct (flattenObject_spec it "" m) as (m1 & Hm1 & Hs1).
    { apply Hsafe. left. reflexivity. }
    destruct (IH m1) as (m2 & Hm2 & Hs2).
    { intros it' Hin. apply Hsafe. right. exact Hin. }
    exists m2. simpl. rewrite Hm1. simpl. split; [exact Hm2|].
    intros path. rewrite Hs2, Hs1, app_assoc. reflexivity.
Qed.

(** A leaf named like a property of [Object.prototype] makes the
    extractor throw. *)
Example inherited_name_throws :
  flattenObject [("constructor", VNum (of_Z 1))] [] "" = TypeError.
Proof. reflexivity. Qed.

(** Two iterations, one of which lacks a metric and holds a NaN. *)
Definition two_iterations : list object :=
  [ [("iteration", VNum (of_Z 1));
     ("timing", VObj [("total", VNum (of_Z 369)); ("dns", VNum NaN)]);
     ("url", VStr "https://example.test/")];
    [("iteration", VNum (of_Z 2));
     ("timing", VObj [("total", VNum Infinity); ("dns", VNum (of_Z 12))])] ].

Lemma flattenAll_appends_in_order_witness :
  (forall it, In it two_iterations -> no_inherited_path (object_leaves it ""))
  /\ exists m',
      flattenAll two_iterations [] = Ok m'
      /\ forall path,
          samples path m'
          = samples path []
            ++ flat_map (fun it => at_path path (object_leaves it "")) two_iterations.
Proof.
  assert (H : forall it, In it two_iterations -> no_inherited_path (object_leaves it "")).
  { intros it Hin path v Hleaf.
    repeat (destruct Hin as [<-|Hin];
            [simpl in Hleaf;
             repeat (destruct Hleaf as [[= <- <-]|Hleaf]; [reflexivity|]);
             destruct Hleaf|]).
    destruct Hin. }
  split; [exact H|].
  exact (flattenAll_appends_in_order two_iterations [] H).
Defined.

End ExtractorFacts.

(** ** Binary64 arithmetic

    What the proofs below need of the binary64 operations: the order
    of numbers, the rounding of a fraction to nearest even, and with
    it the quotient, the difference and the product of two numbers. *)

Module Binary64.

(** *** Order

    The comparison of two numbers orders them by sign, then exponent,
    then mantissa: [key] maps a number that is not NaN to a triple of
    integers whose lexicographic order is the order of the numbers. *)
Definition key (x : number) : Z * Z * Z :=
  match x with
  | S754_nan => (0, 0, 0)
  | S754_infinity true => (-2, 0, 0)
  | S754_infinity false => (2, 0, 0)
  | S754_zero _ => (0, 0, 0)
  | S754_finite true m e => (-1, - e, Z.neg m)
  | S754_finite false m e => (1, e, Z.pos m)
  end.

Definition lex_le (a b : Z * Z * Z) : Prop :=
  let '(a1, a2, a3) := a in
  let '(b1, b2, b3) := b in
  a1 < b1 \/ (a1 = b1 /\ (a2 < b2 \/ (a2 = b2 /\ a3 <= b3))).

Definition lex_lt (a b : Z * Z * Z) : Prop :=
  let '(a1, a2, a3) := a in
  let '(b1, b2, b3) := b in
  a1 < b1 \/ (a1 = b1 /\ (a2 < b2 \/ (a2 = b2 /\ a3 < b3))).

Lemma compare_cont_Eq (p q : positive) : Pos.compare_cont Eq p q = (Z.pos p ?= Z.pos q).
Proof. reflexivity. Qed.

(** The cases of a comparison, against the order of the keys. *)
Ltac compare_by_key :=
  let finite_case ex ey mx my :=
    rewrite compare_cont_Eq;
    destruct (Z.compare_spec ex ey);
    destruct (Z.compare_spec (Z.pos mx) (Z.pos my)); simpl;
    split; try discriminate; try reflexivity; try lia in
  match goal with
  | |- forall x y : number, _ =>
      intros x y Hx Hy; unfold leb, ltb, SFleb, SFltb, SFcompare;
      destruct x as [sx|sx| |sx mx ex], y as [sy|sy| |sy my ey]; try discriminate;
      try (destruct sx); try (destruct sy); simpl;
      try (split; [intros _; lia | reflexivity]);
      try (split; [discriminate | lia]);
      finite_case ex ey mx my
  end.

Lemma leb_key :
  forall x y : number,
    isNaN x = false -> isNaN y = false ->
    (leb x y = true <-> lex_le (key x) (key y)).
Proof. compare_by_key. Qed.

Lemma ltb_key :
  forall x y : number,
    isNaN x = false -> isNaN y = false ->
    (ltb x y = true <-> lex_lt (key x) (key y)).
Proof. compare_by_key. Qed.

Lemma leb_not_nan (x y : number) : leb x y = true -> isNaN x = false /\ isNaN y = false.
Proof. destruct x, y; try discriminate; auto. Qed.

Lemma ltb_not_nan (x y : number) : ltb x y = true -> isNaN x = false /\ isNaN y = false.
Proof. destruct x, y; try discriminate; auto. Qed.

Lemma leb_trans (x y z : number) : leb x y = true -> leb y z = true -> leb x z = true.
Proof.
  intros H1 H2.
  destruct (leb_not_nan _ _ H1) as [Nx Ny]. destruct (leb_not_nan _ _ H2) as [_ Nz].
  rewrite leb_key in * by assumption.
  destruct (key x) as [[a1 a2] a3], (key y) as [[b1 b2] b3], (key z) as [[c1 c2] c3].
  cbn [lex_le] in *. lia.
Qed.

Lemma leb_ltb_trans (x y z : number) : leb x y = true -> ltb y z = true -> ltb x z = true.
Proof.
  intros H1 H2. destruct (leb_not_nan _ _ H1) as [Nx Ny]. destruct (ltb_not_nan _ _ H2) as [_ Nz].
  rewrite leb_key in H1 by assumption. rewrite ltb_key in * by assumption.
  destruct (key x) as [[a1 a2] a3], (key y) as [[b1 b2] b3], (key z) as [[c1 c2] c3].
  cbn [lex_le lex_lt] in *. lia.
Qed.

Lemma ltb_trans (x y z : number) : ltb x y = true -> ltb y z = true -> ltb x z = true.
Proof.
  intros H1 H2. destruct (ltb_not_nan _ _ H1) as [Nx Ny]. destruct (ltb_not_nan _ _ H2) as [_ Nz].
  rewrite ltb_key in * by assumption.
  destruct (key x) as [[a1 a2] a3], (key y) as [[b1 b2] b3], (key z) as [[c1 c2] c3].
  cbn [lex_lt] in *. lia.
Qed.

Lemma leb_total (x y : number) :
  isNaN x = false -> isNaN y = false -> leb x y = true \/ leb y x = true.
Proof.
  intros Nx Ny. rewrite !leb_key by assumption.
  destruct (key x) as [[a1 a2] a3], (key y) as [[b1 b2] b3]. cbn [lex_le]. lia.
Qed.

Lemma leb_refl (x : number) : isNaN x = false -> leb x x = true.
Proof. intros N. destruct (leb_total x x N N); assumption. Qed.


(** *** Digits of an integer *)

Abbreviation digits := Zdigits2.

Lemma digits2_size (p : positive) : digits2_pos p = Pos.size p.
Proof. induction p; simpl; congruence. Qed.

Lemma digits_pos_bounds (p : positive) :
  2 ^ (digits (Z.pos p) - 1) <= Z.pos p < 2 ^ digits (Z.pos p).
Proof.
  change (digits (Z.pos p)) with (Z.pos (digits2_pos p)). rewrite digits2_size.
  pose proof (Pos.size_gt p) as Hgt. pose proof (Pos.size_le p) as Hle.
  split.
  - assert (2 ^ Z.pos (Pos.size p) <= 2 * Z.pos p) as H.
    { change (2 * Z.pos p) with (Z.pos p~0). rewrite <- Pos2Z.inj_pow. apply Pos2Z.pos_le_pos. exact Hle. }
    replace (Z.pos (Pos.size p)) with (Z.succ (Z.pos (Pos.size p) - 1)) in H by lia.
    rewrite Z.pow_succ_r in H by lia. lia.
  - rewrite <- Pos2Z.inj_pow. apply Pos2Z.pos_lt_pos. exact Hgt.
Qed.

Lemma digits_nonneg (m : Z) : 0 <= digits m.
Proof. destruct m; simpl; lia. Qed.

Lemma digits_bounds (m : Z) : 0 < m -> 2 ^ (digits m - 1) <= m < 2 ^ digits m.
Proof. destruct m as [|p|p]; try lia. intros _. apply digits_pos_bounds. Qed.

Lemma digits_unique (m k : Z) : 2 ^ (k - 1) <= m < 2 ^ k -> 0 < m -> digits m = k.
Proof.
  intros [Hlo Hhi] Hm. pose proof (digits_bounds m Hm) as [Dlo Dhi].
  pose proof (digits_nonneg m).
  assert (0 <= k) as Hk.
  { destruct (Z.lt_ge_cases k 0) as [Hneg|]; [|assumption].
    rewrite (Z.pow_neg_r 2 k Hneg) in Hhi. lia. }
  destruct (Z.lt_trichotomy (digits m) k) as [Hlt|[Heq|Hgt]]; [|assumption|].
  - assert (2 ^ digits m <= 2 ^ (k - 1)) by (apply Z.pow_le_mono_r; lia). lia.
  - assert (2 ^ k <= 2 ^ (digits m - 1)) by (apply Z.pow_le_mono_r; lia). lia.
Qed.

Lemma digits_pos (m : Z) : 0 < m -> 0 < digits m.
Proof. destruct m; simpl; lia. Qed.

Lemma digits_le (m k : Z) : 0 <= k -> 0 <= m < 2 ^ k -> digits m <= k.
Proof.
  intros Hk [Hm Hlt]. destruct (Z.eq_dec m 0) as [->|Hne]; [simpl; lia|].
  pose proof (digits_bounds m ltac:(lia)) as [Dlo _].
  destruct (Z.le_gt_cases (digits m) k) as [|Hgt]; [assumption|].
  assert (2 ^ k <= 2 ^ (digits m - 1)) by (apply Z.pow_le_mono_r; lia). lia.
Qed.

Lemma digits_ge (m k : Z) : 2 ^ (k - 1) <= m -> 0 < m -> k <= digits m.
Proof.
  intros Hlo Hm. pose proof (digits_bounds m Hm) as [_ Dhi].
  pose proof (digits_pos m Hm).
  destruct (Z.le_gt_cases k (digits m)) as [|Hgt]; [assumption|].
  assert (2 ^ digits m <= 2 ^ (k - 1)) by (apply Z.pow_le_mono_r; lia). lia.
Qed.

Lemma digits_shiftr (m n : Z) : 0 < m -> 0 <= n -> n < digits m -> digits (m / 2 ^ n) = digits m - n.
Proof.
  intros Hm Hn Hlt. pose proof (digits_bounds m Hm) as [Dlo Dhi].
  assert (0 < 2 ^ n) by (apply Z.pow_pos_nonneg; lia).
  assert (2 ^ (digits m - 1) = 2 ^ (digits m - n - 1) * 2 ^ n) as E1.
  { rewrite <- Z.pow_add_r by lia. f_equal. lia. }
  assert (2 ^ digits m = 2 ^ (digits m - n) * 2 ^ n) as E2.
  { rewrite <- Z.pow_add_r by lia. f_equal. lia. }
  apply digits_unique.
  - split.
    + apply Z.div_le_lower_bound; lia.
    + apply Z.div_lt_upper_bound; lia.
  - apply Z.div_str_pos. split; [assumption|].
    assert (2 ^ n <= 2 ^ (digits m - 1)) by (apply Z.pow_le_mono_r; lia). lia.
Qed.

(** *** Shifting a mantissa to the right *)

(** The kernel's [shr] iterates [shr_1]; after [k+1] steps the record holds
    the quotient by [2^(k+1)], the last bit shifted out and whether anything
    below it was set. *)

Definition rne (N D : Z) : Z :=
  match 2 * (N mod D) ?= D with
  | Lt => N / D
  | Eq => if Z.even (N / D) then N / D else N / D + 1
  | Gt => N / D + 1
  end.

Definition loc_of (r d : Z) : location :=
  if r =? 0 then loc_Exact else loc_Inexact (2 * r ?= d).

Lemma new_location_loc_of (d r : Z) : 0 <= r < d -> new_location d r = loc_of r d.
Proof.
  intros Hr. unfold new_location, new_location_even, new_location_odd, loc_of.
  destruct (Z.even d) eqn:Hd; [reflexivity|].
  destruct (r =? 0); [reflexivity|]. f_equal.
  assert (Z.odd d = true) as Hodd by (rewrite <- Z.negb_even, Hd; reflexivity).
  apply Z.odd_spec in Hodd. destruct Hodd as [k Hk].
  destruct (Z.compare_spec (2 * r + 1) d); destruct (Z.compare_spec (2 * r) d);
    try reflexivity; lia.
Qed.

Lemma shr_1_spec (m : Z) (r s : bool) :
  0 <= m ->
  shr_1 {| shr_m := m; shr_r := r; shr_s := s |}
  = {| shr_m := m / 2; shr_r := Z.odd m; shr_s := r || s |}.
Proof.
  intros Hm. rewrite <- Z.div2_div.
  destruct m as [|[p|p|]|]; try reflexivity. lia.
Qed.

Lemma iter_pos_nat {A : Type} (f : A -> A) (p : positive) (x : A) :
  iter_pos f p x = Nat.iter (Pos.to_nat p) f x.
Proof.
  revert x. induction p as [p IH|p IH|]; intros x; cbn [iter_pos].
  - rewrite !IH, Pos2Nat.inj_xI.
    replace (S (2 * Pos.to_nat p)) with (Pos.to_nat p + S (Pos.to_nat p))%nat by lia.
    rewrite Nat.iter_add, Nat.iter_succ_r. reflexivity.
  - rewrite !IH, Pos2Nat.inj_xO.
    replace (2 * Pos.to_nat p)%nat with (Pos.to_nat p + Pos.to_nat p)%nat by lia.
    rewrite Nat.iter_add. reflexivity.
  - reflexivity.
Qed.

Lemma mod_pow2_succ (m k : Z) :
  0 <= k -> m mod 2 ^ (k + 1) = m mod 2 ^ k + 2 ^ k * ((m / 2 ^ k) mod 2).
Proof.
  intros Hk. rewrite Z.pow_add_r, Z.pow_1_r by lia.
  apply Z.rem_mul_r; [|lia].
  apply Z.pow_nonzero; lia.
Qed.

Lemma shr_iter (k : nat) (m : Z) (r s : bool) :
  0 <= m ->
  Nat.iter (S k) shr_1 {| shr_m := m; shr_r := r; shr_s := s |}
  = {| shr_m := m / 2 ^ Z.of_nat (S k);
       shr_r := Z.odd (m / 2 ^ Z.of_nat k);
       shr_s := negb (m mod 2 ^ Z.of_nat k =? 0) || (r || s) |}.
Proof.
  intros Hm. induction k as [|k IH].
  - change (Nat.iter 1 shr_1 ?x) with (shr_1 x). rewrite shr_1_spec by assumption.
    change (2 ^ Z.of_nat 1) with 2. change (2 ^ Z.of_nat 0) with 1.
    rewrite Z.div_1_r, Z.mod_1_r. reflexivity.
  - change (Nat.iter (S (S k)) shr_1 ?x) with (shr_1 (Nat.iter (S k) shr_1 x)).
    rewrite IH. 
    assert (0 < 2 ^ Z.of_nat (S k)) by (apply Z.pow_pos_nonneg; lia).
    assert (0 < 2 ^ Z.of_nat k) by (apply Z.pow_pos_nonneg; lia).
    rewrite shr_1_spec by (apply Z.div_pos; lia).
    f_equal.
    + rewrite Z.div_div by lia. f_equal.
      rewrite (Nat2Z.inj_succ (S k)), Z.pow_succ_r by lia. lia.
    + rewrite (Nat2Z.inj_succ k), <- Z.add_1_r, mod_pow2_succ by lia.
      pose proof (Z.mod_pos_bound m (2 ^ Z.of_nat k) ltac:(lia)).
      rewrite (Zodd_mod (m / 2 ^ Z.of_nat k)).
      pose proof (Z.mod_pos_bound (m / 2 ^ Z.of_nat k) 2 ltac:(lia)).
      destruct (Z.eqb_spec ((m / 2 ^ Z.of_nat k) mod 2) 1) as [E|E].
      * rewrite E. simpl.
        destruct (Z.eqb_spec (m mod 2 ^ Z.of_nat k + 2 ^ Z.of_nat k * 1) 0); [lia|].
        reflexivity.
      * assert ((m / 2 ^ Z.of_nat k) mod 2 = 0) as -> by lia.
        rewrite Z.mul_0_r, Z.add_0_r. simpl. reflexivity.
Qed.

(** *** Rounding a fraction to the nearest integer, ties to even *)

Lemma round_unshifted (N d : Z) :
  0 < d ->
  round_nearest_even (N / d) (loc_of (N mod d) d) = rne N d.
Proof.
  intros Hd. unfold loc_of, rne.
  destruct (Z.eqb_spec (N mod d) 0) as [E|E].
  - rewrite E. simpl. destruct d; try lia; reflexivity.
  - simpl. destruct (2 * (N mod d) ?= d); reflexivity.
Qed.

Lemma record_of_loc_of (m r d : Z) :
  exists r0 s0,
    shr_record_of_loc m (loc_of r d) = {| shr_m := m; shr_r := r0; shr_s := s0 |}
    /\ r0 || s0 = negb (r =? 0).
Proof.
  unfold loc_of. destruct (r =? 0).
  - exists false, false. split; reflexivity.
  - destruct (2 * r ?= d); simpl; eauto.
Qed.

Lemma round_shifted (N d : Z) (k : nat) :
  0 <= N -> 0 < d ->
  let rec := Nat.iter (S k) shr_1 (shr_record_of_loc (N / d) (loc_of (N mod d) d)) in
  round_nearest_even (shr_m rec) (loc_of_shr_record rec)
  = rne N (d * 2 ^ Z.of_nat (S k)).
Proof.
  intros HN Hd rec. subst rec.
  destruct (record_of_loc_of (N / d) (N mod d) d) as (r0 & s0 & -> & Hrs).
  rewrite shr_iter by (apply Z.div_pos; lia). rewrite Hrs.
  cbn [shr_m]. unfold rne.
  assert (0 < 2 ^ Z.of_nat k) as Hk by (apply Z.pow_pos_nonneg; lia).
  assert (2 ^ Z.of_nat (S k) = 2 ^ Z.of_nat k * 2) as Hpow.
  { rewrite Nat2Z.inj_succ, Z.pow_succ_r by lia. lia. }
  rewrite Hpow.
  rewrite <- (Z.div_div N d (2 ^ Z.of_nat k * 2)) by lia.
  rewrite (Z.rem_mul_r N d (2 ^ Z.of_nat k * 2)) by lia.
  rewrite (Z.rem_mul_r (N / d) (2 ^ Z.of_nat k) 2) by lia.
  set (m := N / d). set (rem := N mod d).
  set (lam := m mod 2 ^ Z.of_nat k). set (b := (m / 2 ^ Z.of_nat k) mod 2).
  assert (0 <= rem < d) as Hrem by (apply Z.mod_pos_bound; lia).
  assert (0 <= lam < 2 ^ Z.of_nat k) as Hlam by (apply Z.mod_pos_bound; lia).
  assert (0 <= b < 2) as Hb by (apply Z.mod_pos_bound; lia).
  assert (d * lam <= d * (2 ^ Z.of_nat k - 1)) as Hdl by (apply Z.mul_le_mono_nonneg_l; lia).
  assert (0 <= d * lam) as Hdl0 by (apply Z.mul_nonneg_nonneg; lia).
  assert (lam <> 0 -> 0 < d * lam) as Hdl1 by (intros; apply Z.mul_pos_pos; lia).
  pose proof (Zmod_odd (m / 2 ^ Z.of_nat k)) as Hodd. fold b in Hodd.
  set (D := d * (2 ^ Z.of_nat k * 2)).
  assert (2 * (rem + d * (lam + 2 ^ Z.of_nat k * b)) = 2 * rem + 2 * (d * lam) + D * b) as ->
    by (unfold D; ring).
  destruct (Z.odd (m / 2 ^ Z.of_nat k)); rewrite Hodd;
    destruct (Z.eqb_spec lam 0) as [El|El]; destruct (Z.eqb_spec rem 0) as [Er|Er];
    cbn [negb orb loc_of_shr_record round_nearest_even];
    destruct (Z.compare_spec (2 * rem + 2 * (d * lam) + D * 1) D);
    destruct (Z.compare_spec (2 * rem + 2 * (d * lam) + D * 0) D);
    try reflexivity; try (specialize (Hdl1 El)); unfold D in *; lia.
Qed.

(** *** Rounding a fraction to binary64 *)

(** [round_frac s X d e] is the binary64 number nearest to [X/d * 2^e]; it is
    what both the division and the normalisation of the kernel compute. *)

Abbreviation fexp := (SpecFloat.fexp prec emax).

Lemma fexp_spec (k : Z) : fexp k = Z.max (k - 53) (-1074).
Proof. reflexivity. Qed.

Definition round_frac (s : bool) (X d e : Z) : spec_float :=
  binary_round_aux prec emax s (X / d) e (loc_of (X mod d) d).

Definition shift_of (m e : Z) : Z := Z.max 0 (fexp (digits m + e) - e).

Definition fin (s : bool) (M E : Z) : spec_float :=
  if E <=? emax - prec then S754_finite s (Z.to_pos M) E else S754_infinity s.

Definition finish (s : bool) (M E : Z) : spec_float :=
  if M =? 0 then S754_zero s
  else if M =? 2 ^ prec then fin s (2 ^ (prec - 1)) (E + 1)
  else fin s M E.

Lemma rne_bounds (N D : Z) : N / D <= rne N D <= N / D + 1.
Proof.
  unfold rne. destruct (2 * (N mod D) ?= D); [destruct (Z.even (N / D))| |]; lia.
Qed.

Lemma shr_zero (E n : Z) :
  shr_m (fst (shr {| shr_m := 0; shr_r := false; shr_s := false |} E n)) = 0.
Proof.
  unfold shr. destruct n as [|p|p]; try reflexivity.
  cbn [fst]. rewrite iter_pos_nat.
  destruct (Pos2Nat.is_succ p) as [k ->].
  rewrite shr_iter by lia. reflexivity.
Qed.

Lemma shr_m_record_of_loc (m : Z) (l : location) : shr_m (shr_record_of_loc m l) = m.
Proof. destruct l as [|[]]; reflexivity. Qed.

Lemma loc_of_record_of_loc (m : Z) (l : location) :
  loc_of_shr_record (shr_record_of_loc m l) = l.
Proof. destruct l as [|[]]; reflexivity. Qed.

Lemma round_frac_rne (s : bool) (X d e : Z) :
  0 <= X -> 0 < d ->
  round_frac s X d e
  = (let '(mrs, e'') :=
       shr_fexp prec emax (rne X (d * 2 ^ shift_of (X / d) e)) (e + shift_of (X / d) e) loc_Exact in
     match shr_m mrs with
     | 0 => S754_zero s
     | Z.pos m => if e'' <=? emax - prec then S754_finite s m e'' else S754_infinity s
     | Z.neg _ => S754_nan
     end).
Proof.
  intros HX Hd. unfold round_frac, binary_round_aux, shift_of.
  unfold shr_fexp at 1. unfold shr at 1.
  destruct (fexp (digits (X / d) + e) - e) as [|p|p] eqn:Hn.
  - cbv beta iota. rewrite shr_m_record_of_loc, loc_of_record_of_loc.
    rewrite round_unshifted by assumption.
    change (Z.max 0 0) with 0. rewrite Z.pow_0_r, Z.mul_1_r, Z.add_0_r. reflexivity.
  - cbv beta iota. rewrite iter_pos_nat. destruct (Pos2Nat.is_succ p) as [k Hk]. rewrite Hk.
    rewrite round_shifted by assumption.
    replace (Z.max 0 (Z.pos p)) with (Z.pos p) by lia.
    replace (Z.of_nat (S k)) with (Z.pos p) by lia. reflexivity.
  - cbv beta iota. rewrite shr_m_record_of_loc, loc_of_record_of_loc.
    rewrite round_unshifted by assumption.
    replace (Z.max 0 (Z.neg p)) with 0 by lia.
    rewrite Z.pow_0_r, Z.mul_1_r, Z.add_0_r. reflexivity.
Qed.

Lemma pow2_pos (k : Z) : 0 <= k -> 0 < 2 ^ k.
Proof. intros. apply Z.pow_pos_nonneg; lia. Qed.

(** the mantissa after the shift has at most [prec] digits *)
Lemma shifted_small (m e : Z) :
  0 <= m -> m / 2 ^ shift_of m e < 2 ^ prec.
Proof.
  intros Hm. unfold shift_of. set (n := Z.max 0 _).
  assert (0 <= n) as Hn by (unfold n; lia).
  assert (digits m - prec <= n) as Hdn.
  { unfold n. rewrite fexp_spec. change prec with 53. lia. }
  pose proof (pow2_pos n Hn).
  destruct (Z.eq_dec m 0) as [->|Hm0]; [rewrite Z.div_0_l by lia; reflexivity|].
  pose proof (digits_bounds m ltac:(lia)) as [_ Hhi].
  apply Z.div_lt_upper_bound; [lia|].
  rewrite <- Z.pow_add_r by (change prec with 53; lia).
  apply Z.lt_le_trans with (1 := Hhi). apply Z.pow_le_mono_r; lia.
Qed.

Lemma shift_exponent_ge_emin (m e : Z) : -1074 <= e + shift_of m e.
Proof. unfold shift_of. rewrite fexp_spec. lia. Qed.

Lemma round_frac_finish (s : bool) (X d e : Z) :
  0 <= X -> 0 < d ->
  round_frac s X d e
  = finish s (rne X (d * 2 ^ shift_of (X / d) e)) (e + shift_of (X / d) e).
Proof.
  intros HX Hd. rewrite round_frac_rne by assumption.
  set (n := shift_of (X / d) e). set (E := e + n).
  assert (0 <= n) as Hn by (unfold n, shift_of; lia).
  pose proof (pow2_pos n Hn) as Hpn.
  pose proof (rne_bounds X (d * 2 ^ n)) as [Mlo Mhi].
  set (M := rne X (d * 2 ^ n)) in *.
  assert (X / (d * 2 ^ n) = X / d / 2 ^ n) as Hq by (rewrite Z.div_div by lia; reflexivity).
  assert (0 <= X / d) as Hm by (apply Z.div_pos; lia).
  pose proof (shifted_small (X / d) e Hm) as Hsmall. fold n in Hsmall.
  assert (0 <= X / d / 2 ^ n) as Hm1 by (apply Z.div_pos; lia).
  pose proof (shift_exponent_ge_emin (X / d) e) as HE. fold n in HE. fold E in HE.
  unfold finish, shr_fexp.
  destruct (Z.eqb_spec M 0) as [EM|EM].
  - rewrite EM. pose proof (shr_zero E (fexp (digits 0 + E) - E)) as Hz.
    change (shr_record_of_loc 0 loc_Exact) with {| shr_m := 0; shr_r := false; shr_s := false |}.
    destruct (shr _ E _) as [mrs e'']. cbn [fst] in Hz. rewrite Hz. reflexivity.
  - destruct (Z.eqb_spec M (2 ^ prec)) as [EP|EP].
    + rewrite EP.
      assert (digits (2 ^ prec) = prec + 1) as -> by reflexivity.
      rewrite fexp_spec. change prec with 53.
      replace (Z.max (53 + 1 + E - 53) (-1074) - E) with 1 by lia.
      unfold shr, fin. cbn [iter_pos shr_record_of_loc]. 
      change (shr_1 {| shr_m := 2 ^ 53; shr_r := false; shr_s := false |})
        with {| shr_m := 2 ^ 52; shr_r := false; shr_s := false |}.
      cbn [shr_m]. change (2 ^ 52) with (Z.pos (Z.to_pos (2 ^ 52))) at 1. 
      change (2 ^ (53 - 1)) with (2 ^ 52). reflexivity.
    + assert (0 < M < 2 ^ prec) as HM by lia.
      assert (digits M <= prec) as Hdig by (apply digits_le; [change prec with 53|]; lia).
      assert (fexp (digits M + E) - E <= 0) as Hns.
      { rewrite fexp_spec. change prec with 53 in *. lia. }
      unfold shr, fin.
      destruct (fexp (digits M + E) - E) as [|p|p]; try lia;
        destruct M as [|pm|pm]; try lia; reflexivity.
Qed.

(** *** Monotonicity of rounding *)

Lemma digits_mono (m1 m2 : Z) : 0 <= m1 <= m2 -> digits m1 <= digits m2.
Proof.
  intros [H1 H2]. destruct (Z.eq_dec m1 0) as [->|Hne]; [apply digits_nonneg|].
  apply digits_ge; [|lia].
  pose proof (digits_bounds m1 ltac:(lia)). lia.
Qed.

Lemma fexp_mono (a b : Z) : a <= b -> fexp a <= fexp b.
Proof. rewrite !fexp_spec. lia. Qed.

Lemma shift_of_mono (m1 m2 e : Z) : 0 <= m1 <= m2 -> shift_of m1 e <= shift_of m2 e.
Proof.
  intros H. unfold shift_of. pose proof (digits_mono m1 m2 H).
  pose proof (fexp_mono (digits m1 + e) (digits m2 + e) ltac:(lia)). lia.
Qed.

Lemma rne_mono (X1 X2 D : Z) : 0 < D -> X1 <= X2 -> rne X1 D <= rne X2 D.
Proof.
  intros HD HX.
  pose proof (Z.div_le_mono X1 X2 D HD HX) as Hq.
  pose proof (rne_bounds X1 D) as [_ H1]. pose proof (rne_bounds X2 D) as [H2 _].
  destruct (Z.eq_dec (X1 / D) (X2 / D)) as [E|E]; [|lia].
  pose proof (Z.div_mod X1 D ltac:(lia)) as D1. pose proof (Z.div_mod X2 D ltac:(lia)) as D2.
  assert (X1 mod D <= X2 mod D) as Hr by (rewrite E in D1; lia).
  unfold rne. rewrite E.
  destruct (Z.compare_spec (2 * (X1 mod D)) D); destruct (Z.compare_spec (2 * (X2 mod D)) D);
    destruct (Z.even (X2 / D)); lia.
Qed.

Lemma rne_scale (X D c : Z) : 0 < D -> 0 < c -> rne (X * c) (D * c) = rne X D.
Proof.
  intros HD Hc. unfold rne.
  rewrite Z.div_mul_cancel_r, Z.mul_mod_distr_r by lia.
  replace (2 * (X mod D * c)) with (2 * (X mod D) * c) by ring.
  rewrite <- Zmult_compare_compat_r by lia. reflexivity.
Qed.

Lemma rne_nonneg (X D : Z) : 0 <= X -> 0 < D -> 0 <= rne X D.
Proof.
  intros. pose proof (rne_bounds X D). pose proof (Z.div_pos X D ltac:(lia) ltac:(lia)). lia.
Qed.

(** finite results in order *)
Lemma fin_le (M1 E1 M2 E2 : Z) :
  0 < M1 -> 0 < M2 ->
  E1 < E2 \/ (E1 = E2 /\ M1 <= M2) ->
  leb (fin false M1 E1) (fin false M2 E2) = true.
Proof.
  intros H1 H2 H. unfold fin.
  destruct (Z.leb_spec E1 (emax - prec)); destruct (Z.leb_spec E2 (emax - prec));
    try reflexivity; try lia.
  apply leb_key; try reflexivity. simpl.
  rewrite !Z2Pos.id by lia. lia.
Qed.

Lemma finish_le (M1 E1 M2 E2 : Z) :
  0 <= M1 <= 2 ^ prec -> 0 <= M2 <= 2 ^ prec ->
  (E1 < E2 /\ 2 ^ (prec - 1) <= M2) \/ (E1 = E2 /\ M1 <= M2) ->
  leb (finish false M1 E1) (finish false M2 E2) = true.
Proof.
  intros H1 H2 H. unfold finish.
  change (2 ^ prec) with 9007199254740992 in *.
  change (2 ^ (prec - 1)) with 4503599627370496 in *.
  destruct (Z.eqb_spec M1 0) as [Z1|Z1].
  - destruct (Z.eqb_spec M2 0); [reflexivity|].
    destruct (Z.eqb_spec M2 9007199254740992); unfold fin;
      match goal with |- context [?a <=? ?b] => destruct (a <=? b) end; reflexivity.
  - destruct (Z.eqb_spec M2 0) as [Z2|Z2]; [lia|].
    destruct (Z.eqb_spec M1 9007199254740992); destruct (Z.eqb_spec M2 9007199254740992);
      apply fin_le; lia.
Qed.

(** rounding on a fixed grid is monotone *)
Lemma round_frac_mono (X1 X2 d e : Z) :
  0 <= X1 <= X2 -> 0 < d ->
  leb (round_frac false X1 d e) (round_frac false X2 d e) = true.
Proof.
  intros [H1 H12] Hd. rewrite !round_frac_finish by lia.
  assert (0 <= X1 / d <= X2 / d) as Hq.
  { split; [apply Z.div_pos; lia | apply Z.div_le_mono; lia]. }
  pose proof (shift_of_mono _ _ e Hq) as Hn.
  set (n1 := shift_of (X1 / d) e) in *. set (n2 := shift_of (X2 / d) e) in *.
  assert (0 <= n1) as Hn1 by (unfold n1, shift_of; lia).
  pose proof (pow2_pos n1 Hn1). pose proof (pow2_pos n2 ltac:(lia)).
  assert (forall X, 0 <= X -> 0 <= rne X (d * 2 ^ shift_of (X / d) e) <= 2 ^ prec) as Hb.
  { intros X HX.
    assert (0 <= shift_of (X / d) e) by (unfold shift_of; lia).
    pose proof (pow2_pos (shift_of (X / d) e) ltac:(lia)).
    split; [apply rne_nonneg; lia|].
    pose proof (rne_bounds X (d * 2 ^ shift_of (X / d) e)) as [_ Hhi].
    rewrite <- Z.div_div in Hhi by lia.
    pose proof (shifted_small (X / d) e ltac:(apply Z.div_pos; lia)). lia. }
  apply finish_le; [apply Hb; lia | apply Hb; lia |].
  fold n1 n2. destruct (Z.eq_dec n1 n2) as [E|E].
  - right. split; [lia|]. rewrite E. apply rne_mono; lia.
  - left. split; [lia|].
    assert (0 < n2) as Hpos by lia.
    assert (n2 = digits (X2 / d) - 53) as Hn2.
    { pose proof (shift_exponent_ge_emin (X1 / d) e) as HE1. fold n1 in HE1.
      assert (n2 = Z.max 0 (Z.max (digits (X2 / d) + e - 53) (-1074) - e)) as Hdef
        by reflexivity.
      lia. }
    pose proof (rne_bounds X2 (d * 2 ^ n2)) as [Hlo _].
    rewrite <- Z.div_div in Hlo by lia.
    assert (0 < X2 / d) as Hq2.
    { destruct (Z.eq_dec (X2 / d) 0) as [Z0|Z0]; [|lia]. rewrite Z0 in Hn2. simpl in Hn2. lia. }
    pose proof (digits_shiftr (X2 / d) n2 Hq2 ltac:(lia) ltac:(lia)) as Hds.
    assert (0 < X2 / d / 2 ^ n2) as Hq3.
    { apply Z.div_str_pos. split; [lia|].
      pose proof (digits_bounds (X2 / d) Hq2) as [Hlo' _].
      apply Z.le_trans with (2 := Hlo'). apply Z.pow_le_mono_r; lia. }
    pose proof (digits_bounds _ Hq3) as [Hlo3 _].
    rewrite Hds in Hlo3. replace (digits (X2 / d) - n2 - 1) with (prec - 1) in Hlo3
      by (change prec with 53; lia).
    lia.
Qed.

(** *** Division *)

Lemma digits_refine (X d j : Z) :
  0 < d -> 0 <= j -> 0 < X / d -> digits (X * 2 ^ j / d) = digits (X / d) + j.
Proof.
  intros Hd Hj Hq. pose proof (pow2_pos j Hj) as Hp.
  pose proof (digits_bounds (X / d) Hq) as [Hlo Hhi].
  pose proof (digits_pos (X / d) Hq) as Hdp.
  pose proof (Z.div_mod X d ltac:(lia)) as HX.
  pose proof (Z.mod_pos_bound X d Hd) as Hr.
  assert (X / d * 2 ^ j <= X * 2 ^ j / d) as H1.
  { apply Z.div_le_lower_bound; [lia|]. nia. }
  assert (X * 2 ^ j / d < (X / d + 1) * 2 ^ j) as H2.
  { apply Z.div_lt_upper_bound; [lia|]. nia. }
  apply digits_unique; [|nia].
  replace (digits (X / d) + j - 1) with (digits (X / d) - 1 + j) by lia.
  rewrite !Z.pow_add_r by lia. split; nia.
Qed.

(** a finer representation of the same fraction rounds the same way *)
Lemma round_frac_refine (s : bool) (X d e j : Z) :
  0 <= X -> 0 < d -> 0 <= j ->
  e <= fexp (digits (X / d) + e) ->
  round_frac s (X * 2 ^ j) d (e - j) = round_frac s X d e.
Proof.
  intros HX Hd Hj Hprecise. pose proof (pow2_pos j Hj) as Hp.
  rewrite !round_frac_finish by nia.
  assert (fexp (digits (X * 2 ^ j / d) + (e - j)) = fexp (digits (X / d) + e)) as Hf.
  { assert (0 <= X / d) as Hq by (apply Z.div_pos; lia).
    destruct (Z.eq_dec (X / d) 0) as [Z0|Z0].
    - rewrite Z0 in *. simpl (digits 0) in *. rewrite fexp_spec in Hprecise.
      assert (X < d) as Hlt.
      { pose proof (Z.div_mod X d ltac:(lia)). pose proof (Z.mod_pos_bound X d Hd). nia. }
      assert (0 <= X * 2 ^ j / d < 2 ^ j) as Hb.
      { split; [apply Z.div_pos; nia|]. apply Z.div_lt_upper_bound; nia. }
      pose proof (digits_le _ j Hj Hb). pose proof (digits_nonneg (X * 2 ^ j / d)).
      rewrite !fexp_spec. lia.
    - rewrite (digits_refine X d j) by lia. f_equal. lia. }
  assert (shift_of (X * 2 ^ j / d) (e - j) = shift_of (X / d) e + j) as Hn.
  { unfold shift_of. rewrite Hf. lia. }
  rewrite Hn. set (n := shift_of (X / d) e).
  assert (0 <= n) by (unfold n, shift_of; lia).
  replace (e - j + (n + j)) with (e + n) by lia.
  rewrite Z.pow_add_r, Z.mul_assoc by lia.
  rewrite rne_scale; [reflexivity| |lia].
  pose proof (pow2_pos n ltac:(lia)). nia.
Qed.

Lemma div_eucl_div_mod (a b : Z) : Z.div_eucl a b = (a / b, a mod b).
Proof. unfold Z.div, Z.modulo. destruct (Z.div_eucl a b). reflexivity. Qed.

(** the quotient of two finite numbers, as a rounded fraction *)
Definition div_exponent (ma : positive) (ea : Z) (md : positive) (ed : Z) : Z :=
  Z.min (fexp (digits (Z.pos ma) + ea - (digits (Z.pos md) + ed))) (ea - ed).

Lemma SFdiv_finite (sa : bool) (ma : positive) (ea : Z) (sd : bool) (md : positive) (ed : Z) :
  let e' := div_exponent ma ea md ed in
  SF64div (S754_finite sa ma ea) (S754_finite sd md ed)
  = round_frac (xorb sa sd) (Z.pos ma * 2 ^ (ea - ed - e')) (Z.pos md) e'.
Proof.
  intros e'. unfold SF64div, SFdiv, SFdiv_core_binary, round_frac.
  fold (div_exponent ma ea md ed). fold e'.
  assert (0 <= ea - ed - e') as Hs by (unfold e', div_exponent; lia).
  assert (match ea - ed - e' with
          | 0 => Z.pos ma
          | Z.pos _ => Z.shiftl (Z.pos ma) (ea - ed - e')
          | Z.neg _ => 0
          end = Z.pos ma * 2 ^ (ea - ed - e')) as ->.
  { remember (ea - ed - e') as sh eqn:E. clear E.
    destruct sh as [|p|p]; try lia.
    rewrite Z.shiftl_mul_pow2 by lia. reflexivity. }
  rewrite div_eucl_div_mod.
  rewrite new_location_loc_of by (apply Z.mod_pos_bound; lia).
  reflexivity.
Qed.

Lemma div_precise (ma : positive) (ea : Z) (md : positive) (ed : Z) :
  let e' := div_exponent ma ea md ed in
  e' <= fexp (digits (Z.pos ma * 2 ^ (ea - ed - e') / Z.pos md) + e').
Proof.
  intros e'.
  set (d1 := digits (Z.pos ma)). set (d2 := digits (Z.pos md)).
  set (k := d1 + ea - (d2 + ed)).
  assert (e' = Z.min (fexp k) (ea - ed)) as He' by reflexivity.
  set (s := ea - ed - e'). assert (0 <= s) as Hs by (unfold s; lia).
  pose proof (pow2_pos s Hs) as Hps.
  pose proof (digits_bounds (Z.pos ma) ltac:(lia)) as [Alo Ahi]. fold d1 in Alo, Ahi.
  pose proof (digits_bounds (Z.pos md) ltac:(lia)) as [Dlo Dhi]. fold d2 in Dlo, Dhi.
  pose proof (digits_pos (Z.pos ma) ltac:(lia)) as Hd1. fold d1 in Hd1.
  pose proof (digits_pos (Z.pos md) ltac:(lia)) as Hd2. fold d2 in Hd2.
  set (N := Z.pos ma * 2 ^ s).
  assert (2 ^ (d1 - 1 + s) <= N) as HN.
  { unfold N. rewrite Z.pow_add_r by lia. nia. }
  assert (0 <= N / Z.pos md) as Hq by (apply Z.div_pos; unfold N; nia).
  destruct (Z.eq_dec (N / Z.pos md) 0) as [Z0|Z0].
  - rewrite Z0. simpl (digits 0).
    assert (N < Z.pos md) as Hlt.
    { pose proof (Z.div_mod N (Z.pos md) ltac:(lia)).
      pose proof (Z.mod_pos_bound N (Z.pos md) ltac:(lia)). nia. }
    assert (d1 - 1 + s < d2) as Hlt2.
    { apply (Z.pow_lt_mono_r_iff 2); lia. }
    rewrite fexp_spec in *. lia.
  - assert (k - e' <= digits (N / Z.pos md)) as Hdig.
    { destruct (Z.le_gt_cases (k - e') 0) as [Hle|Hgt].
      - pose proof (digits_nonneg (N / Z.pos md)). lia.
      - apply digits_ge; [|lia].
        apply Z.div_le_lower_bound; [lia|].
        replace (k - e' - 1) with (d1 - 1 + s - d2) by (unfold k, s; lia).
        assert (2 ^ (d1 - 1 + s) = 2 ^ (d1 - 1 + s - d2) * 2 ^ d2) as E.
        { rewrite <- Z.pow_add_r by (unfold k, s in *; lia). f_equal. lia. }
        assert (0 < 2 ^ (d1 - 1 + s - d2)) by (apply pow2_pos; unfold k, s in *; lia).
        nia. }
    apply Z.le_trans with (fexp k); [lia|]. apply fexp_mono. lia.
Qed.

Lemma valid_finite (s : bool) (m : positive) (e : Z) :
  valid (S754_finite s m e) = true ->
  -1074 <= e <= 971 /\ digits (Z.pos m) <= 53 /\ (-1074 < e -> digits (Z.pos m) = 53).
Proof.
  unfold valid, valid_binary, bounded, canonical_mantissa. intros H.
  apply andb_true_iff in H. destruct H as [Hc He].
  apply Z.eqb_eq in Hc. apply Z.leb_le in He.
  change (Z.pos (digits2_pos m)) with (digits (Z.pos m)) in Hc.
  rewrite fexp_spec in Hc. change (emax - prec) with 971 in He. lia.
Qed.

Lemma pow2_split (a b : Z) : 0 <= a -> 0 <= b -> 2 ^ (a + b) = 2 ^ a * 2 ^ b.
Proof. intros. apply Z.pow_add_r; assumption. Qed.

(** the order of two positive finite numbers is the order of their values *)
Lemma finite_le_value (m1 : positive) (e1 : Z) (m2 : positive) (e2 : Z) :
  valid (S754_finite false m1 e1) = true ->
  valid (S754_finite false m2 e2) = true ->
  (leb (S754_finite false m1 e1) (S754_finite false m2 e2) = true
   <-> Z.pos m1 * 2 ^ (e1 + 1074) <= Z.pos m2 * 2 ^ (e2 + 1074)).
Proof.
  intros V1 V2.
  apply valid_finite in V1. destruct V1 as (He1 & Hd1 & Hn1).
  apply valid_finite in V2. destruct V2 as (He2 & Hd2 & Hn2).
  pose proof (digits_bounds (Z.pos m1) ltac:(lia)) as [L1 U1].
  pose proof (digits_bounds (Z.pos m2) ltac:(lia)) as [L2 U2].
  assert (Z.pos m1 < 2 ^ 53) as B1.
  { apply Z.lt_le_trans with (1 := U1). apply Z.pow_le_mono_r; lia. }
  assert (Z.pos m2 < 2 ^ 53) as B2.
  { apply Z.lt_le_trans with (1 := U2). apply Z.pow_le_mono_r; lia. }
  assert (-1074 < e1 -> 2 ^ 52 <= Z.pos m1) as N1.
  { intros H. rewrite (Hn1 H) in L1. exact L1. }
  assert (-1074 < e2 -> 2 ^ 52 <= Z.pos m2) as N2.
  { intros H. rewrite (Hn2 H) in L2. exact L2. }
  assert (forall ma ea mb eb,
             0 < ma -> ma < 2 ^ 53 -> -1074 <= ea -> ea < eb -> 2 ^ 52 <= mb ->
             ma * 2 ^ (ea + 1074) < mb * 2 ^ (eb + 1074)) as Hstrict.
  { intros ma ea mb eb Hma Hma' Hea Hlt Hmb.
    assert (2 ^ (eb + 1074) = 2 ^ (eb - ea - 1) * (2 * 2 ^ (ea + 1074))) as ->.
    { rewrite <- Z.pow_succ_r, <- Z.pow_add_r by lia. f_equal. lia. }
    pose proof (pow2_pos (eb - ea - 1) ltac:(lia)).
    pose proof (pow2_pos (ea + 1074) ltac:(lia)).
    set (P := 2 ^ (ea + 1074)) in *. set (Q := 2 ^ (eb - ea - 1)) in *.
    change (2 ^ 53) with (2 * 4503599627370496) in Hma'.
    change (2 ^ 52) with 4503599627370496 in Hmb.
    assert (ma * P < 2 * 4503599627370496 * P) by (apply Z.mul_lt_mono_pos_r; lia).
    assert (4503599627370496 * P <= mb * P) by (apply Z.mul_le_mono_nonneg_r; lia).
    assert (1 * (2 * (mb * P)) <= Q * (2 * (mb * P)))
      by (apply Z.mul_le_mono_nonneg_r; lia).
    lia. }
  rewrite leb_key by reflexivity. cbn [key lex_le].
  pose proof (pow2_pos (e1 + 1074) ltac:(lia)).
  pose proof (pow2_pos (e2 + 1074) ltac:(lia)).
  split.
  - intros [Hf|[_ [Hlt|[Heq Hm]]]]; [lia| |].
    + apply Z.lt_le_incl, Hstrict; try lia.
    + subst e2. apply Z.mul_le_mono_nonneg_r; lia.
  - intros Hv. right. split; [reflexivity|].
    destruct (Z.lt_trichotomy e1 e2) as [Hlt|[Heq|Hgt]]; [left; lia| |].
    + right. split; [assumption|]. subst e2.
      apply Z.mul_le_mono_pos_r in Hv; [exact Hv | lia].
    + exfalso. 
      assert (Z.pos m2 * 2 ^ (e2 + 1074) < Z.pos m1 * 2 ^ (e1 + 1074)); [|lia].
      apply Hstrict; lia.
Qed.

Lemma pow_rescale (m1 e1 m2 e2 c : Z) :
  -1074 <= e1 -> -1074 <= e2 -> c <= e1 -> c <= e2 ->
  m1 * 2 ^ (e1 + 1074) <= m2 * 2 ^ (e2 + 1074) ->
  m1 * 2 ^ (e1 - c) <= m2 * 2 ^ (e2 - c).
Proof.
  intros H1 H2 C1 C2 H.
  set (t := Z.min e1 e2).
  assert (forall e b, t <= e -> 0 <= t + b -> 2 ^ (e + b) = 2 ^ (e - t) * 2 ^ (t + b)) as Hsplit.
  { intros e b He Hb. rewrite <- Z.pow_add_r by lia. f_equal. lia. }
  rewrite (Hsplit e1 1074), (Hsplit e2 1074) in H by (unfold t; lia).
  replace (e1 - c) with (e1 + - c) by lia. replace (e2 - c) with (e2 + - c) by lia.
  rewrite (Hsplit e1 (- c)), (Hsplit e2 (- c)) by (unfold t; lia).
  pose proof (pow2_pos (t + 1074) ltac:(unfold t; lia)).
  pose proof (pow2_pos (t + - c) ltac:(unfold t; lia)).
  assert (m1 * 2 ^ (e1 - t) <= m2 * 2 ^ (e2 - t)) by nia.
  nia.
Qed.

(** division by a fixed positive number is monotone *)
Lemma SFdiv_mono (m1 : positive) (e1 : Z) (m2 : positive) (e2 : Z) (md : positive) (ed : Z) :
  valid (S754_finite false m1 e1) = true ->
  valid (S754_finite false m2 e2) = true ->
  leb (S754_finite false m1 e1) (S754_finite false m2 e2) = true ->
  leb (div (S754_finite false m1 e1) (S754_finite false md ed))
      (div (S754_finite false m2 e2) (S754_finite false md ed)) = true.
Proof.
  intros V1 V2 Hle. apply (finite_le_value m1 e1 m2 e2 V1 V2) in Hle.
  apply valid_finite in V1. destruct V1 as (He1 & _).
  apply valid_finite in V2. destruct V2 as (He2 & _).
  unfold div. rewrite !SFdiv_finite. cbn [xorb].
  pose proof (div_precise m1 e1 md ed) as P1. pose proof (div_precise m2 e2 md ed) as P2.
  cbv zeta in P1, P2.
  set (x1 := div_exponent m1 e1 md ed) in *. set (x2 := div_exponent m2 e2 md ed) in *.
  assert (x1 <= e1 - ed) as Hx1 by (unfold x1, div_exponent; lia).
  assert (x2 <= e2 - ed) as Hx2 by (unfold x2, div_exponent; lia).
  set (e0 := Z.min x1 x2).
  assert (forall m e x,
             x <= e - ed -> e0 <= x ->
             x <= fexp (digits (Z.pos m * 2 ^ (e - ed - x) / Z.pos md) + x) ->
             round_frac false (Z.pos m * 2 ^ (e - ed - x)) (Z.pos md) x
             = round_frac false (Z.pos m * 2 ^ (e - (ed + e0))) (Z.pos md) e0) as Hrefine.
  { intros m e x Hx H0 Hp.
    pose proof (pow2_pos (e - ed - x) ltac:(lia)).
    rewrite <- (round_frac_refine false (Z.pos m * 2 ^ (e - ed - x)) (Z.pos md) x (x - e0));
      [|nia|lia|lia|exact Hp].
    rewrite <- Z.mul_assoc, <- Z.pow_add_r by lia.
    f_equal; [f_equal; f_equal; lia | lia]. }
  rewrite (Hrefine m1 e1 x1), (Hrefine m2 e2 x2) by (assumption || (unfold e0; lia)).
  apply round_frac_mono; [|lia].
  split.
  - pose proof (pow2_pos (e1 - (ed + e0)) ltac:(unfold e0; lia)). nia.
  - apply pow_rescale; unfold e0; lia.
Qed.

(** *** Normalisation, validity and sign *)

Lemma valid_fin (s : bool) (M E : Z) :
  0 < M -> -1074 <= E -> digits M <= 53 -> (-1074 < E -> digits M = 53) ->
  valid (fin s M E) = true.
Proof.
  intros HM HE Hd Hn. unfold fin.
  destruct (Z.leb_spec E (emax - prec)) as [Hle|Hgt]; [|reflexivity].
  unfold valid, valid_binary, bounded, canonical_mantissa.
  apply andb_true_iff. split; [|apply Z.leb_le; exact Hle].
  apply Z.eqb_eq.
  change (Z.pos (digits2_pos (Z.to_pos M))) with (digits (Z.pos (Z.to_pos M))).
  rewrite Z2Pos.id by lia. rewrite fexp_spec. lia.
Qed.

(** rounding a fraction that is given with enough digits yields a number *)
Lemma round_frac_valid (s : bool) (X d e : Z) :
  0 <= X -> 0 < d -> e <= fexp (digits (X / d) + e) ->
  valid (round_frac s X d e) = true.
Proof.
  intros HX Hd Hp. rewrite round_frac_finish by assumption.
  set (m := X / d) in *. assert (0 <= m) as Hm by (apply Z.div_pos; lia).
  assert (shift_of m e = fexp (digits m + e) - e) as Hn by (unfold shift_of; lia).
  set (n := shift_of m e) in *. assert (0 <= n) as Hn0 by lia.
  pose proof (pow2_pos n Hn0) as Hpn.
  pose proof (rne_bounds X (d * 2 ^ n)) as [Mlo Mhi].
  rewrite <- Z.div_div in Mlo, Mhi by lia. fold m in Mlo, Mhi.
  set (M := rne X (d * 2 ^ n)) in *.
  pose proof (shifted_small m e Hm) as Hsmall. fold n in Hsmall.
  assert (0 <= m / 2 ^ n) as Hm1 by (apply Z.div_pos; lia).
  rewrite fexp_spec in Hn, Hp.
  change (2 ^ prec) with 9007199254740992 in *.
  clearbody M n m.
  unfold finish. change (2 ^ prec) with 9007199254740992. change (2 ^ (prec - 1)) with 4503599627370496.
  destruct (Z.eqb_spec M 0) as [Z0|Z0]; [reflexivity|].
  assert (-1074 < e + n -> 4503599627370496 <= m / 2 ^ n) as Hnormal.
  { intros Hgt. assert (n = digits m - 53) as En by lia.
    assert (0 < m) as Hmpos.
    { destruct (Z.eq_dec m 0) as [E0|E0]; [|lia]. rewrite E0 in *. simpl (digits 0) in *. lia. }
    destruct (Z.eq_dec n 0) as [N0|N0].
    - rewrite N0, Z.pow_0_r, Z.div_1_r.
      pose proof (digits_bounds m Hmpos) as [Hlo _].
      replace (digits m - 1) with 52 in Hlo by lia. exact Hlo.
    - pose proof (digits_pos m Hmpos).
      pose proof (digits_shiftr m n Hmpos ltac:(lia) ltac:(lia)) as Hds.
      assert (0 < m / 2 ^ n) as Hq.
      { apply Z.div_str_pos. split; [lia|].
        pose proof (digits_bounds m Hmpos) as [Hlo' _].
        apply Z.le_trans with (2 := Hlo'). apply Z.pow_le_mono_r; lia. }
      pose proof (digits_bounds _ Hq) as [Hlo _].
      rewrite Hds in Hlo. replace (digits m - n - 1) with 52 in Hlo by lia. exact Hlo. }
  destruct (Z.eqb_spec M 9007199254740992) as [EP|EP].
  - apply valid_fin; try reflexivity; try lia. 
  - assert (0 < M < 2 ^ 53) as HM by (change (2 ^ 53) with 9007199254740992; lia).
    pose proof (digits_le M 53 ltac:(lia) ltac:(lia)) as Hdig.
    apply valid_fin; try lia.
    intros Hgt. specialize (Hnormal Hgt).
    apply Z.le_antisymm; [assumption|].
    apply digits_ge; [|lia]. change (2 ^ (53 - 1)) with 4503599627370496. lia.
Qed.

Lemma iter_xO (m p : positive) : Z.pos (Pos.iter xO m p) = Z.pos m * 2 ^ Z.pos p.
Proof.
  induction p as [|p IH] using Pos.peano_ind.
  - reflexivity || (simpl; lia).
  - rewrite Pos.iter_succ, Pos2Z.inj_succ, Z.pow_succ_r by lia.
    rewrite Pos2Z.inj_xO, IH. ring.
Qed.

(** an integer at an exponent, as [binary_round] rounds it *)
Lemma shl_align_spec (m : positive) (e e' : Z) :
  snd (shl_align m e e') = Z.min e e'
  /\ Z.pos (fst (shl_align m e e')) = Z.pos m * 2 ^ (e - Z.min e e').
Proof.
  unfold shl_align. destruct (e' - e) as [|p|p] eqn:E; cbn [fst snd].
  - split; [lia|]. replace (e - Z.min e e') with 0 by lia. lia.
  - split; [lia|]. replace (e - Z.min e e') with 0 by lia. lia.
  - split; [lia|]. rewrite iter_xO. f_equal. f_equal. lia.
Qed.

Lemma round_exact (s : bool) (m e : Z) :
  binary_round_aux prec emax s m e loc_Exact = round_frac s m 1 e.
Proof. unfold round_frac. rewrite Z.div_1_r, Z.mod_1_r. reflexivity. Qed.

Lemma binary_round_frac (s : bool) (m : positive) (e : Z) :
  binary_round prec emax s m e
  = round_frac s (Z.pos m * 2 ^ (e - Z.min e (fexp (digits (Z.pos m) + e)))) 1
      (Z.min e (fexp (digits (Z.pos m) + e))).
Proof.
  unfold binary_round.
  pose proof (shl_align_spec m e (fexp (Z.pos (digits2_pos m) + e))) as [He Hm].
  change (Z.pos (digits2_pos m)) with (digits (Z.pos m)) in *.
  destruct (shl_align m e (fexp (digits (Z.pos m) + e))) as [mz ez]. cbn [fst snd] in *.
  rewrite round_exact, He, Hm. reflexivity.
Qed.

Lemma digits_mul_pow2 (m j : Z) : 0 < m -> 0 <= j -> digits (m * 2 ^ j) = digits m + j.
Proof.
  intros Hm Hj. pose proof (digits_refine m 1 j ltac:(lia) Hj) as H.
  rewrite !Z.div_1_r in H. apply H. exact Hm.
Qed.

Lemma binary_round_precise (m : positive) (e : Z) :
  let e' := Z.min e (fexp (digits (Z.pos m) + e)) in
  digits (Z.pos m * 2 ^ (e - e') / 1) + e' = digits (Z.pos m) + e.
Proof.
  intros e'. rewrite Z.div_1_r, digits_mul_pow2 by (unfold e'; lia). lia.
Qed.

Lemma binary_round_valid (s : bool) (m : positive) (e : Z) :
  valid (binary_round prec emax s m e) = true.
Proof.
  rewrite binary_round_frac. 
  pose proof (binary_round_precise m e) as Hp. cbv zeta in Hp.
  apply round_frac_valid; [|lia|].
  - pose proof (pow2_pos (e - Z.min e (fexp (digits (Z.pos m) + e))) ltac:(lia)). nia.
  - rewrite Hp. lia.
Qed.

Lemma binary_normalize_valid (z e : Z) (s : bool) :
  valid (binary_normalize prec emax z e s) = true.
Proof. destruct z; [reflexivity | apply binary_round_valid | apply binary_round_valid]. Qed.

(** above the least exponent an integer does not round to zero *)
Lemma binary_round_sign (s : bool) (m : positive) (e : Z) :
  -1074 <= e ->
  exists M E, binary_round prec emax s m e = fin s M E /\ 0 < M.
Proof.
  intros He. rewrite binary_round_frac.
  pose proof (binary_round_precise m e) as Hp. cbv zeta in Hp.
  set (e' := Z.min e (fexp (digits (Z.pos m) + e))) in *.
  set (X := Z.pos m * 2 ^ (e - e')) in *.
  assert (0 < X) as HX.
  { unfold X. pose proof (pow2_pos (e - e') ltac:(unfold e'; lia)). nia. }
  rewrite round_frac_finish by lia.
  set (n := shift_of (X / 1) e').
  assert (0 <= n) as Hn by (unfold n, shift_of; lia).
  pose proof (pow2_pos n Hn) as Hpn.
  pose proof (rne_bounds X (1 * 2 ^ n)) as [Mlo Mhi].
  assert (0 < X / (1 * 2 ^ n)) as Hq.
  { rewrite Z.mul_1_l. apply Z.div_str_pos. split; [lia|].
    destruct (Z.eq_dec n 0) as [->|N0]; [rewrite Z.pow_0_r; lia|].
    assert (n = fexp (digits (X / 1) + e') - e') as En by (unfold n, shift_of in *; lia).
    rewrite Hp, fexp_spec in En.
    assert (-1074 <= e') by (unfold e'; rewrite fexp_spec; lia).
    assert (n = digits X - 53) as En'.
    { rewrite Z.div_1_r in Hp. lia. }
    pose proof (digits_bounds X HX) as [Hlo _].
    apply Z.le_trans with (2 := Hlo). apply Z.pow_le_mono_r; lia. }
  set (M := rne X (1 * 2 ^ n)) in *.
  unfold finish. change (2 ^ prec) with 9007199254740992.
  destruct (Z.eqb_spec M 0); [lia|].
  destruct (Z.eqb_spec M 9007199254740992).
  - exists (2 ^ (prec - 1)), (e' + n + 1). split; reflexivity.
  - exists M, (e' + n). split; [reflexivity | lia].
Qed.

(** *** Subtraction *)

(** the value of a finite number, in units of the least positive number *)
Definition sval (x : number) : Z :=
  match x with
  | S754_finite s m e => cond_Zopp s (Z.pos m * 2 ^ (e + 1074))
  | _ => 0
  end.

Lemma leb_swap_negative (m1 : positive) (e1 : Z) (m2 : positive) (e2 : Z) :
  leb (S754_finite true m1 e1) (S754_finite true m2 e2)
  = leb (S754_finite false m2 e2) (S754_finite false m1 e1).
Proof.
  apply eq_true_iff_eq. rewrite !leb_key by reflexivity. cbn [key lex_le]. lia.
Qed.

Lemma leb_sval (x y : number) :
  valid x = true -> valid y = true -> is_finite x = true -> is_finite y = true ->
  (leb x y = true <-> sval x <= sval y).
Proof.
  intros Vx Vy Fx Fy.
  destruct x as [sx|sx| |sx mx ex]; try discriminate;
    destruct y as [sy|sy| |sy my ey]; try discriminate; cbn [sval].
  - split; [lia | reflexivity].
  - pose proof (valid_finite _ _ _ Vy) as (He & _).
    pose proof (pow2_pos (ey + 1074) ltac:(lia)).
    destruct sy; cbn [cond_Zopp]; (split; [try discriminate; nia | try reflexivity; nia]).
  - pose proof (valid_finite _ _ _ Vx) as (He & _).
    pose proof (pow2_pos (ex + 1074) ltac:(lia)).
    destruct sx; cbn [cond_Zopp]; (split; [try discriminate; nia | try reflexivity; nia]).
  - pose proof (valid_finite _ _ _ Vx) as (Hex & _).
    pose proof (valid_finite _ _ _ Vy) as (Hey & _).
    pose proof (pow2_pos (ex + 1074) ltac:(lia)).
    pose proof (pow2_pos (ey + 1074) ltac:(lia)).
    destruct sx, sy; cbn [cond_Zopp].
    + rewrite leb_swap_negative.
      rewrite (finite_le_value my ey mx ex) by assumption. lia.
    + split; [nia | reflexivity].
    + split; [discriminate | nia].
    + apply finite_le_value; assumption.
Qed.

Lemma fin_le_zero (s : bool) (M E : Z) : leb (fin s M E) zero = s.
Proof. unfold fin. destruct (E <=? emax - prec); destruct s; reflexivity. Qed.

Lemma fin_not_nan (s : bool) (M E : Z) : isNaN (fin s M E) = false.
Proof. unfold fin. destruct (E <=? emax - prec); reflexivity. Qed.

(** the sign of a difference of finite numbers is the order of the numbers *)
Lemma sub_sign (x y : number) :
  valid x = true -> valid y = true -> is_finite x = true -> is_finite y = true ->
  isNaN (sub x y) = false /\ leb (sub x y) zero = leb x y.
Proof.
  intros Vx Vy Fx Fy.
  destruct x as [sx|sx| |sx mx ex]; try discriminate;
    destruct y as [sy|sy| |sy my ey]; try discriminate.
  - destruct sx, sy; split; reflexivity.
  - destruct sx, sy; split; reflexivity.
  - destruct sx, sy; split; reflexivity.
  - pose proof (leb_sval _ _ Vx Vy Fx Fy) as Hord. cbn [sval] in Hord.
    pose proof (valid_finite _ _ _ Vx) as (Hex & _).
    pose proof (valid_finite _ _ _ Vy) as (Hey & _).
    unfold sub, SF64sub, SFsub.
    set (ez := Z.min ex ey).
    pose proof (shl_align_spec mx ex ez) as [_ Hmx].
    pose proof (shl_align_spec my ey ez) as [_ Hmy].
    rewrite Hmx, Hmy.
    replace (Z.min ex ez) with ez by (unfold ez; lia).
    replace (Z.min ey ez) with ez by (unfold ez; lia).
    set (z := cond_Zopp sx (Z.pos mx * 2 ^ (ex - ez)) - cond_Zopp sy (Z.pos my * 2 ^ (ey - ez))).
    assert (cond_Zopp sx (Z.pos mx * 2 ^ (ex + 1074))
            - cond_Zopp sy (Z.pos my * 2 ^ (ey + 1074)) = z * 2 ^ (ez + 1074)) as Hz.
    { unfold z.
      replace (ex + 1074) with ((ex - ez) + (ez + 1074)) by lia.
      replace (ey + 1074) with ((ey - ez) + (ez + 1074)) by lia.
      rewrite (Z.pow_add_r 2 (ex - ez)), (Z.pow_add_r 2 (ey - ez)) by (unfold ez; lia).
      unfold cond_Zopp. destruct sx, sy; ring. }
    pose proof (pow2_pos (ez + 1074) ltac:(unfold ez; lia)) as Hp.
    clearbody z.
    destruct z as [|p|p]; cbn [binary_normalize].
    + split; [reflexivity|]. symmetry. apply Hord. lia.
    + destruct (binary_round_sign false p ez ltac:(unfold ez; lia)) as (M & E & -> & HM).
      rewrite fin_le_zero, fin_not_nan. split; [reflexivity|].
      symmetry. apply not_true_is_false. intros Hle. apply Hord in Hle. nia.
    + destruct (binary_round_sign true p ez ltac:(unfold ez; lia)) as (M & E & -> & HM).
      rewrite fin_le_zero, fin_not_nan. split; [reflexivity|].
      symmetry. apply Hord. nia.
Qed.

Lemma sub_valid (x y : number) :
  valid x = true -> valid y = true -> valid (sub x y) = true.
Proof.
  intros Vx Vy.
  destruct x as [sx|sx| |sx mx ex], y as [sy|sy| |sy my ey];
    try reflexivity; try (destruct sx, sy; reflexivity); try assumption.
  apply binary_normalize_valid.
Qed.

(** *** Integers and products *)

Lemma rne_exact (X : Z) : rne X 1 = X.
Proof. unfold rne. rewrite Z.mod_1_r, Z.div_1_r. reflexivity. Qed.

(** an integer below 2^53 is a number *)
Lemma of_Z_small (z : Z) :
  0 < z < 2 ^ 53 ->
  of_Z z = S754_finite false (Z.to_pos (z * 2 ^ (53 - digits z))) (digits z - 53).
Proof.
  intros [Hz Hlt]. destruct z as [|p|p]; try lia.
  unfold of_Z. cbn [binary_normalize]. rewrite binary_round_frac.
  pose proof (digits_pos (Z.pos p) Hz) as Hd1.
  pose proof (digits_le (Z.pos p) 53 ltac:(lia) ltac:(lia)) as Hd2.
  set (dz := digits (Z.pos p)) in *.
  assert (Z.min 0 (fexp (dz + 0)) = dz - 53) as -> by (rewrite fexp_spec; lia).
  replace (0 - (dz - 53)) with (53 - dz) by lia.
  set (X := Z.pos p * 2 ^ (53 - dz)).
  assert (digits X = 53) as HdX.
  { unfold X. rewrite digits_mul_pow2 by lia. fold dz. lia. }
  assert (0 < X) as HX by (unfold X; pose proof (pow2_pos (53 - dz) ltac:(lia)); nia).
  rewrite round_frac_finish by lia.
  assert (shift_of (X / 1) (dz - 53) = 0) as ->.
  { unfold shift_of. rewrite Z.div_1_r, HdX, fexp_spec. lia. }
  rewrite Z.pow_0_r, Z.mul_1_r, rne_exact, Z.add_0_r.
  pose proof (digits_bounds X HX) as [_ Hhi]. rewrite HdX in Hhi.
  unfold finish, fin. change (2 ^ prec) with (2 ^ 53).
  destruct (Z.eqb_spec X 0); [lia|]. destruct (Z.eqb_spec X (2 ^ 53)); [lia|].
  destruct (Z.leb_spec (dz - 53) (emax - prec)) as [_|H]; [reflexivity|].
  change (emax - prec) with 971 in H. lia.
Qed.

Lemma to_integer_of_Z (z : Z) : 0 <= z < 2 ^ 53 -> to_integer (of_Z z) = Some z.
Proof.
  intros [Hz Hlt]. destruct (Z.eq_dec z 0) as [->|Hne]; [reflexivity|].
  rewrite of_Z_small by lia.
  pose proof (digits_pos z ltac:(lia)) as Hd1.
  pose proof (digits_le z 53 ltac:(lia) ltac:(lia)) as Hd2.
  set (a := 53 - digits z). replace (digits z - 53) with (- a) by (unfold a; lia).
  assert (0 <= a) as Ha by (unfold a; lia).
  pose proof (pow2_pos a Ha) as Hp.
  unfold to_integer. rewrite Z2Pos.id by nia.
  destruct (Z.leb_spec 0 (- a)) as [H0|H0].
  - assert (a = 0) as -> by lia. simpl. f_equal. lia.
  - rewrite Z.opp_involutive, Z.mod_mul, Z.eqb_refl, Z.div_mul by lia. reflexivity.
Qed.

Lemma mul_finite (mx : positive) (ex : Z) (my : positive) (ey : Z) :
  mul (S754_finite false mx ex) (S754_finite false my ey)
  = round_frac false (Z.pos mx * Z.pos my) 1 (ex + ey).
Proof. unfold mul, SF64mul, SFmul. cbn [xorb]. rewrite round_exact. reflexivity. Qed.

(** Rounding to the nearest reaches a multiple that is less than half a
    step above. *)
Lemma rne_ge (N D K : Z) : 0 < D -> 2 * (K * D) < 2 * N + D -> K <= rne N D.
Proof.
  intros HD H. unfold rne.
  pose proof (Z.div_mod N D ltac:(lia)) as HN.
  pose proof (Z.mod_pos_bound N D HD) as Hr.
  set (q := N / D) in *. set (r := N mod D) in *. clearbody q r.
  assert (K <= q + 1) as Hq by nia.
  destruct (Z.compare_spec (2 * r) D) as [E|E|E].
  - destruct (Z.even q); nia.
  - nia.
  - lia.
Qed.

(** [Math.floor(len * q)] for a length below [2^32] and a factor
    [q = mq * 2^-53] of [[1/2, 1)]: the product is rounded to 53 bits, and its
    integer part is read off the rounded mantissa. *)
Lemma floor_product (len : Z) (mq : positive) :
  1 <= len < 2 ^ 32 -> 2 ^ 52 <= Z.pos mq < 2 ^ 53 ->
  exists a n : Z,
    21 <= a <= 52 /\ 52 <= n <= 53
    /\ 2 ^ 52 <= len * 2 ^ a < 2 ^ 53
    /\ 2 ^ (n + 52) <= len * 2 ^ a * Z.pos mq < 2 ^ (n + 53)
    /\ to_integer (Math_floor (mul (of_Z len) (S754_finite false mq (-53))))
       = Some (rne (len * 2 ^ a * Z.pos mq) (2 ^ n) * 2 ^ n / 2 ^ (a + 53)).
Proof.
  intros [Hlen Hlen32] [Hq Hq'].
  rewrite of_Z_small by (split; [lia|]; apply Z.lt_trans with (1 := Hlen32); reflexivity).
  pose proof (digits_pos len ltac:(lia)) as Hd1.
  pose proof (digits_le len 32 ltac:(lia) ltac:(lia)) as Hd2.
  pose proof (digits_bounds len ltac:(lia)) as [Llo Lhi].
  set (dl := digits len) in *.
  set (a := 53 - dl). assert (21 <= a <= 52) as Ha by (unfold a; lia).
  replace (dl - 53) with (- a) by (unfold a; lia).
  pose proof (pow2_pos a ltac:(lia)) as Hpa.
  rewrite mul_finite, Z2Pos.id by nia.
  set (N := len * 2 ^ a * Z.pos mq).
  assert (2 ^ 52 <= len * 2 ^ a < 2 ^ 53) as HL.
  { assert (2 ^ 52 = 2 ^ (dl - 1) * 2 ^ a) as ->
      by (rewrite <- Z.pow_add_r by lia; f_equal; unfold a; lia).
    assert (2 ^ 53 = 2 ^ dl * 2 ^ a) as ->
      by (rewrite <- Z.pow_add_r by lia; f_equal; unfold a; lia).
    nia. }
  assert (2 ^ 104 <= N < 2 ^ 106) as HN.
  { unfold N. change (2 ^ 104) with (2 ^ 52 * 2 ^ 52). change (2 ^ 106) with (2 ^ 53 * 2 ^ 53).
    split; [apply Z.mul_le_mono_nonneg; lia | apply Z.mul_lt_mono_nonneg; lia]. }
  assert (0 < N) as HNpos by (change (2 ^ 104) with 20282409603651670423947251286016 in HN; lia).
  assert (105 <= digits N <= 106) as HdN.
  { split; [apply digits_ge; [apply HN | lia] | apply digits_le; lia]. }
  rewrite round_frac_finish by lia.
  rewrite Z.div_1_r, Z.mul_1_l.
  assert (shift_of N (- a + -53) = digits N - 53) as Hn.
  { unfold shift_of. rewrite fexp_spec. lia. }
  rewrite Hn. set (n := digits N - 53) in *. assert (52 <= n <= 53) as Hn' by (unfold n; lia).
  pose proof (pow2_pos n ltac:(lia)) as Hpn.
  pose proof (rne_bounds N (2 ^ n)) as [Mlo Mhi].
  set (M := rne N (2 ^ n)) in *.
  set (E := - a + -53 + n). assert (E <= -21) as HE by (unfold E; lia).
  assert (- E = a + 53 - n) as HnegE by (unfold E; lia).
  pose proof (digits_bounds N HNpos) as [HNlo HNhi].
  replace (digits N - 1) with (n + 52) in HNlo by (unfold n; lia).
  replace (digits N) with (n + 53) in HNhi by (unfold n; lia).
  assert (2 ^ 52 <= N / 2 ^ n) as Hm1.
  { apply Z.div_le_lower_bound; [lia|].
    apply Z.le_trans with (2 := HNlo).
    rewrite <- Z.pow_add_r by lia. apply Z.pow_le_mono_r; lia. }
  assert (N / 2 ^ n < 2 ^ 53) as Hm2.
  { apply Z.div_lt_upper_bound; [lia|].
    apply Z.lt_le_trans with (1 := HNhi).
    rewrite <- Z.pow_add_r by lia. apply Z.pow_le_mono_r; lia. }
  assert (2 ^ (a + 53) = 2 ^ (a + 53 - n) * 2 ^ n) as Hsplit.
  { rewrite <- Z.pow_add_r by lia. f_equal. lia. }
  pose proof (pow2_pos (a + 53 - n) ltac:(lia)) as Hpan.
  exists a, n. fold N. fold M. repeat split; try lia.
  assert (forall M' E', 0 < M' < 2 ^ 53 -> E' < 0 -> E' <= 971 ->
            to_integer (Math_floor (fin false M' E')) = Some (M' / 2 ^ (- E'))) as Hfloor.
  { intros M' E' HM' HE' HE''. unfold fin.
    destruct (Z.leb_spec E' (emax - prec)) as [_|H]; [|change (emax - prec) with 971 in H; lia].
    unfold Math_floor. destruct (Z.leb_spec 0 E'); [lia|].
    rewrite Z2Pos.id by lia.
    pose proof (pow2_pos (- E') ltac:(lia)).
    apply to_integer_of_Z. split; [apply Z.div_pos; lia|].
    apply Z.div_lt_upper_bound; [lia|]. nia. }
  assert (M * 2 ^ n / 2 ^ (a + 53) = M / 2 ^ (- E)) as ->.
  { rewrite HnegE, Hsplit, Z.div_mul_cancel_r by lia. reflexivity. }
  unfold finish. change (2 ^ prec) with (2 ^ 53). change (2 ^ (prec - 1)) with (2 ^ 52).
  destruct (Z.eqb_spec M 0); [lia|].
  destruct (Z.eqb_spec M (2 ^ 53)) as [EM|EM].
  - rewrite Hfloor by (try split; try reflexivity; lia).
    f_equal. rewrite EM. replace (- E) with (- (E + 1) + 1) by lia.
    rewrite Z.pow_add_r by lia. change (2 ^ 53) with (2 ^ 52 * 2 ^ 1).
    pose proof (pow2_pos (- (E + 1)) ltac:(lia)).
    rewrite Z.div_mul_cancel_r by lia. reflexivity.
  - rewrite Hfloor by lia. reflexivity.
Qed.

(** When the factor is the binary64 number nearest to [P / 100], the rounded
    product has the integer part of [len * P / 100]: where the factor is
    below [P / 100] and [len * P] is a multiple of 100, the product rounds up
    to that multiple. *)
Lemma floor_product_exact (len : Z) (mq : positive) (P c : Z) :
  1 <= len < 2 ^ 32 -> 2 ^ 52 <= Z.pos mq < 2 ^ 53 ->
  100 * Z.pos mq + c = P * 2 ^ 53 -> -100 <= c -> 2 * c < P ->
  to_integer (Math_floor (mul (of_Z len) (S754_finite false mq (-53))))
  = Some (len * P / 100).
Proof.
  intros Hlen Hmq Hc Hclo Hchi.
  destruct (floor_product len mq Hlen Hmq) as (a & n & Ha & Hn & HL & HN & ->). f_equal.
  pose proof (rne_bounds (len * 2 ^ a * Z.pos mq) (2 ^ n)) as [_ Mhi].
  pose proof (Z.div_mod (len * P) 100 ltac:(lia)) as HK.
  pose proof (Z.mod_pos_bound (len * P) 100 ltac:(lia)) as Hr.
  set (K := len * P / 100) in *. set (r := (len * P) mod 100) in *.
  assert (2 ^ (a + 53) = 2 ^ (a + 53 - n) * 2 ^ n) as Hsplit.
  { rewrite <- Z.pow_add_r by lia. f_equal. lia. }
  assert (2 ^ (a + 53) = 2 ^ a * 2 ^ 53) as HT by (apply Z.pow_add_r; lia).
  assert (2 ^ (n + 53) = 2 ^ n * 2 ^ 53) as HTn by (apply Z.pow_add_r; lia).
  assert (2 ^ 21 <= 2 ^ a) as Hpa by (apply Z.pow_le_mono_r; lia).
  assert (2 ^ n <= 2 ^ 53) as Hpn by (apply Z.pow_le_mono_r; lia).
  pose proof (pow2_pos n ltac:(lia)) as Hpn0.
  pose proof (pow2_pos (a + 53 - n) ltac:(lia)) as Hpan.
  assert (K * 2 ^ (a + 53 - n) <= rne (len * 2 ^ a * Z.pos mq) (2 ^ n)) as Mlo.
  { apply rne_ge; [assumption|].
    rewrite <- Z.mul_assoc, <- Hsplit, HT. rewrite HTn in HN.
    set (pa := 2 ^ a) in *. set (pn := 2 ^ n) in *. clearbody pa pn K r.
    change (2 ^ 53) with 9007199254740992 in *. change (2 ^ 52) with 4503599627370496 in *.
    change (2 ^ 21) with 2097152 in *. change (2 ^ 32) with 4294967296 in *.
    assert (100 * (len * pa * Z.pos mq)
            = (100 * K + r) * (pa * 9007199254740992) - len * pa * c) as E
      by (rewrite <- HK; replace (100 * (len * pa * Z.pos mq))
            with (len * pa * (100 * Z.pos mq)) by ring;
          replace (100 * Z.pos mq) with (P * 9007199254740992 - c) by lia; ring).
    assert (0 <= r * pa) as Hrpa by (apply Z.mul_nonneg_nonneg; lia).
    destruct (Z.le_gt_cases c 0) as [Hc0|Hc0].
    { assert (len * pa * c <= 0) by (apply Z.mul_nonneg_nonpos; lia). lia. }
    assert (len * pa * (2 * c * 9007199254740992) <= len * pa * (100 * Z.pos mq)) as Hsmall
      by (apply Z.mul_le_mono_nonneg_l; lia).
    destruct (Z.eq_dec r 0) as [Hr0|Hr0].
    - subst r. lia.
    - assert (1 * pa <= r * pa) by (apply Z.mul_le_mono_nonneg_r; lia).
      assert (len * pa * c <= len * pa * 50) by (apply Z.mul_le_mono_nonneg_l; lia).
      lia. }
  set (M := rne _ _) in *. clearbody M.
  symmetry. apply Z.div_unique with (r := M * 2 ^ n - K * 2 ^ (a + 53)).
  - left. split.
    + rewrite Hsplit.
      assert (K * 2 ^ (a + 53 - n) * 2 ^ n <= M * 2 ^ n)
        by (apply Z.mul_le_mono_nonneg_r; lia).
      lia.
    + pose proof (Z.mul_div_le (len * 2 ^ a * Z.pos mq) (2 ^ n) ltac:(lia)) as Hfl.
      rewrite HT in *.
      set (pa := 2 ^ a) in *. set (pn := 2 ^ n) in *.
      set (fl := len * pa * Z.pos mq / pn) in *. clearbody pa pn K r fl.
      change (2 ^ 53) with 9007199254740992 in *. change (2 ^ 52) with 4503599627370496 in *.
      change (2 ^ 21) with 2097152 in *. change (2 ^ 32) with 4294967296 in *.
      assert (100 * (len * pa * Z.pos mq)
              = (100 * K + r) * (pa * 9007199254740992) - len * pa * c) as E
        by (rewrite <- HK; replace (100 * (len * pa * Z.pos mq))
              with (len * pa * (100 * Z.pos mq)) by ring;
            replace (100 * Z.pos mq) with (P * 9007199254740992 - c) by lia; ring).
      assert (M * pn <= (fl + 1) * pn) by (apply Z.mul_le_mono_nonneg_r; lia).
      assert (len * pa * (-100) <= len * pa * c) by (apply Z.mul_le_mono_nonneg_l; lia).
      assert (r * pa <= 99 * pa) by (apply Z.mul_le_mono_nonneg_r; lia).
      lia.
  - ring.
Qed.

(** *** Absolute values and quotients *)

(** absolute values *)
Lemma abs_round_aux (s : bool) (m e : Z) (l : location) :
  SFabs (binary_round_aux prec emax s m e l) = binary_round_aux prec emax false m e l.
Proof.
  unfold binary_round_aux.
  destruct (shr_fexp prec emax m e l) as [mrs e'].
  destruct (shr_fexp prec emax _ e' loc_Exact) as [mrs' e''].
  destruct (shr_m mrs'); try reflexivity.
  destruct (e'' <=? emax - prec); reflexivity.
Qed.

Lemma abs_div (x y : number) : Math_abs (div x y) = div (Math_abs x) (Math_abs y).
Proof.
  unfold Math_abs, div, SF64div, SFdiv.
  destruct x as [sx|sx| |sx mx ex], y as [sy|sy| |sy my ey]; try reflexivity.
  cbn [SFabs xorb].
  destruct (SFdiv_core_binary prec emax (Z.pos mx) ex (Z.pos my) ey) as [[mz ez] lz].
  apply abs_round_aux.
Qed.

Lemma abs_valid (x : number) : valid x = true -> valid (Math_abs x) = true.
Proof. destruct x; auto. Qed.

(** a rounded non-negative fraction is zero, positive or [Infinity] *)
Lemma round_frac_shape (X d e : Z) :
  0 <= X -> 0 < d ->
  leb zero (round_frac false X d e) = true /\ leb (round_frac false X d e) Infinity = true.
Proof.
  intros HX Hd. rewrite round_frac_finish by assumption. unfold finish, fin.
  repeat match goal with |- context [if ?b then _ else _] => destruct b end; split; reflexivity.
Qed.

(** how two quotients by the same number compare: in order, or the
    larger one NaN, or the smaller one NaN and the larger one Infinity *)
Definition no_smaller (t t' : number) : Prop :=
  leb t t' = true \/ isNaN t' = true \/ (isNaN t = true /\ t' = Infinity).

Lemma abs_cases (x : number) :
  Math_abs x = S754_nan \/ Math_abs x = S754_zero false \/ Math_abs x = S754_infinity false
  \/ exists m e, Math_abs x = S754_finite false m e.
Proof. destruct x; cbn; eauto 6. Qed.

Lemma div_abs_mono (x x' D : number) :
  valid x = true -> valid x' = true ->
  leb (Math_abs x) (Math_abs x') = true ->
  no_smaller (Math_abs (div x D)) (Math_abs (div x' D)).
Proof.
  intros Vx Vx' Hle. rewrite !abs_div.
  apply abs_valid in Vx, Vx'. revert Vx Vx' Hle.
  destruct (abs_cases D) as [->|[->|[->|(md & ed & ->)]]];
    destruct (abs_cases x) as [->|[->|[->|(m & e & ->)]]];
    destruct (abs_cases x') as [->|[->|[->|(m' & e' & ->)]]];
    intros Vx Vx' Hle; try discriminate Hle;
    unfold no_smaller;
    try solve [left; reflexivity]; try solve [right; left; reflexivity];
    try solve [right; right; split; reflexivity];
    left.
  - unfold div. rewrite SFdiv_finite. cbn [xorb].
    apply round_frac_shape; [|lia].
    pose proof (pow2_pos (e' - ed - div_exponent m' e' md ed)
                  ltac:(unfold div_exponent; lia)). nia.
  - unfold div. rewrite SFdiv_finite. cbn [xorb].
    apply round_frac_shape; [|lia].
    pose proof (pow2_pos (e - ed - div_exponent m e md ed)
                  ltac:(unfold div_exponent; lia)). nia.
  - apply SFdiv_mono; assumption.
Qed.

End Binary64.

(** ** The descriptive statistics reducer *)

Module ReducerFacts.
Import Reducer Binary64.

(** *** The sorted copy *)

(** A finite number: a well-formed binary64 value other than NaN and the
    infinities. *)
Definition finite_number (x : number) : Prop := valid x = true /\ is_finite x = true.

(** The order [<=] of the language on numbers. *)
Definition le (a b : number) : Prop := leb a b = true.

Lemma finite_not_nan (x : number) : is_finite x = true -> isNaN x = false.
Proof. destruct x; auto; discriminate. Qed.

(** On finite numbers the comparator [(a, b) => a - b] decides [a <= b]:
    the difference of two finite numbers is never NaN, and its sign is the
    order of its operands. *)
Lemma sort_compare_le (x y : number) :
  finite_number x -> finite_number y -> leb (sort_compare x y) zero = leb x y.
Proof.
  intros [Vx Fx] [Vy Fy]. unfold sort_compare.
  destruct (sub_sign x y Vx Vy Fx Fy) as [Hn Hs]. rewrite Hn. exact Hs.
Qed.

Lemma insert_In (x : number) (l : list number) (z : number) :
  In z (insert x l) <-> z = x \/ In z l.
Proof.
  induction l as [|y l IH]; simpl.
  - intuition.
  - destruct (leb (sort_compare x y) zero); simpl; [intuition|]. rewrite IH. intuition.
Qed.

Lemma insert_length (x : number) (l : list number) :
  List.length (insert x l) = S (List.length l).
Proof.
  induction l as [|y l IH]; simpl; [reflexivity|].
  destruct (leb (sort_compare x y) zero); simpl; [reflexivity|]. rewrite IH. reflexivity.
Qed.

Lemma sort_length (l : list number) : List.length (sort l) = List.length l.
Proof. induction l as [|x l IH]; simpl; [reflexivity|]. rewrite insert_length, IH. reflexivity. Qed.

Lemma insert_perm (x : number) (l : list number) : Permutation (insert x l) (x :: l).
Proof.
  induction l as [|y l IH]; simpl; [reflexivity|].
  destruct (leb (sort_compare x y) zero); [reflexivity|].
  rewrite IH. apply perm_swap.
Qed.

Lemma sort_perm (l : list number) : Permutation (sort l) l.
Proof.
  induction l as [|x l IH]; simpl; [reflexivity|].
  rewrite insert_perm. apply perm_skip. exact IH.
Qed.

Lemma insert_sorted (x : number) (l : list number) :
  finite_number x -> Forall finite_number l ->
  StronglySorted le l -> StronglySorted le (insert x l).
Proof.
  intros Hx Hl Hs. induction Hs as [|y l Hs IH Hy]; simpl.
  - constructor; constructor.
  - inversion Hl as [|y' l' Fy Fl]; subst.
    rewrite sort_compare_le by assumption.
    destruct (leb x y) eqn:Hxy.
    + constructor; [constructor; assumption|].
      constructor; [exact Hxy|].
      apply Forall_forall. intros z Hz.
      apply (leb_trans x y z Hxy). rewrite Forall_forall in Hy. apply Hy. exact Hz.
    + constructor; [apply IH; assumption|].
      apply Forall_forall. intros z Hz. apply insert_In in Hz. destruct Hz as [->|Hz].
      * destruct (leb_total x y) as [H|H];
          [apply finite_not_nan, Hx | apply finite_not_nan, Fy | congruence | exact H].
      * rewrite Forall_forall in Hy. apply Hy. exact Hz.
Qed.

Lemma sort_finite (l : list number) : Forall finite_number l -> Forall finite_number (sort l).
Proof.
  intros H. apply Forall_forall. intros z Hz.
  rewrite Forall_forall in H. apply H.
  apply (Permutation_in z (sort_perm l)). exact Hz.
Qed.

Lemma sort_sorted (l : list number) :
  Forall finite_number l -> StronglySorted le (sort l).
Proof.
  induction l as [|x l IH]; intros H; simpl; [constructor|].
  inversion H; subst. apply insert_sorted; auto. apply sort_finite. assumption.
Qed.

Lemma sorted_nth (l : list number) (i j : nat) (a b : number) :
  StronglySorted le l -> Forall finite_number l -> (i <= j)%nat ->
  nth_error l i = Some a -> nth_error l j = Some b -> le a b.
Proof.
  intros Hs. revert i j. induction Hs as [|x l Hs IH Hx]; intros i j Hf Hij Ha Hb.
  - destruct i; discriminate.
  - inversion Hf as [|x' l' Fx Fl]; subst.
    destruct i as [|i], j as [|j]; simpl in *; try lia.
    + injection Ha as <-. injection Hb as <-. apply leb_refl, finite_not_nan, Fx.
    + injection Ha as <-. rewrite Forall_forall in Hx. apply Hx.
      apply nth_error_In with j. exact Hb.
    + apply (IH i j); auto. lia.
Qed.

(** *** The ranks of the percentiles *)

(** The four factors [0.75], [0.9], [0.95] and [0.99] as binary64 values. *)
Lemma factors :
  q75 = S754_finite false 6755399441055744 (-53)
  /\ q90 = S754_finite false 8106479329266893 (-53)
  /\ q95 = S754_finite false 8556839292003942 (-53)
  /\ q99 = S754_finite false 8917127262193582 (-53).
Proof. repeat split; reflexivity. Qed.

(** A constant mantissa of 53 bits. *)
Ltac normal_mantissa := split; [apply Z.leb_le | apply Z.ltb_lt]; reflexivity.

(** The index of the percentile [P]: the integer part of [len * P / 100]. *)
Definition index (len P : nat) : nat := (len * P / 100)%nat.

Lemma index_Z (len P : nat) : Z.of_nat (index len P) = Z.of_nat len * Z.of_nat P / 100.
Proof. unfold index. rewrite Nat2Z.inj_div, Nat2Z.inj_mul. reflexivity. Qed.

(** The ranks [Math.floor(len * q)], computed in binary64, are the integer
    parts of [len * 75 / 100], [len * 90 / 100], [len * 95 / 100] and
    [len * 99 / 100]. *)
Lemma rank_index (len : nat) :
  (1 <= len)%nat -> Z.of_nat len < 2 ^ 32 ->
  to_integer (rank len q75) = Some (Z.of_nat (index len 75))
  /\ to_integer (rank len q90) = Some (Z.of_nat (index len 90))
  /\ to_integer (rank len q95) = Some (Z.of_nat (index len 95))
  /\ to_integer (rank len q99) = Some (Z.of_nat (index len 99)).
Proof.
  intros Hlen H32. destruct factors as (-> & -> & -> & ->).
  unfold rank, of_nat. rewrite !index_Z.
  assert (1 <= Z.of_nat len < 2 ^ 32) as Hn by lia.
  repeat split.
  - apply (floor_product_exact _ _ 75 0 Hn); [normal_mantissa | reflexivity | lia | lia].
  - apply (floor_product_exact _ _ 90 (-20) Hn); [normal_mantissa | reflexivity | lia | lia].
  - apply (floor_product_exact _ _ 95 40 Hn); [normal_mantissa | reflexivity | lia | lia].
  - apply (floor_product_exact _ _ 99 8 Hn); [normal_mantissa | reflexivity | lia | lia].
Qed.

(** The indices increase with the percentile and stay below the length. *)
Lemma index_order (len : nat) :
  (1 <= len)%nat ->
  (index len 75 <= index len 90 <= index len 95)%nat
  /\ (index len 95 <= index len 99 < len)%nat.
Proof.
  intros Hlen. unfold index. repeat split.
  - apply Nat.Div0.div_le_mono. lia.
  - apply Nat.Div0.div_le_mono. lia.
  - apply Nat.Div0.div_le_mono. lia.
  - apply Nat.Div0.div_lt_upper_bound. lia.
Qed.

(** *** The record *)

Lemma array_get_index {A : Type} (arr : list A) (x : number) (i : nat) :
  to_integer x = Some (Z.of_nat i) -> array_get arr x = nth_error arr i.
Proof.
  intros H. unfold array_get. rewrite H.
  destruct (Z.leb_spec 0 (Z.of_nat i)); [|lia]. rewrite Nat2Z.id. reflexivity.
Qed.

Lemma nth_error_defined {A : Type} (l : list A) (i : nat) :
  (i < List.length l)%nat -> exists v, nth_error l i = Some v.
Proof.
  intros H. destruct (nth_error l i) as [v|] eqn:E; [eauto|].
  apply nth_error_None in E. lia.
Qed.

(** The record of a non-empty array, field by field: every read of the
    sorted array is at an index below its length. *)
Lemma statistics_fields (values : list number) :
  values <> [] -> Z.of_nat (List.length values) < 2 ^ 32 ->
  let sorted := sort values in
  let len := List.length values in
  exists st : statistics,
    calculateStatistics values = Some st
    /\ count st = of_nat len
    /\ min st = nth_error sorted 0
    /\ max st = nth_error sorted (len - 1)
    /\ p75 st = nth_error sorted (index len 75)
    /\ p90 st = nth_error sorted (index len 90)
    /\ p95 st = nth_error sorted (index len 95)
    /\ p99 st = nth_error sorted (index len 99)
    /\ (exists v, median st = Some v).
Proof.
  intros Hne H32 sorted len.
  assert (1 <= len)%nat as Hlen.
  { unfold len. destruct values; [congruence | simpl; lia]. }
  destruct (rank_index len Hlen H32) as (H75 & H90 & H95 & H99).
  assert (List.length sorted = len) as Hsl by apply sort_length.
  unfold calculateStatistics. destruct values as [|v0 values']; [congruence|].
  fold sorted. rewrite Hsl.
  eexists. split; [reflexivity|].
  cbn [count min max p75 p90 p95 p99 median].
  rewrite (array_get_index sorted _ _ H75), (array_get_index sorted _ _ H90),
    (array_get_index sorted _ _ H95), (array_get_index sorted _ _ H99).
  repeat split.
  destruct (Nat.even len); [eauto|].
  apply nth_error_defined. rewrite Hsl.
  apply Nat.div_lt; lia.
Qed.

(** C4.  For every non-empty array of finite numbers the reducer returns a
    record whose [count] is the length [n] of the array and whose
    percentiles are read from the array sorted in ascending order: [min] at
    index 0, [max] at index [n - 1] and the percentile [P] at the integer part
    of [n * P / 100], which is what [Math.floor(n * q)] evaluates to in
    binary64; so [min <= p75 <= p90 <= p95 <= p99 <= max].  The length of a
    JavaScript array is below [2^32]. *)
Theorem percentiles_are_ordered (values : list number) :
  values <> [] ->
  Forall finite_number values ->
  Z.of_nat (List.length values) < 2 ^ 32 ->
  let n := List.length values in
  exists (st : statistics) (lo a b c d hi : number),
    calculateStatistics values = Some st
    /\ count st = of_nat n
    /\ to_integer (count st) = Some (Z.of_nat n)
    /\ StronglySorted le (sort values) /\ Permutation (sort values) values
    /\ min st = Some lo /\ nth_error (sort values) 0 = Some lo
    /\ max st = Some hi /\ nth_error (sort values) (n - 1) = Some hi
    /\ p75 st = Some a /\ nth_error (sort values) (n * 75 / 100) = Some a
    /\ p90 st = Some b /\ nth_error (sort values) (n * 90 / 100) = Some b
    /\ p95 st = Some c /\ nth_error (sort values) (n * 95 / 100) = Some c
    /\ p99 st = Some d /\ nth_error (sort values) (n * 99 / 100) = Some d
    /\ le lo a /\ le a b /\ le b c /\ le c d /\ le d hi.
Proof.
  intros Hne Hfin H32 n.
  destruct (statistics_fields values Hne H32)
    as (st & Hst & Hcount & Hmin & Hmax & Hp75 & Hp90 & Hp95 & Hp99 & _).
  pose proof (sort_sorted values Hfin) as Hsorted.
  pose proof (sort_finite values Hfin) as Hsf.
  pose proof (sort_length values) as Hsl.
  assert (1 <= n)%nat as Hn.
  { unfold n. destruct values; [congruence | simpl; lia]. }
  destruct (index_order n Hn) as [Ho1 Ho2].
  fold n in Hsl, Hcount, Hmax, Hp75, Hp90, Hp95, Hp99, H32.
  change (n * 75 / 100)%nat with (index n 75). change (n * 90 / 100)%nat with (index n 90).
  change (n * 95 / 100)%nat with (index n 95). change (n * 99 / 100)%nat with (index n 99).
  set (sorted := sort values) in *.
  destruct (nth_error_defined sorted 0 ltac:(lia)) as [lo Hlo].
  destruct (nth_error_defined sorted (n - 1) ltac:(lia)) as [hi Hhi].
  destruct (nth_error_defined sorted (index n 75) ltac:(lia)) as [a Ha].
  destruct (nth_error_defined sorted (index n 90) ltac:(lia)) as [b Hb].
  destruct (nth_error_defined sorted (index n 95) ltac:(lia)) as [c Hc].
  destruct (nth_error_defined sorted (index n 99) ltac:(lia)) as [d Hd].
  exists st, lo, a, b, c, d, hi.
  rewrite Hmin, Hmax, Hp75, Hp90, Hp95, Hp99, Hcount.
  repeat split; try assumption; try reflexivity.
  - unfold of_nat. apply to_integer_of_Z. split; [lia|].
    apply Z.lt_trans with (1 := H32). reflexivity.
  - apply sort_perm.
  - apply (sorted_nth sorted 0 (index n 75)); auto; lia.
  - apply (sorted_nth sorted (index n 75) (index n 90)); auto; lia.
  - apply (sorted_nth sorted (index n 90) (index n 95)); auto; lia.
  - apply (sorted_nth sorted (index n 95) (index n 99)); auto; lia.
  - apply (sorted_nth sorted (index n 99) (n - 1)); auto; lia.
Qed.

(** Ten samples, out of order. *)
Definition ten_samples : list number :=
  map of_Z [5; 3; 9; 1; 7; 2; 8; 10; 4; 6].

Lemma ten_samples_finite : Forall finite_number ten_samples.
Proof. repeat constructor. Qed.

Lemma percentiles_are_ordered_witness :
  ten_samples <> []
  /\ Forall finite_number ten_samples
  /\ Z.of_nat (List.length ten_samples) < 2 ^ 32
  /\ exists (st : statistics) (lo a b c d hi : number),
      calculateStatistics ten_samples = Some st
      /\ count st = of_nat 10
      /\ to_integer (count st) = Some 10
      /\ StronglySorted le (sort ten_samples) /\ Permutation (sort ten_samples) ten_samples
      /\ min st = Some lo /\ nth_error (sort ten_samples) 0 = Some lo
      /\ max st = Some hi /\ nth_error (sort ten_samples) 9 = Some hi
      /\ p75 st = Some a /\ nth_error (sort ten_samples) 7 = Some a
      /\ p90 st = Some b /\ nth_error (sort ten_samples) 9 = Some b
      /\ p95 st = Some c /\ nth_error (sort ten_samples) 9 = Some c
      /\ p99 st = Some d /\ nth_error (sort ten_samples) 9 = Some d
      /\ le lo a /\ le a b /\ le b c /\ le c d /\ le d hi.
Proof.
  assert (H1 : ten_samples <> []) by discriminate.
  assert (H3 : Z.of_nat (List.length ten_samples) < 2 ^ 32) by reflexivity.
  repeat split; [exact H1 | exact ten_samples_finite | ].
  exact (percentiles_are_ordered ten_samples H1 ten_samples_finite H3).
Defined.

(** The percentiles of the ten samples, as the reducer computes them. *)
Example ten_samples_percentiles :
  option_map (fun st => (min st, p75 st, p90 st, p95 st, p99 st, max st))
    (calculateStatistics ten_samples)
  = Some (Some (of_Z 1), Some (of_Z 8), Some (of_Z 10), Some (of_Z 10),
          Some (of_Z 10), Some (of_Z 10)).
Proof. vm_compute. reflexivity. Qed.

(** Twenty samples: [20 * 0.95] is below 19 in the rationals, since the
    binary64 factor is below 95/100, and rounds to 19. *)
Example rank_of_twenty :
  mul (of_Z 20) q95 = of_Z 19 /\ to_integer (rank 20 q95) = Some 19.
Proof. split; vm_compute; reflexivity. Qed.

(** C10.  For every non-empty array of numbers, finite or not, each of the
    indices [Math.floor(n * q)] for [q] in 0.75, 0.9, 0.95, 0.99 is the
    integer part of [n * 75 / 100], [n * 90 / 100], [n * 95 / 100],
    [n * 99 / 100], which lies in [[0, n - 1]], and the reducer returns a
    record none of whose array reads ([min], [max], [median], [p75], [p90],
    [p95], [p99]) is [undefined]. *)
Theorem reducer_is_total (values : list number) :
  values <> [] ->
  Z.of_nat (List.length values) < 2 ^ 32 ->
  let n := Z.of_nat (List.length values) in
  (to_integer (rank (List.length values) q75) = Some (n * 75 / 100)
   /\ 0 <= n * 75 / 100 <= n - 1)
  /\ (to_integer (rank (List.length values) q90) = Some (n * 90 / 100)
      /\ 0 <= n * 90 / 100 <= n - 1)
  /\ (to_integer (rank (List.length values) q95) = Some (n * 95 / 100)
      /\ 0 <= n * 95 / 100 <= n - 1)
  /\ (to_integer (rank (List.length values) q99) = Some (n * 99 / 100)
      /\ 0 <= n * 99 / 100 <= n - 1)
  /\ exists st : statistics,
      calculateStatistics values = Some st
      /\ (exists v, min st = Some v) /\ (exists v, max st = Some v)
      /\ (exists v, median st = Some v)
      /\ (exists v, p75 st = Some v) /\ (exists v, p90 st = Some v)
      /\ (exists v, p95 st = Some v) /\ (exists v, p99 st = Some v).
Proof.
  intros Hne H32 n.
  destruct (statistics_fields values Hne H32)
    as (st & Hst & Hcount & Hmin & Hmax & Hp75 & Hp90 & Hp95 & Hp99 & Hmedian).
  pose proof (sort_length values) as Hsl.
  assert (1 <= List.length values)%nat as Hn.
  { destruct values; [congruence | simpl; lia]. }
  destruct (rank_index _ Hn H32) as (H75 & H90 & H95 & H99).
  destruct (index_order _ Hn) as [Ho1 Ho2].
  rewrite index_Z in H75, H90, H95, H99.
  pose proof (index_Z (List.length values) 75) as E75.
  pose proof (index_Z (List.length values) 90) as E90.
  pose proof (index_Z (List.length values) 95) as E95.
  pose proof (index_Z (List.length values) 99) as E99.
  fold n in H75, H90, H95, H99, E75, E90, E95, E99.
  change (Z.of_nat 75) with 75 in *. change (Z.of_nat 90) with 90 in *.
  change (Z.of_nat 95) with 95 in *. change (Z.of_nat 99) with 99 in *.
  repeat (split; [split; [assumption | lia] | ]).
  exists st. rewrite Hmin, Hmax, Hp75, Hp90, Hp95, Hp99.
  repeat split; try assumption;
    apply nth_error_defined; rewrite Hsl; lia.
Qed.

(** Three samples, one of them not a number. *)
Definition three_samples : list number := [of_Z 4; NaN; of_Z 2].

Lemma reducer_is_total_witness :
  three_samples <> []
  /\ Z.of_nat (List.length three_samples) < 2 ^ 32
  /\ (to_integer (rank 3 q75) = Some 2 /\ 0 <= 2 <= 2)
  /\ (to_integer (rank 3 q90) = Some 2 /\ 0 <= 2 <= 2)
  /\ (to_integer (rank 3 q95) = Some 2 /\ 0 <= 2 <= 2)
  /\ (to_integer (rank 3 q99) = Some 2 /\ 0 <= 2 <= 2)
  /\ exists st : statistics,
      calculateStatistics three_samples = Some st
      /\ (exists v, min st = Some v) /\ (exists v, max st = Some v)
      /\ (exists v, median st = Some v)
      /\ (exists v, p75 st = Some v) /\ (exists v, p90 st = Some v)
      /\ (exists v, p95 st = Some v) /\ (exists v, p99 st = Some v).
Proof.
  assert (H1 : three_samples <> []) by discriminate.
  assert (H2 : Z.of_nat (List.length three_samples) < 2 ^ 32) by reflexivity.
  split; [exact H1 | split; [exact H2 | ]].
  exact (reducer_is_total three_samples H1 H2).
Defined.

End ReducerFacts.

(** ** The two-sample comparator *)

Module SignificanceFacts.
Import Compare Binary64.

(** The rounded p-value of the lookup table is below the threshold [0.05]
    exactly when the degrees of freedom are not at most zero and [t] is not
    below 2. *)
Lemma significance_of_table (t df : number) :
  ltb (round_fixed 4 (calculatePValue t df)) significanceThreshold
  = negb (leb df zero) && negb (ltb t (of_Z 2)).
Proof.
  unfold calculatePValue. destruct (leb df zero); [reflexivity|].
  destruct (ltb t (of_Z 1)) eqn:H1.
  - rewrite (ltb_trans t (of_Z 1) (of_Z 2) H1 eq_refl). reflexivity.
  - destruct (ltb t (of_Z 2)); [reflexivity|].
    destruct (ltb t (of_Z 3)); [reflexivity|].
    destruct (ltb t (of_Z 4)); reflexivity.
Qed.

Lemma ltb_nan (c : number) : ltb NaN c = false.
Proof. reflexivity. Qed.

(** The lookup table does not increase with [|t|]. *)
Lemma pvalue_antitone (t t' df : number) :
  no_smaller t t' ->
  leb (round_fixed 4 (calculatePValue t' df)) (round_fixed 4 (calculatePValue t df)) = true.
Proof.
  intros H. unfold calculatePValue. destruct (leb df zero); [reflexivity|].
  destruct H as [Hle|[Hnan|[Hnan ->]]].
  - assert (forall c, ltb t' c = true -> ltb t c = true) as Hc
      by (intros c; apply leb_ltb_trans; exact Hle).
    destruct (ltb t' (of_Z 1)) eqn:H1; [rewrite (Hc _ H1); reflexivity|].
    destruct (ltb t' (of_Z 2)) eqn:H2;
      [rewrite (Hc _ H2); destruct (ltb t (of_Z 1)); reflexivity|].
    destruct (ltb t' (of_Z 3)) eqn:H3;
      [rewrite (Hc _ H3); destruct (ltb t (of_Z 1)); destruct (ltb t (of_Z 2)); reflexivity|].
    destruct (ltb t' (of_Z 4)) eqn:H4;
      [rewrite (Hc _ H4); destruct (ltb t (of_Z 1)); destruct (ltb t (of_Z 2));
       destruct (ltb t (of_Z 3)); reflexivity|].
    destruct (ltb t (of_Z 1)); destruct (ltb t (of_Z 2));
      destruct (ltb t (of_Z 3)); destruct (ltb t (of_Z 4)); reflexivity.
  - destruct t'; try discriminate. cbn [ltb SFltb SFcompare].
    destruct (ltb t (of_Z 1)); destruct (ltb t (of_Z 2));
      destruct (ltb t (of_Z 3)); destruct (ltb t (of_Z 4)); reflexivity.
  - destruct t; try discriminate. reflexivity.
Qed.

(** C6.  Two pairs of statistics records with the same standard deviations
    and the same counts: when [|mean1 - mean2|] of the second pair is at
    least that of the first, the p-value of the second pair is at most that
    of the first, and the second pair is significant whenever the first is.
    Nothing is asked of the standard deviations and the counts. *)
Theorem significance_is_monotone (b c b' c' : stats) :
  valid (mean b) = true -> valid (mean c) = true ->
  valid (mean b') = true -> valid (mean c') = true ->
  stddev b' = stddev b -> count b' = count b ->
  stddev c' = stddev c -> count c' = count c ->
  leb (Math_abs (sub (mean b) (mean c))) (Math_abs (sub (mean b') (mean c'))) = true ->
  leb (pValue (welchTTest b' c')) (pValue (welchTTest b c)) = true
  /\ (Significance.isSignificant (significance (performStatisticalTest b c)) = true ->
      Significance.isSignificant (significance (performStatisticalTest b' c')) = true).
Proof.
  intros Vb Vc Vb' Vc' Hsb Hnb Hsc Hnc Hle.
  unfold performStatisticalTest, welchTTest.
  cbn [significance Significance.isSignificant pValue].
  rewrite Hsb, Hnb, Hsc, Hnc.
  set (D := Math_sqrt (add (div (mul (stddev b) (stddev b)) (count b))
                           (div (mul (stddev c) (stddev c)) (count c)))).
  set (df := div (Math_pow2 _) _).
  pose proof (div_abs_mono (sub (mean b) (mean c)) (sub (mean b') (mean c')) D
                (sub_valid _ _ Vb Vc) (sub_valid _ _ Vb' Vc') Hle) as Hmono.
  split; [apply pvalue_antitone; exact Hmono|].
  rewrite !significance_of_table.
  destruct (leb df zero); cbn [negb andb]; [intros H; discriminate H|].
  intros Hsig. apply negb_true_iff in Hsig. apply negb_true_iff.
  destruct Hmono as [Hle'|[Hnan|[_ ->]]].
  - apply not_true_is_false. intros Hlt.
    rewrite (leb_ltb_trans _ _ _ Hle' Hlt) in Hsig. discriminate.
  - destruct (Math_abs (div (sub (mean b') (mean c')) D)); try discriminate. reflexivity.
  - reflexivity.
Qed.

(** A difference of five against a difference of thirty, with the same
    spread and the same counts. *)
Definition record (mean stddev count : Z) : stats :=
  {| mean := of_Z mean; stddev := of_Z stddev; count := of_Z count; cv := None |}.

Lemma significance_is_monotone_witness :
  leb (Math_abs (sub (mean (record 100 10 10)) (mean (record 120 10 10))))
      (Math_abs (sub (mean (record 100 10 10)) (mean (record 70 10 10)))) = true
  /\ leb (pValue (welchTTest (record 100 10 10) (record 70 10 10)))
         (pValue (welchTTest (record 100 10 10) (record 120 10 10))) = true
  /\ Significance.isSignificant
       (significance (performStatisticalTest (record 100 10 10) (record 120 10 10))) = true
  /\ Significance.isSignificant
       (significance (performStatisticalTest (record 100 10 10) (record 70 10 10))) = true.
Proof.
  assert (H : leb (Math_abs (sub (mean (record 100 10 10)) (mean (record 120 10 10))))
                  (Math_abs (sub (mean (record 100 10 10)) (mean (record 70 10 10)))) = true)
    by (vm_compute; reflexivity).
  destruct (significance_is_monotone
              (record 100 10 10) (record 120 10 10) (record 100 10 10) (record 70 10 10)
              eq_refl eq_refl eq_refl eq_refl eq_refl eq_refl eq_refl eq_refl H)
    as [Hp Hs].
  assert (H0 : Significance.isSignificant
                 (significance (performStatisticalTest (record 100 10 10) (record 120 10 10)))
               = true) by (vm_compute; reflexivity).
  exact (conj H (conj Hp (conj H0 (Hs H0)))).
Defined.

End SignificanceFacts.

(** ** The metric extractor as a fold *)

Module ExtractorLaws.
Import Extractor ExtractorFacts.

(** The pushes of a list of leaves, in order, until one throws. *)
Fixpoint push_all (leaves : list (string * number)) (m : metrics) : outcome metrics :=
  match leaves with
  | [] => Ok m
  | (path, v) :: rest => bind (push_sample path v m) (push_all rest)
  end.

Lemma push_all_app (l1 l2 : list (string * number)) (m : metrics) :
  push_all (l1 ++ l2) m = bind (push_all l1 m) (push_all l2).
Proof.
  revert m. induction l1 as [|[path v] rest IH]; intros m; simpl; [reflexivity|].
  destruct (push_sample path v m) as [m'|]; simpl; [apply IH | reflexivity].
Qed.

(** The extractor is the fold of the push over the leaves of the record. *)
Lemma flatten_property_push_all (v : value) :
  forall (fullKey : string) (m : metrics),
    flatten_property v fullKey m = push_all (property_leaves v fullKey) m.
Proof.
  induction v as [| |b|n|s|items|fields IH] using value_fields_ind;
    intros fullKey m; try reflexivity.
  - simpl. destruct (isNaN n); [reflexivity|]. simpl.
    destruct (push_sample fullKey n m); reflexivity.
  - simpl. revert m. induction IH as [|[key v'] rest Hv' _ IHrest]; intros m.
    + reflexivity.
    + rewrite push_all_app. simpl in Hv'. rewrite Hv'.
      destruct (push_all (property_leaves v' (full_key fullKey key)) m) as [m'|];
        simpl; [apply IHrest | reflexivity].
Qed.

Lemma flattenObject_push_all (obj : object) (prefix : string) (m : metrics) :
  flattenObject obj m prefix = push_all (object_leaves obj prefix) m.
Proof.
  revert m. induction obj as [|[key v] rest IH]; intros m; simpl; [reflexivity|].
  rewrite push_all_app, flatten_property_push_all.
  destruct (push_all (property_leaves v (full_key prefix key)) m) as [m'|];
    simpl; [apply IH | reflexivity].
Qed.

(** The leaves of a run: those of its iterations, in order. *)
Definition run_leaves (iterations : list object) : list (string * number) :=
  flat_map (fun it => object_leaves it "") iterations.

Lemma flattenAll_push_all (iterations : list object) (m : metrics) :
  flattenAll iterations m = push_all (run_leaves iterations) m.
Proof.
  revert m. induction iterations as [|it rest IH]; intros m; simpl; [reflexivity|].
  unfold run_leaves. simpl. rewrite push_all_app, flattenObject_push_all.
  destruct (push_all (object_leaves it "") m) as [m'|]; simpl; [apply IH | reflexivity].
Qed.

(** No leaf is NaN. *)
Lemma property_leaves_not_nan (v : value) :
  forall fullKey, Forall (fun kv => isNaN (snd kv) = false) (property_leaves v fullKey).
Proof.
  induction v as [| |b|n|s|items|fields IH] using value_fields_ind;
    intros fullKey; simpl; try constructor.
  - destruct (isNaN n) eqn:E; constructor; [exact E | constructor].
  - induction IH as [|[key v'] rest Hv' _ IHrest]; [constructor|].
    apply Forall_app. split; [apply Hv' | apply IHrest].
Qed.

Lemma object_leaves_not_nan (obj : object) (prefix : string) :
  Forall (fun kv => isNaN (snd kv) = false) (object_leaves obj prefix).
Proof.
  induction obj as [|[key v] rest IH]; simpl; [constructor|].
  apply Forall_app. split; [apply property_leaves_not_nan | exact IH].
Qed.

Lemma run_leaves_not_nan (iterations : list object) :
  Forall (fun kv => isNaN (snd kv) = false) (run_leaves iterations).
Proof.
  induction iterations as [|it rest IH]; simpl; [constructor|].
  apply Forall_app. split; [apply object_leaves_not_nan | exact IH].
Qed.

(** What the target of the extractor looks like at any time: the paths are
    distinct and none is inherited, and each array is non-empty and holds
    no NaN. *)
Definition tidy (m : metrics) : Prop :=
  NoDup (map fst m)
  /\ Forall (fun kv => inherited (fst kv) = false
                       /\ snd kv <> []
                       /\ Forall (fun v => isNaN v = false) (snd kv)) m.

Lemma lookup_None (key : string) (m : metrics) :
  lookup key m = None <-> ~ In key (map fst m).
Proof.
  induction m as [|[k arr] rest IH]; simpl; [tauto|].
  destruct (String.eqb_spec k key) as [->|Hne].
  - split; [discriminate | intros H; exfalso; apply H; left; reflexivity].
  - rewrite IH. tauto.
Qed.

Lemma push_at_keys (key : string) (v : number) (m : metrics) :
  map fst (push_at key v m) = map fst m.
Proof.
  induction m as [|[k arr] rest IH]; simpl; [reflexivity|].
  destruct (String.eqb k key); simpl; [reflexivity | rewrite IH; reflexivity].
Qed.

Lemma push_at_entries (key : string) (v : number) (m : metrics)
  (P : string * list number -> Prop) :
  (forall k arr, P (k, arr) -> P (k, arr ++ [v])) ->
  Forall P m -> Forall P (push_at key v m).
Proof.
  intros Hstep H. induction H as [|[k arr] rest Hkv Hrest IH]; simpl; [constructor|].
  destruct (String.eqb k key); constructor; auto.
Qed.

Lemma tidy_push_sample (key : string) (v : number) (m m' : metrics) :
  isNaN v = false -> tidy m -> push_sample key v m = Ok m' -> tidy m'.
Proof.
  intros Hv [Hnodup Hall]. unfold push_sample.
  destruct (lookup key m) as [arr|] eqn:Hl.
  - intros [= <-]. split; [rewrite push_at_keys; exact Hnodup|].
    apply push_at_entries; [|exact Hall].
    intros k a (Hi & Hne & Hnan). simpl. repeat split; [exact Hi | |].
    + destruct a; discriminate.
    + apply Forall_app. split; [exact Hnan | constructor; [exact Hv | constructor]].
  - destruct (inherited key) eqn:Hi; [discriminate|]. intros [= <-]. split.
    + rewrite map_app. simpl. apply NoDup_app; [exact Hnodup | repeat constructor; intros [] | ].
      intros x Hx [<-|[]]. apply lookup_None in Hl. contradiction.
    + apply Forall_app. split; [exact Hall|]. repeat constructor; [exact Hi | discriminate | exact Hv].
Qed.

Lemma tidy_push_all (leaves : list (string * number)) :
  Forall (fun kv => isNaN (snd kv) = false) leaves ->
  forall m m', tidy m -> push_all leaves m = Ok m' -> tidy m'.
Proof.
  induction 1 as [|[path v] rest Hv _ IH]; intros m m' Hm; simpl.
  - intros [= <-]. exact Hm.
  - destruct (push_sample path v m) as [m1|] eqn:H1; [|discriminate]. simpl.
    apply IH. exact (tidy_push_sample path v m m1 Hv Hm H1).
Qed.

Lemma tidy_empty : tidy [].
Proof. split; constructor. Qed.

(** A push throws exactly at an inherited path, the target being tidy. *)
Lemma push_all_throws (leaves : list (string * number)) :
  Forall (fun kv => isNaN (snd kv) = false) leaves ->
  forall m, tidy m ->
    (push_all leaves m = TypeError
     <-> exists path v, In (path, v) leaves /\ inherited path = true).
Proof.
  induction 1 as [|[path v] rest Hv _ IH]; intros m Hm; simpl.
  - split; [discriminate | intros (p & w & [] & _)].
  - destruct (push_sample path v m) as [m1|] eqn:H1; simpl.
    + rewrite (IH m1 (tidy_push_sample path v m m1 Hv Hm H1)).
      assert (inherited path = false) as Hpath.
      { unfold push_sample in H1. destruct (lookup path m) as [arr|] eqn:Hl.
        - destruct Hm as [_ Hall]. rewrite Forall_forall in Hall.
          assert (In path (map fst m)) as Hin.
          { destruct (in_dec string_dec path (map fst m)) as [i|n]; [exact i|].
            apply lookup_None in n. congruence. }
          apply in_map_iff in Hin. destruct Hin as ([k a] & <- & Hin).
          apply (Hall _ Hin).
        - destruct (inherited path); [discriminate | reflexivity]. }
      split.
      * intros (p & w & Hin & Hi). exists p, w. split; [right; exact Hin | exact Hi].
      * intros (p & w & [[= <- <-]|Hin] & Hi); [congruence|]. exists p, w. split; assumption.
    + split; [|reflexivity]. intros _. exists path, v. split; [left; reflexivity|].
      unfold push_sample in H1. destruct (lookup path m); [discriminate|].
      destruct (inherited path); [reflexivity | discriminate].
Qed.

Lemma extractMetrics_TypeError (iterations : list object) :
  extractMetrics iterations = TypeError
  <-> exists it path v,
        In it iterations /\ In (path, v) (object_leaves it "") /\ inherited path = true.
Proof.
  unfold extractMetrics. rewrite flattenAll_push_all.
  pose proof (push_all_throws (run_leaves iterations) (run_leaves_not_nan iterations)
                [] tidy_empty) as H.
  assert (forall o : outcome metrics,
             bind o (fun m => Ok (filter (fun kv => forallb (fun v => negb (isNaN v)) (snd kv)) m))
             = TypeError <-> o = TypeError) as Hbind
    by (intros [m|]; simpl; split; congruence).
  rewrite Hbind, H. unfold run_leaves. split.
  - intros (path & v & Hin & Hi). apply in_flat_map in Hin. destruct Hin as (it & Hit & Hleaf).
    exists it, path, v. auto.
  - intros (it & path & v & Hit & Hleaf & Hi). exists path, v. split; [|exact Hi].
    apply in_flat_map. exists it. auto.
Qed.

(** The extractor throws exactly when some numeric leaf of some iteration
    sits at a path that is a property name inherited from
    [Object.prototype]. *)
Theorem extractMetrics_throws (iterations : list object) :
  extractMetrics iterations = TypeError
  <-> exists it path v,
        In it iterations /\ In (path, v) (object_leaves it "") /\ inherited path = true.
Proof. exact (extractMetrics_TypeError iterations). Qed.

Lemma extractMetrics_tidy (iterations : list object) (m : metrics) :
  extractMetrics iterations = Ok m ->
  flattenAll iterations [] = Ok m
  /\ NoDup (map fst m)
  /\ forall path arr,
      In (path, arr) m ->
      arr <> [] /\ Forall (fun v => isNaN v = false) arr /\ inherited path = false
      /\ lookup path m = Some arr.
Proof.
  unfold extractMetrics. destruct (flattenAll iterations []) as [m0|] eqn:H0; [|discriminate].
  simpl. intros [= <-].
  rewrite flattenAll_push_all in H0.
  pose proof (tidy_push_all _ (run_leaves_not_nan iterations) [] m0 tidy_empty H0)
    as [Hnodup Hall].
  assert (filter (fun kv => forallb (fun v => negb (isNaN v)) (snd kv)) m0 = m0) as Hfilter.
  { clear Hnodup H0. induction Hall as [|[k a] rest (_ & _ & Hnan) _ IH]; simpl; [reflexivity|].
    assert (forallb (fun v => negb (isNaN v)) a = true) as ->.
    { apply forallb_forall. intros x Hx. rewrite Forall_forall in Hnan.
      rewrite (Hnan x Hx). reflexivity. }
    rewrite IH. reflexivity. }
  rewrite Hfilter. split; [reflexivity|]. split; [exact Hnodup|].
  intros path arr Hin. rewrite Forall_forall in Hall.
  destruct (Hall _ Hin) as (Hi & Hne & Hnan). simpl in *. repeat split; try assumption.
  clear Hall H0 Hfilter. induction m0 as [|[k a] rest IH]; [destruct Hin|].
  simpl in *. inversion Hnodup as [|x l Hnot Hrest]; subst.
  destruct Hin as [[= -> ->]|Hin].
  - rewrite String.eqb_refl. reflexivity.
  - destruct (String.eqb_spec k path) as [->|Hne'].
    + exfalso. apply Hnot. apply in_map_iff. exists (path, arr). auto.
    + apply IH; assumption.
Qed.

(** The arrays the extractor returns: the second pass of [extractMetrics]
    removes nothing, the paths are distinct, and every array is non-empty
    and free of NaN. *)
Theorem extractMetrics_arrays (iterations : list object) (m : metrics) :
  extractMetrics iterations = Ok m ->
  flattenAll iterations [] = Ok m
  /\ NoDup (map fst m)
  /\ forall path arr,
      In (path, arr) m ->
      arr <> [] /\ Forall (fun v => isNaN v = false) arr /\ inherited path = false
      /\ lookup path m = Some arr.
Proof. exact (extractMetrics_tidy iterations m). Qed.

(** Two iterations of a scenario; the second lacks the DNS time. *)
Definition sample_iterations : list object :=
  [ [("iteration", VNum (of_Z 1));
     ("timing", VObj [("total", VNum (of_Z 369)); ("dns", VNum (of_Z 12))]);
     ("url", VStr "https://example.test/")];
    [("iteration", VNum (of_Z 2));
     ("timing", VObj [("total", VNum (of_Z 403)); ("dns", VNum NaN)])] ].

Definition sample_metrics : metrics :=
  [ ("iteration", [of_Z 1; of_Z 2]);
    ("timing.total", [of_Z 369; of_Z 403]);
    ("timing.dns", [of_Z 12]) ].

Lemma extractMetrics_arrays_witness :
  extractMetrics sample_iterations = Ok sample_metrics
  /\ flattenAll sample_iterations [] = Ok sample_metrics
  /\ NoDup (map fst sample_metrics)
  /\ forall path arr,
      In (path, arr) sample_metrics ->
      arr <> [] /\ Forall (fun v => isNaN v = false) arr /\ inherited path = false
      /\ lookup path sample_metrics = Some arr.
Proof.
  assert (H : extractMetrics sample_iterations = Ok sample_metrics) by reflexivity.
  exact (conj H (extractMetrics_arrays sample_iterations sample_metrics H)).
Defined.

End ExtractorLaws.

(** ** The extremes and the median *)

Module ReducerLaws.
Import Reducer Binary64 ReducerFacts.

Lemma sorted_first_least (l : list number) (lo v : number) :
  StronglySorted le l -> Forall finite_number l ->
  nth_error l 0 = Some lo -> In v l -> le lo v.
Proof.
  intros Hs Hf Hlo Hin. apply In_nth_error in Hin. destruct Hin as [i Hi].
  apply (sorted_nth l 0 i lo v Hs Hf); [lia | exact Hlo | exact Hi].
Qed.

Lemma sorted_last_greatest (l : list number) (hi v : number) :
  StronglySorted le l -> Forall finite_number l ->
  nth_error l (List.length l - 1) = Some hi -> In v l -> le v hi.
Proof.
  intros Hs Hf Hhi Hin. apply In_nth_error in Hin. destruct Hin as [i Hi].
  assert (i < List.length l)%nat by (apply nth_error_Some; congruence).
  apply (sorted_nth l i (List.length l - 1) v hi Hs Hf); [lia | exact Hi | exact Hhi].
Qed.

Lemma median_of_odd (values : list number) (st : statistics) :
  calculateStatistics values = Some st ->
  Nat.even (List.length values) = false ->
  median st = nth_error (sort values) (List.length values / 2).
Proof.
  unfold calculateStatistics. destruct values as [|v0 rest] eqn:E; [discriminate|].
  rewrite <- E. intros [= <-] Hodd. cbn [median]. rewrite sort_length, Hodd. reflexivity.
Qed.

(** The extremes of the record of a non-empty array of finite numbers are
    samples of the array and bound every sample; for an odd number of
    samples the median is the middle element of the sorted array, a sample
    between [min] and [p75]. *)
Theorem extremes_bound_the_samples (values : list number) :
  values <> [] ->
  Forall finite_number values ->
  Z.of_nat (List.length values) < 2 ^ 32 ->
  exists (st : statistics) (lo hi : number),
    calculateStatistics values = Some st
    /\ min st = Some lo /\ max st = Some hi
    /\ In lo values /\ In hi values
    /\ (forall v, In v values -> le lo v /\ le v hi)
    /\ (Nat.even (List.length values) = false ->
        exists med a,
          median st = Some med /\ p75 st = Some a
          /\ nth_error (sort values) (List.length values / 2) = Some med
          /\ In med values /\ le lo med /\ le med a).
Proof.
  intros Hne Hfin H32.
  destruct (statistics_fields values Hne H32)
    as (st & Hst & _ & Hmin & Hmax & Hp75 & _ & _ & _ & _).
  pose proof (sort_sorted values Hfin) as Hsorted.
  pose proof (sort_finite values Hfin) as Hsf.
  pose proof (sort_length values) as Hsl.
  pose proof (sort_perm values) as Hperm.
  assert (1 <= List.length values)%nat as Hn.
  { destruct values; [congruence | simpl; lia]. }
  destruct (index_order _ Hn) as [Ho1 Ho2].
  destruct (nth_error_defined (sort values) 0 ltac:(lia)) as [lo Hlo].
  destruct (nth_error_defined (sort values) (List.length values - 1) ltac:(lia)) as [hi Hhi].
  destruct (nth_error_defined (sort values) (index (List.length values) 75) ltac:(lia))
    as [a Ha].
  exists st, lo, hi. rewrite Hmin, Hmax.
  repeat split; try assumption.
  - apply (Permutation_in _ Hperm). apply nth_error_In with 0%nat. exact Hlo.
  - apply (Permutation_in _ Hperm). apply nth_error_In with (List.length values - 1)%nat.
    exact Hhi.
  - apply (sorted_first_least (sort values)); try assumption.
    apply (Permutation_in _ (Permutation_sym Hperm)). assumption.
  - apply (sorted_last_greatest (sort values)); try assumption; [rewrite Hsl; exact Hhi|].
    apply (Permutation_in _ (Permutation_sym Hperm)). assumption.
  - intros Hodd.
    assert (List.length values / 2 < List.length values)%nat as Hhalf
      by (apply Nat.div_lt; lia).
    destruct (nth_error_defined (sort values) (List.length values / 2) ltac:(lia))
      as [med Hmed].
    exists med, a.
    assert (median st = Some med) as Hmedian.
    { rewrite (median_of_odd values st Hst Hodd). exact Hmed. }
    rewrite Hp75. repeat split; try assumption.
    + apply (Permutation_in _ Hperm). apply nth_error_In with (List.length values / 2)%nat.
      exact Hmed.
    + apply (sorted_nth (sort values) 0 (List.length values / 2)); auto; lia.
    + apply (sorted_nth (sort values) (List.length values / 2)
               (index (List.length values) 75)); auto.
      unfold index. apply Nat.div_le_lower_bound; [lia|].
      pose proof (Nat.Div0.mul_div_le (List.length values) 2). lia.
Qed.

(** Five samples, out of order. *)
Definition five_samples : list number := map of_Z [30; 10; 50; 20; 40].

Lemma five_samples_finite : Forall finite_number five_samples.
Proof. repeat constructor. Qed.

Lemma extremes_bound_the_samples_witness :
  five_samples <> []
  /\ Forall finite_number five_samples
  /\ Z.of_nat (List.length five_samples) < 2 ^ 32
  /\ exists (st : statistics) (lo hi : number),
      calculateStatistics five_samples = Some st
      /\ min st = Some lo /\ max st = Some hi
      /\ In lo five_samples /\ In hi five_samples
      /\ (forall v, In v five_samples -> le lo v /\ le v hi)
      /\ (Nat.even (List.length five_samples) = false ->
          exists med a,
            median st = Some med /\ p75 st = Some a
            /\ nth_error (sort five_samples) (List.length five_samples / 2) = Some med
            /\ In med five_samples /\ le lo med /\ le med a).
Proof.
  assert (H1 : five_samples <> []) by discriminate.
  assert (H3 : Z.of_nat (List.length five_samples) < 2 ^ 32) by reflexivity.
  split; [exact H1 | split; [exact five_samples_finite | split; [exact H3 | ]]].
  exact (extremes_bound_the_samples five_samples H1 five_samples_finite H3).
Defined.

End ReducerLaws.

(** ** Sums and differences *)

Module Binary64Laws.
Import Binary64.

Lemma add_comm (x y : number) : add x y = add y x.
Proof.
  unfold add, SF64add, SFadd.
  destruct x as [sx|sx| |sx mx ex], y as [sy|sy| |sy my ey];
    try reflexivity; try (destruct sx, sy; reflexivity).
  rewrite (Z.min_comm ex ey), Z.add_comm. reflexivity.
Qed.

Lemma abs_binary_round (s : bool) (m : positive) (e : Z) :
  SFabs (binary_round prec emax s m e) = binary_round prec emax false m e.
Proof.
  unfold binary_round.
  destruct (shl_align m e (fexp (Z.pos (digits2_pos m) + e))) as [mz ez].
  apply abs_round_aux.
Qed.

Lemma abs_binary_normalize (z e : Z) :
  SFabs (binary_normalize prec emax (- z) e false) = SFabs (binary_normalize prec emax z e false).
Proof.
  destruct z as [|p|p]; cbn [Z.opp binary_normalize]; [reflexivity| |];
    rewrite !abs_binary_round; reflexivity.
Qed.

(** The size of a difference does not depend on the order of its
    operands. *)
Lemma abs_sub_swap (x y : number) : Math_abs (sub x y) = Math_abs (sub y x).
Proof.
  unfold Math_abs, sub, SF64sub, SFsub.
  destruct x as [sx|sx| |sx mx ex], y as [sy|sy| |sy my ey];
    try reflexivity; try (destruct sx, sy; reflexivity); try (destruct sx; reflexivity);
    try (destruct sy; reflexivity).
  rewrite (Z.min_comm ey ex).
  rewrite <- abs_binary_normalize. f_equal. f_equal. lia.
Qed.

(** A number minus itself is zero, or NaN when the number is not finite. *)
Lemma sub_self (x : number) : sub x x = zero \/ sub x x = NaN.
Proof.
  unfold sub, SF64sub, SFsub.
  destruct x as [s|s| |s m e]; try (destruct s; auto; fail); auto.
  left. rewrite Z.sub_diag. reflexivity.
Qed.

Lemma ltb_fin_zero (s : bool) (M E : Z) : ltb (fin s M E) zero = s.
Proof. unfold fin. destruct (E <=? emax - prec); destruct s; reflexivity. Qed.

Lemma ltb_negb_leb (x y : number) :
  isNaN x = false -> isNaN y = false -> ltb x y = negb (leb y x).
Proof.
  intros Hx Hy. apply eq_true_iff_eq. rewrite negb_true_iff, <- not_true_iff_false.
  rewrite ltb_key, leb_key by assumption.
  destruct (key x) as [[a1 a2] a3], (key y) as [[b1 b2] b3]. cbn [lex_le lex_lt]. lia.
Qed.

Lemma finite_is_a_number (x : number) : is_finite x = true -> isNaN x = false.
Proof. destruct x; auto; discriminate. Qed.

(** A difference of finite numbers is below zero exactly when the first is
    below the second, and above zero exactly when the first is above the
    second: no difference of distinct numbers rounds to zero. *)
Lemma sub_negative (x y : number) :
  valid x = true -> valid y = true -> is_finite x = true -> is_finite y = true ->
  ltb (sub x y) zero = ltb x y.
Proof.
  intros Vx Vy Fx Fy.
  destruct x as [sx|sx| |sx mx ex]; try discriminate;
    destruct y as [sy|sy| |sy my ey]; try discriminate.
  - destruct sx, sy; reflexivity.
  - destruct sx, sy; reflexivity.
  - destruct sx, sy; reflexivity.
  - rewrite (ltb_negb_leb (S754_finite sx mx ex) (S754_finite sy my ey)) by reflexivity.
    pose proof (leb_sval _ _ Vy Vx Fy Fx) as Hord. cbn [sval] in Hord.
    pose proof (valid_finite _ _ _ Vx) as (Hex & _).
    pose proof (valid_finite _ _ _ Vy) as (Hey & _).
    unfold sub, SF64sub, SFsub.
    set (ez := Z.min ex ey).
    pose proof (shl_align_spec mx ex ez) as [_ Hmx].
    pose proof (shl_align_spec my ey ez) as [_ Hmy].
    rewrite Hmx, Hmy.
    replace (Z.min ex ez) with ez by (unfold ez; lia).
    replace (Z.min ey ez) with ez by (unfold ez; lia).
    set (z := cond_Zopp sx (Z.pos mx * 2 ^ (ex - ez)) - cond_Zopp sy (Z.pos my * 2 ^ (ey - ez))).
    assert (cond_Zopp sx (Z.pos mx * 2 ^ (ex + 1074))
            - cond_Zopp sy (Z.pos my * 2 ^ (ey + 1074)) = z * 2 ^ (ez + 1074)) as Hz.
    { unfold z.
      replace (ex + 1074) with ((ex - ez) + (ez + 1074)) by lia.
      replace (ey + 1074) with ((ey - ez) + (ez + 1074)) by lia.
      rewrite (Z.pow_add_r 2 (ex - ez)), (Z.pow_add_r 2 (ey - ez)) by (unfold ez; lia).
      unfold cond_Zopp. destruct sx, sy; ring. }
    pose proof (pow2_pos (ez + 1074) ltac:(unfold ez; lia)) as Hp.
    clearbody z.
    destruct z as [|p|p]; cbn [binary_normalize].
    + change (ltb (S754_zero false) zero) with false. symmetry. apply negb_false_iff.
      apply Hord. lia.
    + destruct (binary_round_sign false p ez ltac:(unfold ez; lia)) as (M & E & -> & HM).
      rewrite ltb_fin_zero. symmetry. apply negb_false_iff. apply Hord. nia.
    + destruct (binary_round_sign true p ez ltac:(unfold ez; lia)) as (M & E & -> & HM).
      rewrite ltb_fin_zero. symmetry. apply negb_true_iff.
      apply not_true_is_false. intros Hle. apply Hord in Hle. nia.
Qed.

Lemma sub_positive (x y : number) :
  valid x = true -> valid y = true -> is_finite x = true -> is_finite y = true ->
  gtb (sub x y) zero = gtb x y.
Proof.
  intros Vx Vy Fx Fy. unfold gtb. fold ltb.
  destruct (sub_sign x y Vx Vy Fx Fy) as [Hn Hle].
  rewrite (ltb_negb_leb zero (sub x y)) by (try reflexivity; exact Hn).
  rewrite Hle. symmetry. apply ltb_negb_leb; apply finite_is_a_number; assumption.
Qed.

End Binary64Laws.

(** ** Laws of the comparator *)

Module ComparatorLaws.
Import Compare Binary64 Binary64Laws SummaryFacts.

(** *** The percent change *)

(** The unrounded percent change of a pair of records. *)
Definition meanChangePercent (b c : stats) : number :=
  if gtb (mean b) zero
  then mul (div (sub (mean c) (mean b)) (mean b)) hundred else zero.

Lemma percent_unfold (b c : stats) :
  Change.percent (change (performStatisticalTest b c)) = round_fixed 2 (meanChangePercent b c).
Proof. reflexivity. Qed.

(** A change of zero or NaN percent is on neither side of any threshold. *)
Definition no_change (p : number) : Prop := p = zero \/ p = NaN.


Lemma self_percent (b : stats) :
  no_change (Change.percent (change (performStatisticalTest b b))).
Proof.
  rewrite percent_unfold. unfold meanChangePercent, no_change.
  destruct (mean b) as [s|s| |s m e] eqn:E; try (destruct s);
    try (left; reflexivity); try (right; reflexivity).
  left. change (gtb (S754_finite false m e) zero) with true. cbv iota.
  destruct (sub_self (S754_finite false m e)) as [-> | H]; [reflexivity|].
  exfalso. revert H. unfold sub, SF64sub, SFsub. rewrite Z.sub_diag. discriminate.
Qed.

(** A metric whose baseline mean is not above zero has no percent change,
    whatever the comparison: it is never listed as a regression or an
    improvement. *)
Theorem baseline_not_above_zero (scenarioName metric : string) (acc : lists) (b c : stats) :
  gtb (mean b) zero = false ->
  let result := performStatisticalTest b c in
  Change.percent (change result) = zero
  /\ Interpretation.magnitude (interpretation result) = "small"
  /\ regression_list (metric_step scenarioName acc (metric, result)) = regression_list acc
  /\ improvement_list (metric_step scenarioName acc (metric, result)) = improvement_list acc.
Proof.
  intros Hb result.
  assert (Change.percent (change result) = zero) as Hp.
  { unfold result. rewrite percent_unfold. unfold meanChangePercent. rewrite Hb. reflexivity. }
  split; [exact Hp|]. split.
  - unfold result, performStatisticalTest, interpretStatisticalResult.
    cbn [interpretation Interpretation.magnitude Change.percent].
    fold (meanChangePercent b c). rewrite <- percent_unfold. fold result. rewrite Hp.
    reflexivity.
  - unfold metric_step. rewrite Hp.
    destruct (Significance.isSignificant (significance result)); split; reflexivity.
Qed.

(** *** Comparing a result set with itself *)












Lemma baseline_not_above_zero_witness :
  gtb (mean {| mean := zero; stddev := zero; count := of_Z 5; cv := None |}) zero = false
  /\ Change.percent
       (change (performStatisticalTest
                  {| mean := zero; stddev := zero; count := of_Z 5; cv := None |}
                  {| mean := of_Z 250; stddev := of_Z 5; count := of_Z 5; cv := None |}))
     = zero.
Proof.
  split; [reflexivity|].
  exact (proj1 (baseline_not_above_zero "cold-start" "errors.count"
                  {| significant_list := []; regression_list := []; improvement_list := [] |}
                  {| mean := zero; stddev := zero; count := of_Z 5; cv := None |}
                  {| mean := of_Z 250; stddev := of_Z 5; count := of_Z 5; cv := None |}
                  eq_refl)).
Defined.

(** *** The verdict of a comparison and the lists of the summary *)

Lemma above_five (p : number) :
  gtb (Math_abs p) (of_Z 5) && gtb p zero = gtb p (of_Z 5).
Proof.
  destruct p as [s|s| |s m e]; try (destruct s); try reflexivity.
  - change (gtb (S754_finite true m e) zero) with false. apply andb_false_r.
  - cbn [Math_abs SFabs]. change (gtb (S754_finite false m e) zero) with true.
    apply andb_true_r.
Qed.

Lemma below_minus_five (p : number) :
  gtb (Math_abs p) (of_Z 5) && negb (gtb p zero) = ltb p (of_Z (-5)).
Proof.
  destruct p as [s|s| |s m e]; try (destruct s); try reflexivity.
  - cbn [Math_abs SFabs]. change (gtb (S754_finite true m e) zero) with false.
    rewrite andb_true_r. unfold gtb. fold ltb.
    apply eq_true_iff_eq. rewrite !ltb_key by reflexivity.
    change (of_Z 5) with (S754_finite false 5629499534213120 (-50)).
    change (of_Z (-5)) with (S754_finite true 5629499534213120 (-50)).
    cbn [key lex_lt]. lia.
  - cbn [Math_abs SFabs]. change (gtb (S754_finite false m e) zero) with true.
    rewrite andb_false_r. reflexivity.
Qed.

Lemma not_both_sides (p : number) : gtb p (of_Z 5) = true -> ltb p (of_Z (-5)) = false.
Proof.
  intros H. apply not_true_is_false. intros H'.
  unfold gtb in H. fold ltb in H.
  pose proof (ltb_trans _ _ _ H H') as Habs. revert Habs. vm_compute. discriminate.
Qed.

Lemma grown_list {A : Type} (l : list A) (x : A) : l ++ [x] <> l.
Proof.
  intros H. apply (f_equal (@List.length A)) in H. rewrite length_app in H. simpl in H. lia.
Qed.

(** The verdict of a comparison agrees with the summary: the summary lists
    the metric as a regression exactly when the interpretation recommends
    to investigate a regression, and as an improvement exactly when the
    interpretation confirms an improvement. *)
Theorem verdict_agrees_with_summary
  (scenarioName metric : string) (acc : lists) (b c : stats) :
  let result := performStatisticalTest b c in
  let after := metric_step scenarioName acc (metric, result) in
  (Interpretation.recommendation (interpretation result)
   = "Investigate and address performance regression"
   <-> regression_list after <> regression_list acc)
  /\ (Interpretation.recommendation (interpretation result)
      = "Performance improvement confirmed"
      <-> improvement_list after <> improvement_list acc).
Proof.
  intros result after. subst after.
  set (p := Change.percent (change result)).
  set (sig := Significance.isSignificant (significance result)).
  assert (Interpretation.recommendation (interpretation result)
          = if sig then
              if gtb p (of_Z 5) then "Investigate and address performance regression"
              else if ltb p (of_Z (-5)) then "Performance improvement confirmed"
              else "Monitor for consistency"
            else "Performance appears stable") as -> by reflexivity.
  unfold metric_step. fold p. fold sig.
  pose proof (above_five p) as Ha. pose proof (below_minus_five p) as Hb.
  pose proof (not_both_sides p) as Hc.
  destruct sig.
  - destruct (gtb p (of_Z 5)); destruct (ltb p (of_Z (-5)));
      try (discriminate (Hc eq_refl));
      destruct (gtb (Math_abs p) (of_Z 5)); destruct (gtb p zero);
      try discriminate Ha; try discriminate Hb;
      cbn [regression_list improvement_list]; split; split;
      first [ discriminate | intros _; apply grown_list | intros _; reflexivity
            | intros H; exfalso; apply H; reflexivity ].
  - split; split; first [ discriminate | intros H; exfalso; apply H; reflexivity ].
Qed.

(** *** The direction of a change *)

(** Between finite means the direction is the order of the means, also
    where the rounded difference is zero. *)
Theorem direction_is_the_order_of_the_means (b c : stats) :
  valid (mean b) = true -> valid (mean c) = true ->
  is_finite (mean b) = true -> is_finite (mean c) = true ->
  Change.direction (change (performStatisticalTest b c))
  = if ltb (mean b) (mean c) then "increase"
    else if ltb (mean c) (mean b) then "decrease"
    else "no-change".
Proof.
  intros Vb Vc Fb Fc. unfold performStatisticalTest. cbn [change Change.direction].
  rewrite (sub_positive (mean c) (mean b)), (sub_negative (mean c) (mean b)) by assumption.
  reflexivity.
Qed.

Lemma direction_is_the_order_of_the_means_witness :
  valid (of_Z 369) = true /\ valid (dec false 36901 2) = true
  /\ Change.direction
       (change (performStatisticalTest
                  {| mean := of_Z 369; stddev := of_Z 30; count := of_Z 10; cv := None |}
                  {| mean := dec false 36901 2; stddev := of_Z 30; count := of_Z 10;
                     cv := None |}))
     = "increase".
Proof.
  split; [reflexivity | split; [reflexivity|]].
  exact (direction_is_the_order_of_the_means
           {| mean := of_Z 369; stddev := of_Z 30; count := of_Z 10; cv := None |}
           {| mean := dec false 36901 2; stddev := of_Z 30; count := of_Z 10; cv := None |}
           eq_refl eq_refl eq_refl eq_refl).
Defined.

(** *** The test statistic *)

(** The statistic and the degrees of freedom of [welchTTest], before they
    are rounded. *)
Definition standardError (b c : stats) : number :=
  Math_sqrt (add (div (mul (stddev b) (stddev b)) (count b))
                 (div (mul (stddev c) (stddev c)) (count c))).

Definition tStatistic_of (b c : stats) : number :=
  div (sub (mean b) (mean c)) (standardError b c).

Definition degreesOfFreedom_of (b c : stats) : number :=
  div (Math_pow2 (add (div (mul (stddev b) (stddev b)) (count b))
                      (div (mul (stddev c) (stddev c)) (count c))))
      (add (div (Math_pow2 (div (mul (stddev b) (stddev b)) (count b)))
                (sub (count b) (of_Z 1)))
           (div (Math_pow2 (div (mul (stddev c) (stddev c)) (count c)))
                (sub (count c) (of_Z 1)))).

Lemma welchTTest_unfold (b c : stats) :
  welchTTest b c
  = {| tStatistic := round_fixed 4 (tStatistic_of b c);
       degreesOfFreedom := round_fixed 2 (degreesOfFreedom_of b c);
       pValue := round_fixed 4 (calculatePValue (Math_abs (tStatistic_of b c))
                                                (degreesOfFreedom_of b c)) |}.
Proof. reflexivity. Qed.

Lemma significance_of_raw_values (b c : stats) :
  Significance.isSignificant (significance (performStatisticalTest b c))
  = negb (leb (degreesOfFreedom_of b c) zero)
    && negb (ltb (Math_abs (tStatistic_of b c)) (of_Z 2)).
Proof.
  unfold performStatisticalTest. cbn [significance Significance.isSignificant].
  rewrite welchTTest_unfold. cbn [pValue].
  apply SignificanceFacts.significance_of_table.
Qed.

(** A change is significant exactly when the degrees of freedom are not at
    most zero and the size of the statistic is not below 2; a NaN passes
    either test. *)
Theorem significant_by_the_table (b c : stats) :
  Significance.isSignificant (significance (performStatisticalTest b c))
  = negb (leb (degreesOfFreedom_of b c) zero)
    && negb (ltb (Math_abs (tStatistic_of b c)) (of_Z 2)).
Proof. exact (significance_of_raw_values b c). Qed.

(** The test does not depend on which record is the baseline: swapping the
    records leaves the degrees of freedom, the p-value and the
    significance as they are. *)
Theorem welch_test_is_symmetric (b c : stats) :
  degreesOfFreedom (welchTTest b c) = degreesOfFreedom (welchTTest c b)
  /\ pValue (welchTTest b c) = pValue (welchTTest c b)
  /\ Significance.isSignificant (significance (performStatisticalTest b c))
     = Significance.isSignificant (significance (performStatisticalTest c b)).
Proof.
  assert (standardError b c = standardError c b) as Hse
    by (unfold standardError; rewrite add_comm; reflexivity).
  assert (degreesOfFreedom_of b c = degreesOfFreedom_of c b) as Hdf.
  { unfold degreesOfFreedom_of.
    rewrite (add_comm (div (mul (stddev b) (stddev b)) (count b))).
    rewrite (add_comm (div (Math_pow2 (div (mul (stddev b) (stddev b)) (count b))) _)).
    reflexivity. }
  assert (Math_abs (tStatistic_of b c) = Math_abs (tStatistic_of c b)) as Ht.
  { unfold tStatistic_of. rewrite !abs_div, Hse, abs_sub_swap. reflexivity. }
  rewrite !significance_of_raw_values, !welchTTest_unfold. cbn [degreesOfFreedom pValue].
  rewrite Hdf, Ht. auto.
Qed.

End ComparatorLaws.

(** ** The performance budget *)

Module BudgetFacts.
Import Compare Budget.

(** A mean above its limit: what makes a budget fail. *)
Definition exceeds (scs : list (string * Compare.scenario)) (limits : list (string * number))
  (x : violation) : Prop :=
  exists sc st,
    In (metric x, limit x) limits
    /\ In (scenario x, sc) scs
    /\ statistics sc = Some st
    /\ mean_of st (metric x) = Some (value x)
    /\ gtb (value x) (limit x) = true
    /\ exceedBy x = sub (value x) (limit x).

(** What the loops keep: the budget has failed exactly when a violation was
    recorded, and the violations recorded are those of the pairs seen. *)
Definition sound (scs : list (string * Compare.scenario)) (limits : list (string * number))
  (v : validation) : Prop :=
  (passed v = true <-> violations v = [])
  /\ (forall x, In x (violations v) -> exceeds scs limits x)
  /\ (forall w, In w (warnings v) ->
        gtb (w_value w) (w_limit w) = false
        /\ gtb (w_value w) (mul (w_limit w) (dec false 9 1)) = true
        /\ warningThreshold w = mul (w_limit w) (dec false 9 1)).

Lemma sound_check (scs : list (string * Compare.scenario)) (limits : list (string * number))
  (metric : string) (limit : number) (v : validation) (entry : string * Compare.scenario) :
  In (metric, limit) limits -> In entry scs ->
  sound scs limits v -> sound scs limits (check metric limit v entry).
Proof.
  intros Hl He Hsound. pose proof Hsound as (Hp & Hv & Hw).
  destruct entry as [name sc]. unfold check.
  destruct (statistics sc) as [st|] eqn:Hst; [|exact Hsound].
  destruct (mean_of st metric) as [val|] eqn:Hm; [|exact Hsound].
  destruct (gtb val limit) eqn:Hgt.
  - split; [|split]; cbn [passed violations warnings].
    + split; [discriminate|]. intros H. destruct (violations v); discriminate.
    + intros x Hx. apply in_app_or in Hx. destruct Hx as [Hx|[<-|[]]]; [auto|].
      exists sc, st. cbn [Budget.metric Budget.limit Budget.scenario Budget.value exceedBy].
      repeat split; assumption.
    + exact Hw.
  - destruct (gtb val (mul limit (dec false 9 1))) eqn:Hgt'; [|exact Hsound].
    split; [|split]; cbn [passed violations warnings]; [exact Hp | exact Hv |].
    intros w Hin. apply in_app_or in Hin. destruct Hin as [Hin|[<-|[]]]; [auto|].
    cbn [w_value w_limit warningThreshold]. auto.
Qed.

Lemma sound_scenarios (scs all : list (string * Compare.scenario))
  (limits : list (string * number)) (metric : string) (limit : number) :
  In (metric, limit) limits -> incl scs all ->
  forall v, sound all limits v -> sound all limits (fold_left (check metric limit) scs v).
Proof.
  intros Hl. induction scs as [|entry rest IH]; intros Hincl v Hv; cbn [fold_left]; [exact Hv|].
  apply IH; [intros e He; apply Hincl; right; exact He|].
  apply sound_check; [exact Hl | apply Hincl; left; reflexivity | exact Hv].
Qed.

Lemma sound_limits (scs : list (string * Compare.scenario))
  (limits all : list (string * number)) :
  incl limits all ->
  forall v, sound scs all v ->
    sound scs all
      (fold_left (fun v '(metric, limit) => fold_left (check metric limit) scs v) limits v).
Proof.
  induction limits as [|[metric limit] rest IH]; intros Hincl v Hv; cbn [fold_left]; [exact Hv|].
  apply IH; [intros e He; apply Hincl; right; exact He|].
  apply sound_scenarios; [apply Hincl; left; reflexivity | apply incl_refl | exact Hv].
Qed.

Lemma sound_start (scs : list (string * Compare.scenario)) (limits : list (string * number)) :
  sound scs limits {| passed := true; violations := []; warnings := [] |}.
Proof. split; [split; reflexivity | split; intros x []]. Qed.

(** A violation, once recorded, stays, and so does the failure. *)
Definition grows (v v' : validation) : Prop :=
  (passed v = false -> passed v' = false)
  /\ (forall x, In x (violations v) -> In x (violations v')).

Lemma grows_refl (v : validation) : grows v v.
Proof. split; auto. Qed.

Lemma grows_trans (v1 v2 v3 : validation) : grows v1 v2 -> grows v2 v3 -> grows v1 v3.
Proof. intros [H1 H2] [H3 H4]. split; auto. Qed.

Lemma grows_check (metric : string) (limit : number) (v : validation)
  (entry : string * Compare.scenario) : grows v (check metric limit v entry).
Proof.
  destruct entry as [name sc]. unfold check.
  destruct (statistics sc) as [st|]; [|apply grows_refl].
  destruct (mean_of st metric) as [val|]; [|apply grows_refl].
  destruct (gtb val limit); [|destruct (gtb val (mul limit (dec false 9 1)))];
    try apply grows_refl; split; cbn [passed violations]; auto.
  intros x Hx. apply in_or_app. left. exact Hx.
Qed.

Lemma grows_fold {A : Type} (step : validation -> A -> validation) (l : list A) :
  (forall v a, grows v (step v a)) -> forall v, grows v (fold_left step l v).
Proof.
  intros Hstep. induction l as [|a l IH]; intros v; cbn [fold_left]; [apply grows_refl|].
  eapply grows_trans; [apply Hstep | apply IH].
Qed.

Lemma check_records (metric : string) (limit : number) (v : validation)
  (name : string) (sc : Compare.scenario) (st : statistics_object) (val : number) :
  statistics sc = Some st -> mean_of st metric = Some val -> gtb val limit = true ->
  passed (check metric limit v (name, sc)) = false.
Proof. intros Hst Hm Hgt. unfold check. rewrite Hst, Hm, Hgt. reflexivity. Qed.

Lemma scenarios_record (metric : string) (limit : number)
  (name : string) (sc : Compare.scenario) (st : statistics_object) (val : number)
  (scs : list (string * Compare.scenario)) :
  In (name, sc) scs ->
  statistics sc = Some st -> mean_of st metric = Some val -> gtb val limit = true ->
  forall v, passed (fold_left (check metric limit) scs v) = false.
Proof.
  intros Hin Hst Hm Hgt. induction scs as [|entry rest IH]; intros v; [destruct Hin|].
  cbn [fold_left]. destruct Hin as [->|Hin]; [|apply IH; exact Hin].
  apply (grows_fold (check metric limit) rest (grows_check metric limit)).
  exact (check_records metric limit v name sc st val Hst Hm Hgt).
Qed.

(** The budget fails exactly when the mean of some metric of some scenario
    is above the limit the budget sets for it. *)
Theorem budget_fails_on_a_mean_above_its_limit
  (scenarios : option (list (string * Compare.scenario)))
  (budget : option (list (string * number))) :
  passed (validatePerformanceBudget scenarios budget) = false
  <-> exists limits scs metric limit name sc st val,
        budget = Some limits /\ scenarios = Some scs
        /\ In (metric, limit) limits /\ In (name, sc) scs
        /\ statistics sc = Some st /\ mean_of st metric = Some val
        /\ gtb val limit = true.
Proof.
  unfold validatePerformanceBudget.
  set (start := {| passed := true; violations := []; warnings := [] |}).
  pose proof sound_start as Hstart. fold start in Hstart.
  split.
  - destruct budget as [limits|]; [|discriminate].
    destruct scenarios as [scs|]; [|discriminate].
    intros Hfail.
    destruct (sound_limits scs limits limits (incl_refl _) start (Hstart scs limits))
      as (Hp & Hv & _).
    destruct (violations (fold_left _ limits start)) as [|x rest] eqn:E.
    + rewrite (proj2 Hp eq_refl) in Hfail. discriminate.
    + destruct (Hv x (or_introl eq_refl)) as (sc & st & H1 & H2 & H3 & H4 & H5 & _).
      exists limits, scs, (metric x), (limit x), (scenario x), sc, st, (value x). auto 10.
  - intros (limits & scs & metric & limit & name & sc & st & val
            & -> & -> & Hl & Hs & Hst & Hm & Hgt).
    clear Hstart. generalize start. clear start.
    induction limits as [|[metric' limit'] rest IH]; intros v; [destruct Hl|].
    cbn [fold_left]. destruct Hl as [[= -> ->]|Hl]; [|apply IH; exact Hl].
    apply (grows_fold
             (fun v '(metric, limit) => fold_left (check metric limit) scs v) rest).
    + intros v' [m l]. apply grows_fold. apply grows_check.
    + exact (scenarios_record metric limit name sc st val scs Hs Hst Hm Hgt v).
Qed.

(** The budget passes exactly when it records no violation; every violation
    recorded is a mean above its limit, with the excess; every warning is
    a mean that is not above its limit and is above nine tenths of it. *)
Theorem budget_records (scs : list (string * Compare.scenario))
  (limits : list (string * number)) :
  let v := validatePerformanceBudget (Some scs) (Some limits) in
  (passed v = true <-> violations v = [])
  /\ (forall x, In x (violations v) -> exceeds scs limits x)
  /\ (forall w, In w (warnings v) ->
        gtb (w_value w) (w_limit w) = false
        /\ gtb (w_value w) (mul (w_limit w) (dec false 9 1)) = true
        /\ warningThreshold w = mul (w_limit w) (dec false 9 1)).
Proof.
  apply (sound_limits scs limits limits (incl_refl _)). apply sound_start.
Qed.

End BudgetFacts.

(** ** The validation against a baseline *)

Module BaselineFacts.
Import Compare Baseline.

(** What the loops keep. *)
Definition counted (v : validation) : Prop :=
  score v = 100 - 15 * Z.of_nat (List.length (regressions v))
            + 5 * Z.of_nat (List.length (improvements v))
  /\ (passed v = true <-> regressions v = [])
  /\ Forall (fun c => gtb (changePercent c) (of_Z 5) = true
                      /\ Significance.isSignificant (significance c) = true)
            (regressions v)
  /\ Forall (fun c => ltb (changePercent c) (of_Z (-5)) = true
                      /\ Significance.isSignificant (significance c) = true)
            (improvements v)
  /\ Forall (fun c => gtb (changePercent c) (of_Z 5) = false
                      /\ ltb (changePercent c) (of_Z (-5)) = false
                      /\ Significance.isSignificant (significance c) = true)
            (changes v).

Lemma counted_metric_step (envName scenarioName : string) (baselineStats : statistics_object)
  (v : validation) (entry : string * stat_entry) :
  counted v -> counted (metric_step envName scenarioName baselineStats v entry).
Proof.
  intros Hv. pose proof Hv as (Hs & Hp & Hr & Hi & Hc).
  destruct entry as [metricName stats]. unfold metric_step.
  destruct stats as [current| |]; try exact Hv.
  destruct (property metricName baselineStats) as [[base| |]|]; try exact Hv.
  destruct (Significance.isSignificant _) eqn:Hsig; [|exact Hv].
  destruct (gtb _ (of_Z 5)) eqn:Hgt; [|destruct (ltb _ (of_Z (-5))) eqn:Hlt];
    unfold counted; cbn [score passed regressions improvements changes];
    rewrite ?length_app; cbn [List.length]; repeat split;
    try assumption; try (apply Hp; assumption); try lia; try discriminate;
    try (intros H; destruct (regressions v); discriminate H);
    apply Forall_app; split; try assumption; repeat constructor; assumption.
Qed.

Lemma counted_fold {A : Type} (step : validation -> A -> validation) (l : list A) :
  (forall v a, counted v -> counted (step v a)) ->
  forall v, counted v -> counted (fold_left step l v).
Proof.
  intros Hstep. induction l as [|a l IH]; intros v Hv; cbn [fold_left]; auto.
Qed.

Lemma counted_scenario_step (envName : string) (baselineEnv : list (string * statistics_object))
  (v : validation) (entry : string * Compare.scenario) :
  counted v -> counted (scenario_step envName baselineEnv v entry).
Proof.
  intros Hv. destruct entry as [scenarioName sc]. unfold scenario_step.
  destruct (property scenarioName baselineEnv) as [baselineStats|]; [|exact Hv].
  destruct (statistics sc) as [currentStats|]; [|exact Hv].
  apply counted_fold; [|exact Hv]. intros v' a. apply counted_metric_step.
Qed.

Lemma counted_environment_step (baseline : baseline_statistics)
  (v : validation) (entry : string * Validation.environment_result) :
  counted v -> counted (environment_step baseline v entry).
Proof.
  intros Hv. destruct entry as [envName envResult]. unfold environment_step.
  destruct (property envName baseline) as [baselineEnv|]; [|exact Hv].
  destruct (Validation.scenarios envResult) as [scs|]; [|exact Hv].
  apply counted_fold; [|exact Hv]. intros v' a. apply counted_scenario_step.
Qed.

(** The score against a baseline is 100 minus 15 per regression plus 5 per
    improvement, clamped to [0, 100]; the validation passes exactly when it
    lists no regression, so a validation that passes scores 100; the
    changes it lists are significant, regressions above 5 percent and
    improvements below -5 percent. *)
Theorem validateAgainstBaseline_score
  (results : list (string * Validation.environment_result))
  (baseline : baseline_statistics) :
  exists v,
    validateAgainstBaseline (Some results) (Some baseline) = Ok v
    /\ score v
       = Z.max 0 (Z.min 100 (100 - 15 * Z.of_nat (List.length (regressions v))
                                 + 5 * Z.of_nat (List.length (improvements v))))
    /\ (passed v = true <-> regressions v = [])
    /\ (passed v = true -> score v = 100)
    /\ Forall (fun c => gtb (changePercent c) (of_Z 5) = true
                        /\ Significance.isSignificant (significance c) = true)
              (regressions v)
    /\ Forall (fun c => ltb (changePercent c) (of_Z (-5)) = true
                        /\ Significance.isSignificant (significance c) = true)
              (improvements v).
Proof.
  unfold validateAgainstBaseline.
  set (start := {| passed := true; regressions := []; improvements := []; changes := [];
                   score := 100 |}).
  assert (counted start) as Hstart.
  { unfold counted, start. cbn. repeat split; try reflexivity; constructor. }
  pose proof (counted_fold (environment_step baseline) results
                (counted_environment_step baseline) start Hstart) as (Hs & Hp & Hr & Hi & _).
  eexists. split; [reflexivity|].
  cbn [score passed regressions improvements]. rewrite Hs.
  repeat split; try assumption; try (apply Hp; assumption).
  intros Hpass. apply Hp in Hpass. rewrite Hpass. cbn [List.length]. lia.
Qed.

(** One regression and three improvements: the score is 100 and the
    validation has failed. *)
Definition steady : stats :=
  {| mean := of_Z 100; stddev := of_Z 1; count := of_Z 10; cv := Some (of_Z 1) |}.
Definition slower : stats :=
  {| mean := of_Z 120; stddev := of_Z 1; count := of_Z 10; cv := Some (of_Z 1) |}.
Definition faster : stats :=
  {| mean := of_Z 80; stddev := of_Z 1; count := of_Z 10; cv := Some (of_Z 1) |}.

Definition mixed_run (a b c d : stats) : list (string * Validation.environment_result) :=
  [ ("production",
     {| Validation.scenarios :=
          Some [("cold-start",
                 {| statistics :=
                      Some [("timing.total", MetricStats a); ("timing.dns", MetricStats b);
                            ("timing.tls", MetricStats c);
                            ("timing.response", MetricStats d)] |})] |}) ].

Example full_score_and_failed :
  option_map (fun v => (passed v, score v, List.length (regressions v),
                        List.length (improvements v)))
    (match validateAgainstBaseline
             (Some (mixed_run slower faster faster faster))
             (Some (extractBaselineStatistics (mixed_run steady steady steady steady)))
     with Ok v => Some v | TypeError => None end)
  = Some (false, 100, 1%nat, 3%nat).
Proof. vm_compute. reflexivity. Qed.


(** *** A run against its own baseline *)

Lemma property_of_entry {A : Type} (key : string) (v : A) (obj : list (string * A)) :
  NoDup (map fst obj) -> In (key, v) obj -> property key obj = Some v.
Proof.
  induction obj as [|[k x] rest IH]; intros Hnd Hin; [destruct Hin|].
  cbn [map fst] in Hnd. inversion Hnd as [|y l Hnot Hrest]; subst.
  cbn [property]. destruct Hin as [[= -> ->]|Hin].
  - rewrite String.eqb_refl. reflexivity.
  - destruct (String.eqb_spec k key) as [->|Hne]; [|apply IH; assumption].
    exfalso. apply Hnot. apply in_map_iff. exists (key, v). auto.
Qed.

(** A validation that has found nothing. *)
Definition quiet (v : validation) : Prop :=
  passed v = true /\ regressions v = [] /\ improvements v = [] /\ score v = 100.

Lemma quiet_fold {A : Type} (step : validation -> A -> validation) (l : list A) :
  (forall v a, In a l -> quiet v -> quiet (step v a)) ->
  forall v, quiet v -> quiet (fold_left step l v).
Proof.
  induction l as [|a l IH]; intros Hstep v Hv; cbn [fold_left]; [exact Hv|].
  apply IH; [intros v' a' Hin; apply Hstep; right; exact Hin|].
  apply Hstep; [left; reflexivity | exact Hv].
Qed.

Lemma quiet_metric_step (envName scenarioName : string) (st : statistics_object)
  (v : validation) (entry : string * stat_entry) :
  NoDup (map fst st) -> In entry st ->
  quiet v -> quiet (metric_step envName scenarioName st v entry).
Proof.
  intros Hnd Hin Hv. destruct entry as [metricName stats]. unfold metric_step.
  destruct stats as [current| |]; try exact Hv.
  rewrite (property_of_entry metricName (MetricStats current) st Hnd Hin).
  destruct (Significance.isSignificant _); [|exact Hv].
  destruct (ComparatorLaws.self_percent current) as [-> | ->];
    destruct Hv as (Hp & Hr & Hi & Hs); repeat split; assumption.
Qed.

(** The keys of the objects of a result set are distinct. *)
Definition distinct_keys (results : list (string * Validation.environment_result)) : Prop :=
  NoDup (map fst results)
  /\ forall envName envResult scs,
      In (envName, envResult) results -> Validation.scenarios envResult = Some scs ->
      NoDup (map fst scs)
      /\ forall scenarioName sc st,
          In (scenarioName, sc) scs -> statistics sc = Some st -> NoDup (map fst st).

Lemma baseline_scenario (scenarioName : string) (sc : Compare.scenario)
  (st : statistics_object) (scs : list (string * Compare.scenario)) :
  NoDup (map fst scs) -> In (scenarioName, sc) scs -> statistics sc = Some st ->
  property scenarioName
    (flat_map (fun '(name, sc') =>
                 match statistics sc' with Some st' => [(name, st')] | None => [] end) scs)
  = Some st.
Proof.
  induction scs as [|[k x] rest IH]; intros Hnd Hin Hst; [destruct Hin|].
  cbn [map fst] in Hnd. inversion Hnd as [|y l Hnot Hrest]; subst.
  cbn [flat_map]. destruct Hin as [[= -> ->]|Hin].
  - rewrite Hst. cbn [app property]. rewrite String.eqb_refl. reflexivity.
  - assert (k <> scenarioName) as Hne.
    { intros ->. apply Hnot. apply in_map_iff. exists (scenarioName, sc). auto. }
    destruct (statistics x); cbn [app property];
      [apply String.eqb_neq in Hne; rewrite Hne|]; apply IH; assumption.
Qed.

Lemma baseline_environment (envName : string) (envResult : Validation.environment_result)
  (scs : list (string * Compare.scenario))
  (results : list (string * Validation.environment_result)) :
  NoDup (map fst results) -> In (envName, envResult) results ->
  Validation.scenarios envResult = Some scs ->
  property envName (extractBaselineStatistics results)
  = Some (flat_map (fun '(name, sc') =>
                      match statistics sc' with Some st' => [(name, st')] | None => [] end)
                   scs).
Proof.
  unfold extractBaselineStatistics.
  induction results as [|[k x] rest IH]; intros Hnd Hin Hscs; [destruct Hin|].
  cbn [map fst] in Hnd. inversion Hnd as [|y l Hnot Hrest]; subst.
  cbn [flat_map]. destruct Hin as [[= -> ->]|Hin].
  - rewrite Hscs. cbn [app property]. rewrite String.eqb_refl. reflexivity.
  - assert (k <> envName) as Hne.
    { intros ->. apply Hnot. apply in_map_iff. exists (envName, envResult). auto. }
    destruct (Validation.scenarios x); cbn [app property];
      [apply String.eqb_neq in Hne; rewrite Hne|]; apply IH; assumption.
Qed.

(** A run validated against the baseline extracted from itself passes with
    a score of 100 and lists no regression and no improvement. *)
Theorem run_against_its_own_baseline
  (results : list (string * Validation.environment_result)) :
  distinct_keys results ->
  exists v,
    validateAgainstBaseline (Some results) (Some (extractBaselineStatistics results)) = Ok v
    /\ passed v = true /\ score v = 100
    /\ regressions v = [] /\ improvements v = [].
Proof.
  intros [Hnd Hkeys]. unfold validateAgainstBaseline.
  set (start := {| passed := true; regressions := []; improvements := []; changes := [];
                   score := 100 |}).
  assert (quiet (fold_left (environment_step (extractBaselineStatistics results))
                           results start)) as (Hp & Hr & Hi & Hs).
  { apply quiet_fold; [|repeat split; reflexivity].
    intros v [envName envResult] Hin Hv. unfold environment_step.
    destruct (Validation.scenarios envResult) as [scs|] eqn:Hscs;
      [|destruct (property envName _); exact Hv].
    rewrite (baseline_environment envName envResult scs results Hnd Hin Hscs).
    destruct (Hkeys envName envResult scs Hin Hscs) as [Hnd' Hkeys'].
    apply quiet_fold; [|exact Hv].
    intros v' [scenarioName sc] Hin' Hv'. unfold scenario_step.
    destruct (statistics sc) as [st|] eqn:Hst;
      [|destruct (property scenarioName _); exact Hv'].
    rewrite (baseline_scenario scenarioName sc st scs Hnd' Hin' Hst).
    apply quiet_fold; [|exact Hv'].
    intros v'' entry Hin''. apply quiet_metric_step; [|exact Hin''].
    exact (Hkeys' scenarioName sc st Hin' Hst). }
  eexists. split; [reflexivity|]. cbn [passed score regressions improvements].
  rewrite Hs. repeat split; assumption.
Qed.

Lemma mixed_run_distinct_keys : distinct_keys (mixed_run slower faster faster faster).
Proof.
  split; [repeat constructor; intros []|].
  intros envName envResult scs [[= <- <-]|[]] [= <-].
  split; [repeat constructor; intros []|].
  intros scenarioName sc st [[= <- <-]|[]] [= <-].
  repeat constructor; cbn; intuition discriminate.
Qed.

Lemma run_against_its_own_baseline_witness :
  distinct_keys (mixed_run slower faster faster faster)
  /\ exists v,
      validateAgainstBaseline
        (Some (mixed_run slower faster faster faster))
        (Some (extractBaselineStatistics (mixed_run slower faster faster faster))) = Ok v
      /\ passed v = true /\ score v = 100
      /\ regressions v = [] /\ improvements v = [].
Proof.
  split; [exact mixed_run_distinct_keys|].
  exact (run_against_its_own_baseline _ mixed_run_distinct_keys).
Defined.

End BaselineFacts.

(** ** The statistics of a scenario *)

Module RunnerFacts.
Import Extractor Reducer Runner Binary64 ExtractorFacts ExtractorLaws.

(** A number divided by itself is 1. *)
Lemma div_self (s : bool) (m : positive) (e : Z) :
  div (S754_finite s m e) (S754_finite s m e) = of_Z 1.
Proof.
  unfold div. rewrite SFdiv_finite. unfold div_exponent.
  replace (digits (Z.pos m) + e - (digits (Z.pos m) + e)) with 0 by lia.
  replace (e - e) with 0 by lia.
  change (Z.min (fexp 0) 0) with (-53). change (0 - -53) with 53.
  rewrite xorb_nilpotent.
  rewrite round_frac_finish by lia.
  assert (Z.pos m * 2 ^ 53 / Z.pos m = 2 ^ 53) as Hq
    by (rewrite Z.mul_comm; apply Z.div_mul; lia).
  rewrite Hq. change (shift_of (2 ^ 53) (-53)) with 1.
  change (2 ^ 1) with 2. change (-53 + 1) with (-52).
  assert (rne (Z.pos m * 2 ^ 53) (Z.pos m * 2) = 2 ^ 52) as ->.
  { change (2 ^ 53) with (2 ^ 52 * 2).
    replace (Z.pos m * (2 ^ 52 * 2)) with (2 ^ 52 * (Z.pos m * 2)) by ring.
    unfold rne. rewrite Z.mod_mul, Z.div_mul by lia. reflexivity. }
  reflexivity.
Qed.

Lemma of_nat_finite (n : nat) :
  (1 <= n)%nat -> Z.of_nat n < 2 ^ 53 ->
  exists m e, of_nat n = S754_finite false m e.
Proof.
  intros Hn Hlt. unfold of_nat. rewrite of_Z_small by lia. eauto.
Qed.

(** The sample sequences after the pushes of a list of leaves. *)
Lemma samples_push_all (leaves : list (string * number)) :
  forall m m', push_all leaves m = Ok m' ->
  forall path, samples path m' = samples path m ++ at_path path leaves.
Proof.
  induction leaves as [|[key v] rest IH]; intros m m' H path; cbn [push_all] in H.
  - injection H as <-. rewrite app_nil_r. reflexivity.
  - destruct (push_sample key v m) as [m1|] eqn:H1; [|discriminate]. cbn [bind] in H.
    rewrite (IH m1 m' H path), (samples_push_sample key path v m m1 H1), <- app_assoc.
    f_equal. unfold at_path. cbn [filter fst]. rewrite String.eqb_sym.
    destruct (String.eqb path key); reflexivity.
Qed.

Lemma count_of_record (values : list number) (st : Reducer.statistics) :
  calculateStatistics values = Some st -> count st = of_nat (List.length values).
Proof.
  unfold calculateStatistics. destruct values as [|v0 rest] eqn:E; [discriminate|].
  rewrite <- E. intros [= <-]. cbn [count]. rewrite ReducerFacts.sort_length. reflexivity.
Qed.

Lemma record_of_samples (values : list number) :
  values <> [] -> exists st, calculateStatistics values = Some st.
Proof. destruct values; [congruence|]. intros _. eexists. reflexivity. Qed.

Lemma NoDup_filter_keys {A : Type} (f : string * A -> bool) (l : list (string * A)) :
  NoDup (map fst l) -> NoDup (map fst (filter f l)).
Proof.
  induction l as [|[k a] tl IH]; intros Hnd; [constructor|].
  cbn [map fst] in Hnd. inversion Hnd as [|x l Hnot Htl]; subst.
  cbn [filter]. destruct (f (k, a)); [|apply IH; exact Htl].
  cbn [map fst]. constructor; [|apply IH; exact Htl].
  intros Hin. apply Hnot. apply in_map_iff in Hin. destruct Hin as ([k' a'] & <- & Hin).
  apply filter_In in Hin. apply in_map_iff. exists (k', a'). tauto.
Qed.

(** The numeric leaves at a path over the usable iterations of a run. *)
Definition leaves_at (path : string) (iterations : list object) : list number :=
  at_path path (run_leaves (filter usable iterations)).

(** The statistics of a scenario hold, for each path with a numeric leaf in
    some usable iteration (the three scalar names apart), a record, never
    [null], whose count is the number of such leaves; and nothing else. *)
Theorem scenario_metrics_are_records (iterations : list object) (s : scenario_stats) :
  calculateScenarioStatistics iterations = Ok (ScenarioStats s) ->
  (forall path st,
      In (path, st) (metric_stats s) ->
      Compare.includes scalars path = false
      /\ leaves_at path iterations <> []
      /\ st = calculateStatistics (leaves_at path iterations)
      /\ exists record,
          st = Some record
          /\ count record = of_nat (List.length (leaves_at path iterations)))
  /\ (forall path,
        leaves_at path iterations <> [] -> Compare.includes scalars path = false ->
        In (path, calculateStatistics (leaves_at path iterations)) (metric_stats s))
  /\ NoDup (map fst (metric_stats s)).
Proof.
  unfold calculateScenarioStatistics, leaves_at.
  set (validIterations := filter usable iterations).
  destruct validIterations as [|it0 rest] eqn:Hvalid; [discriminate|].
  rewrite <- Hvalid. clear Hvalid it0 rest.
  destruct (extractMetrics validIterations) as [metrics|] eqn:Hm; [|discriminate].
  cbn [bind]. intros [= <-]. cbn [metric_stats].
  destruct (extractMetrics_tidy validIterations metrics Hm) as (Hflat & Hnodup & Harr).
  rewrite flattenAll_push_all in Hflat.
  pose proof (samples_push_all _ _ _ Hflat) as Hsamples.
  assert (forall path arr, In (path, arr) metrics
                           -> arr = at_path path (run_leaves validIterations)) as Hsame.
  { intros path arr Hin. destruct (Harr path arr Hin) as (_ & _ & _ & Hl).
    specialize (Hsamples path). unfold samples in Hsamples. rewrite Hl in Hsamples.
    exact Hsamples. }
  split; [|split].
  - intros path st Hin. apply in_map_iff in Hin.
    destruct Hin as ([k arr] & [= <- <-] & Hin). apply filter_In in Hin.
    destruct Hin as [Hin Hk]. cbn [fst snd] in *.
    destruct (Harr k arr Hin) as (Hne & _).
    rewrite <- (Hsame k arr Hin).
    split; [apply negb_true_iff; exact Hk|]. split; [exact Hne|]. split; [reflexivity|].
    destruct (record_of_samples arr Hne) as [record Hrec].
    exists record. split; [exact Hrec | exact (count_of_record arr record Hrec)].
  - intros path Hne Hk.
    assert (In (path, at_path path (run_leaves validIterations)) metrics) as Hin.
    { specialize (Hsamples path). unfold samples in Hsamples. cbn [lookup app] in Hsamples.
      destruct (lookup path metrics) as [arr|] eqn:Hl; [|congruence]. subst arr.
      clear - Hl. induction metrics as [|[k a] tl IH]; [discriminate|].
      cbn [lookup] in Hl. destruct (String.eqb_spec k path) as [->|Hneq].
      - injection Hl as ->. left. reflexivity.
      - right. apply IH. exact Hl. }
    apply in_map_iff. exists (path, at_path path (run_leaves validIterations)).
    split; [reflexivity|]. apply filter_In. split; [exact Hin|].
    change (negb (Compare.includes scalars path) = true). rewrite Hk. reflexivity.
  - rewrite map_map. cbn [fst]. apply NoDup_filter_keys. exact Hnodup.
Qed.

(** *** The outcome and the success rate *)

Lemma outcome_cases (iterations : list object) :
  match calculateScenarioStatistics iterations with
  | Ok (NoValidIterations n) =>
      filter usable iterations = [] /\ n = of_nat (List.length iterations)
  | Ok (ScenarioStats s) =>
      filter usable iterations <> []
      /\ validRuns s = of_nat (List.length (filter usable iterations))
      /\ totalRuns s = of_nat (List.length iterations)
      /\ successRate s = mul (div (validRuns s) (totalRuns s)) hundred
  | TypeError =>
      filter usable iterations <> []
      /\ exists it path v,
          In it iterations /\ usable it = true
          /\ In (path, v) (object_leaves it "") /\ inherited path = true
  end.
Proof.
  unfold calculateScenarioStatistics.
  destruct (filter usable iterations) as [|it0 rest] eqn:Hvalid; [split; reflexivity|].
  rewrite <- Hvalid.
  assert (filter usable iterations <> []) as Hne by (rewrite Hvalid; discriminate).
  destruct (extractMetrics (filter usable iterations)) as [metrics|] eqn:Hm; cbn [bind].
  - cbn [validRuns totalRuns successRate]. auto.
  - split; [exact Hne|]. apply extractMetrics_TypeError in Hm.
    destruct Hm as (it & path & v & Hin & Hleaf & Hi). apply filter_In in Hin.
    exists it, path, v. tauto.
Qed.

(** What [calculateScenarioStatistics] returns: the error record when no
    iteration is usable; a [TypeError] when a usable iteration has a numeric
    leaf at a path inherited from [Object.prototype]; otherwise the
    statistics, with the counts of the usable and of all iterations. *)
Theorem scenario_statistics_outcome (iterations : list object) :
  match calculateScenarioStatistics iterations with
  | Ok (NoValidIterations n) =>
      filter usable iterations = [] /\ n = of_nat (List.length iterations)
  | Ok (ScenarioStats s) =>
      filter usable iterations <> []
      /\ validRuns s = of_nat (List.length (filter usable iterations))
      /\ totalRuns s = of_nat (List.length iterations)
      /\ successRate s = mul (div (validRuns s) (totalRuns s)) hundred
  | TypeError =>
      filter usable iterations <> []
      /\ exists it path v,
          In it iterations /\ usable it = true
          /\ In (path, v) (object_leaves it "") /\ inherited path = true
  end.
Proof. exact (outcome_cases iterations). Qed.

(** When every iteration of a scenario is usable the success rate is
    exactly 100. *)
Theorem clean_run_success_rate (iterations : list object) (s : scenario_stats) :
  forallb usable iterations = true ->
  Z.of_nat (List.length iterations) < 2 ^ 53 ->
  calculateScenarioStatistics iterations = Ok (ScenarioStats s) ->
  validRuns s = totalRuns s /\ successRate s = of_Z 100.
Proof.
  intros Hall Hlen Hs.
  assert (filter usable iterations = iterations) as Hfilter.
  { clear Hlen Hs. induction iterations as [|it rest IH]; [reflexivity|].
    cbn [forallb] in Hall. apply andb_true_iff in Hall. destruct Hall as [Hit Hrest].
    cbn [filter]. rewrite Hit, (IH Hrest). reflexivity. }
  pose proof (outcome_cases iterations) as H. rewrite Hs in H.
  destruct H as (Hne & Hv & Ht & Hr). rewrite Hfilter in Hv, Hne.
  split; [congruence|]. rewrite Hr, Hv, Ht.
  destruct (of_nat_finite (List.length iterations)) as (m & e & ->);
    [destruct iterations; [congruence | cbn; lia] | exact Hlen |].
  rewrite div_self. reflexivity.
Qed.

Definition iteration_of (n total : Z) : object :=
  [("iteration", VNum (of_Z n)); ("timing", VObj [("total", VNum (of_Z total))])].

Definition failed_iteration (n : Z) : object :=
  [("iteration", VNum (of_Z n)); ("error", VStr "net::ERR_CONNECTION_RESET");
   ("failed", VBool true)].

Definition clean_run : list object :=
  [iteration_of 1 369; iteration_of 2 403; iteration_of 3 381].

Definition clean_run_stats : scenario_stats :=
  {| metric_stats :=
       [("iteration", calculateStatistics [of_Z 1; of_Z 2; of_Z 3]);
        ("timing.total", calculateStatistics [of_Z 369; of_Z 403; of_Z 381])];
     validRuns := of_Z 3; totalRuns := of_Z 3; successRate := of_Z 100 |}.

Lemma clean_run_success_rate_witness :
  forallb usable clean_run = true
  /\ Z.of_nat (List.length clean_run) < 2 ^ 53
  /\ calculateScenarioStatistics clean_run = Ok (ScenarioStats clean_run_stats)
  /\ validRuns clean_run_stats = totalRuns clean_run_stats
  /\ successRate clean_run_stats = of_Z 100.
Proof.
  assert (H1 : forallb usable clean_run = true) by reflexivity.
  assert (H2 : Z.of_nat (List.length clean_run) < 2 ^ 53) by reflexivity.
  assert (H3 : calculateScenarioStatistics clean_run = Ok (ScenarioStats clean_run_stats))
    by (vm_compute; reflexivity).
  exact (conj H1 (conj H2 (conj H3 (clean_run_success_rate clean_run clean_run_stats H1 H2 H3)))).
Defined.

Lemma scenario_metrics_are_records_witness :
  calculateScenarioStatistics clean_run = Ok (ScenarioStats clean_run_stats)
  /\ (forall path st,
        In (path, st) (metric_stats clean_run_stats) ->
        Compare.includes scalars path = false
        /\ leaves_at path clean_run <> []
        /\ st = calculateStatistics (leaves_at path clean_run)
        /\ exists record,
            st = Some record
            /\ count record = of_nat (List.length (leaves_at path clean_run)))
  /\ (forall path,
        leaves_at path clean_run <> [] -> Compare.includes scalars path = false ->
        In (path, calculateStatistics (leaves_at path clean_run))
           (metric_stats clean_run_stats))
  /\ NoDup (map fst (metric_stats clean_run_stats)).
Proof.
  assert (H : calculateScenarioStatistics clean_run = Ok (ScenarioStats clean_run_stats))
    by (vm_compute; reflexivity).
  exact (conj H (scenario_metrics_are_records clean_run clean_run_stats H)).
Defined.

(** *** The summary of an environment *)

Lemma summary_loop_counts (scenarios : list (string * scenario_result)) :
  Forall (fun kv => has_error (snd kv) = false /\ statistics (snd kv) <> None) scenarios ->
  forall c, exists c',
    summary_loop scenarios c = Ok c'
    /\ successful c' = (successful c + List.length scenarios)%nat
    /\ scenarioCount c' = (scenarioCount c + List.length scenarios)%nat.
Proof.
  induction 1 as [|[name r] rest [He Hst] _ IH]; intros c; cbn [summary_loop].
  - exists c. cbn [List.length]. repeat split; lia.
  - unfold summary_step. cbn [snd] in *. rewrite He.
    destruct (statistics r) as [st|]; [|congruence]. cbn [bind].
    match goal with |- context [summary_loop rest ?c1] => destruct (IH c1) as (c' & Hc' & H1 & H2) end.
    exists c'. cbn [successful scenarioCount List.length] in *.
    split; [exact Hc'|]. split; lia.
Qed.

(** [runScenario] records a failure in the statistics of its result and
    never sets [error] on it: the summary of an environment counts every
    scenario that ran as successful, also one without a usable iteration. *)
Theorem every_scenario_counts_as_successful (scenarios : list (string * scenario_result)) :
  Forall (fun kv => exists iterations, runScenario_result iterations = Ok (snd kv))
         scenarios ->
  exists s,
    generateEnvironmentSummary scenarios = Ok s
    /\ totalScenarios s = List.length scenarios
    /\ successfulScenarios s = totalScenarios s.
Proof.
  intros Hran.
  assert (Forall (fun kv => has_error (snd kv) = false /\ statistics (snd kv) <> None)
                 scenarios) as Hok.
  { eapply Forall_impl; [|exact Hran]. intros [name r] [iterations Hr]. cbn [snd] in *.
    unfold runScenario_result in Hr.
    destruct (calculateScenarioStatistics iterations) as [st|]; [|discriminate].
    cbn [bind] in Hr. injection Hr as <-. split; [reflexivity | discriminate]. }
  unfold generateEnvironmentSummary.
  match goal with |- context [summary_loop scenarios ?c0] =>
    destruct (summary_loop_counts scenarios Hok c0) as (c' & -> & H1 & _) end.
  cbn [bind]. eexists. split; [reflexivity|].
  cbn [totalScenarios successfulScenarios successful] in *. split; [reflexivity | exact H1].
Qed.

Definition failed_scenario : scenario_result :=
  {| error := None; statistics := Some (NoValidIterations (of_Z 2)) |}.

Lemma every_scenario_counts_as_successful_witness :
  Forall (fun kv => exists iterations, runScenario_result iterations = Ok (snd kv))
         [("cold-start", failed_scenario)]
  /\ exists s,
      generateEnvironmentSummary [("cold-start", failed_scenario)] = Ok s
      /\ totalScenarios s = 1%nat
      /\ successfulScenarios s = totalScenarios s.
Proof.
  assert (H : Forall (fun kv => exists iterations, runScenario_result iterations = Ok (snd kv))
                     [("cold-start", failed_scenario)]).
  { repeat constructor. exists [failed_iteration 1; failed_iteration 2]. reflexivity. }
  exact (conj H (every_scenario_counts_as_successful _ H)).
Defined.

End RunnerFacts.

(** ** The sections of the validation *)

Module ChecksFacts.
Import Checks.

(** *** Reports *)

(** A report has failed exactly when it holds an issue. *)
Definition settled (r : report) : Prop := passed r = true <-> issues r = [].

(** The [type]s of the entries of a report. *)
Definition typed (issue_types warning_types : list string) (r : report) : Prop :=
  Forall (fun i => In (type i) issue_types) (issues r)
  /\ Forall (fun w => In (type w) warning_types) (warnings r).

(** A failure, once recorded, stays. *)
Definition still_failed (r r' : report) : Prop := passed r = false -> passed r' = false.

Lemma settled_start : settled start.
Proof. split; reflexivity. Qed.

Lemma settled_fail (i : entry) (r : report) : settled (fail i r).
Proof.
  split; cbn [passed issues fail]; [discriminate|].
  intros H. destruct (issues r); discriminate.
Qed.

Lemma settled_warn (w : entry) (r : report) : settled r -> settled (warn w r).
Proof. intros H. exact H. Qed.

Lemma typed_start (a b : list string) : typed a b start.
Proof. split; constructor. Qed.

Lemma typed_fail (a b : list string) (i : entry) (r : report) :
  In (type i) a -> typed a b r -> typed a b (fail i r).
Proof.
  intros Hi [H1 H2]. split; cbn [fail issues warnings]; [|exact H2].
  apply Forall_app. split; [exact H1 | repeat constructor; exact Hi].
Qed.

Lemma typed_warn (a b : list string) (w : entry) (r : report) :
  In (type w) b -> typed a b r -> typed a b (warn w r).
Proof.
  intros Hw [H1 H2]. split; cbn [warn issues warnings]; [exact H1|].
  apply Forall_app. split; [exact H2 | repeat constructor; exact Hw].
Qed.

Lemma failed_fail (i : entry) (r : report) : passed (fail i r) = false.
Proof. reflexivity. Qed.

Lemma passed_warn (w : entry) (r : report) : passed (warn w r) = passed r.
Proof. reflexivity. Qed.

(** A property of reports that every step of a loop keeps holds after the
    loop. *)
Lemma kept_by_fold {S A : Type} (P : S -> Prop) (step : S -> A -> S)
  (l : list A) :
  (forall r a, In a l -> P r -> P (step r a)) ->
  forall r, P r -> P (fold_left step l r).
Proof.
  induction l as [|a l IH]; intros Hstep r Hr; cbn [fold_left]; [exact Hr|].
  apply IH; [intros r' a' Hin; apply Hstep; right; exact Hin|].
  apply Hstep; [left; reflexivity | exact Hr].
Qed.

Lemma still_failed_fold {A : Type} (step : report -> A -> report) (l : list A) :
  (forall r a, still_failed r (step r a)) ->
  forall r, still_failed r (fold_left step l r).
Proof.
  intros Hstep. induction l as [|a l IH]; intros r; cbn [fold_left]; [intros H; exact H|].
  intros H. apply IH. apply Hstep. exact H.
Qed.

(** A loop fails when one of its steps fails whatever the report. *)
Lemma failing_step {A : Type} (step : report -> A -> report) (l : list A) (a : A) :
  (forall r b, still_failed r (step r b)) ->
  In a l -> (forall r, passed (step r a) = false) ->
  forall r, passed (fold_left step l r) = false.
Proof.
  intros Hkeep Hin Hfail. induction l as [|b l IH]; intros r; [destruct Hin|].
  cbn [fold_left]. destruct Hin as [->|Hin]; [|apply IH; exact Hin].
  apply (still_failed_fold step l Hkeep). apply Hfail.
Qed.

(** *** Execution *)

Definition execution_issue_types : list string :=
  ["execution_time"; "environment_error"; "scenario_error"; "insufficient_iterations"].

Definition execution_warning_types : list string :=
  ["execution_time"; "excessive_iterations"].

(** The run took more than ten times [maxExecutionTime]. *)
Definition too_long (x : run) : Prop :=
  exists d, duration x = Some d /\ gtb d (mul maxExecutionTime (of_Z 10)) = true.

(** What makes the execution fail. *)
Definition execution_fault (x : run) : Prop :=
  too_long x
  \/ exists envs envName envResult,
       results x = Some envs /\ In (envName, envResult) envs
       /\ (given (error envResult) = true
           \/ exists scs scenarioName sc,
                scenarios envResult = Some scs /\ In (scenarioName, sc) scs
                /\ (given (scenario_error sc) = true
                    \/ (iterationCount sc < minIterations)%nat)).

Lemma still_failed_execution_scenario (envName : string) (r : report)
  (item : string * scenario_result) :
  still_failed r (execution_scenario envName r item).
Proof.
  destruct item as [scenarioName sc]. unfold execution_scenario, still_failed.
  destruct (given (scenario_error sc)); destruct (iterationCount sc <? minIterations)%nat;
    try destruct (maxIterations <? iterationCount sc)%nat; cbn [passed fail warn]; auto.
Qed.

Lemma still_failed_execution_environment (r : report) (item : string * environment_result) :
  still_failed r (execution_environment r item).
Proof.
  destruct item as [envName envResult]. unfold execution_environment. intros H.
  assert (passed (if given (error envResult)
                  then fail {| type := "environment_error"; severity := "error";
                               environment := Some envName; scenario := None;
                               iteration := None; metric := None;
                               message := VStr ("Environment test failed: "
                                                +++ text (error envResult));
                               value := None; threshold := None; names := None |} r
                  else r) = false) as H1
    by (destruct (given (error envResult)); [reflexivity | exact H]).
  destruct (scenarios envResult) as [scs|]; [|exact H1].
  apply (still_failed_fold (execution_scenario envName) scs
           (still_failed_execution_scenario envName)). exact H1.
Qed.

(** The invariant of the loops of [validateExecution]. *)
Definition execution_invariant (x : run) (r : report) : Prop :=
  settled r
  /\ typed execution_issue_types execution_warning_types r
  /\ (passed r = false -> execution_fault x)
  /\ (forall i, In i (issues r) -> type i = "execution_time" -> too_long x).

Ltac in_types := cbn; tauto.

Lemma execution_invariant_fail (x : run) (i : entry) (r : report) :
  In (type i) execution_issue_types ->
  (type i = "execution_time" -> too_long x) ->
  execution_fault x ->
  execution_invariant x r -> execution_invariant x (fail i r).
Proof.
  intros Hi Htime Hfault (Hs & Ht & Hf & He).
  split; [apply settled_fail|]. split; [apply typed_fail; assumption|].
  split; [intros _; exact Hfault|].
  intros j Hj Hty. cbn [fail issues] in Hj. apply in_app_or in Hj.
  destruct Hj as [Hj|[<-|[]]]; [exact (He j Hj Hty) | exact (Htime Hty)].
Qed.

Lemma execution_invariant_warn (x : run) (w : entry) (r : report) :
  In (type w) execution_warning_types ->
  execution_invariant x r -> execution_invariant x (warn w r).
Proof.
  intros Hw (Hs & Ht & Hf & He).
  split; [exact Hs|]. split; [apply typed_warn; assumption|].
  split; [exact Hf | exact He].
Qed.

Lemma execution_invariant_start (x : run) : execution_invariant x start.
Proof.
  split; [apply settled_start|]. split; [apply typed_start|].
  split; [discriminate | intros i []].
Qed.

Lemma execution_scenario_invariant (x : run)
  (envs : list (string * environment_result)) (envName : string)
  (envResult : environment_result) (scs : list (string * scenario_result))
  (r : report) (item : string * scenario_result) :
  results x = Some envs -> In (envName, envResult) envs ->
  scenarios envResult = Some scs -> In item scs ->
  execution_invariant x r -> execution_invariant x (execution_scenario envName r item).
Proof.
  intros Hx Henv Hscs Hitem Hinv. destruct item as [scenarioName sc].
  assert (given (scenario_error sc) = true \/ (iterationCount sc < minIterations)%nat
          -> execution_fault x) as Hfault.
  { intros Hwhy. right. exists envs, envName, envResult. repeat split; try assumption.
    right. exists scs, scenarioName, sc. auto. }
  unfold execution_scenario.
  destruct (given (scenario_error sc)) eqn:Hg;
    destruct (iterationCount sc <? minIterations)%nat eqn:Hlow;
    try destruct (maxIterations <? iterationCount sc)%nat;
    repeat first
      [ exact Hinv
      | apply execution_invariant_warn; [in_types|]
      | apply execution_invariant_fail;
        [ in_types | discriminate
        | apply Hfault; first [left; reflexivity | right; apply Nat.ltb_lt; exact Hlow] | ] ].
Qed.

Lemma execution_environment_invariant (x : run)
  (envs : list (string * environment_result)) (r : report)
  (item : string * environment_result) :
  results x = Some envs -> In item envs ->
  execution_invariant x r -> execution_invariant x (execution_environment r item).
Proof.
  intros Hx Hitem Hinv. destruct item as [envName envResult]. unfold execution_environment.
  set (r1 := if given (error envResult) then fail _ r else r).
  assert (execution_invariant x r1) as H1.
  { unfold r1. destruct (given (error envResult)) eqn:Hg; [|exact Hinv].
    apply execution_invariant_fail; [in_types | discriminate | | exact Hinv].
    right. exists envs, envName, envResult. auto. }
  clearbody r1. destruct (scenarios envResult) as [scs|] eqn:Hscs; [|exact H1].
  apply (kept_by_fold (execution_invariant x)); [|exact H1].
  intros r' item Hin. apply (execution_scenario_invariant x envs envName envResult scs);
    assumption.
Qed.

Lemma validateExecution_invariant (x : run) : execution_invariant x (validateExecution x).
Proof.
  unfold validateExecution.
  set (r1 := match duration x with Some d => duration_check d start | None => start end).
  assert (execution_invariant x r1) as H1.
  { unfold r1. destruct (duration x) as [d|] eqn:Hd; [|apply execution_invariant_start].
    unfold duration_check.
    destruct (gtb d (mul maxExecutionTime (of_Z 10))) eqn:Hgt.
    - assert (too_long x) as Hlong by (exists d; auto).
      apply execution_invariant_fail;
        [in_types | intros _; exact Hlong | left; exact Hlong
        | apply execution_invariant_start].
    - destruct (gtb d (mul maxExecutionTime (of_Z 5))); [|apply execution_invariant_start].
      apply execution_invariant_warn; [in_types | apply execution_invariant_start]. }
  clearbody r1. destruct (results x) as [envs|] eqn:Hx; [|exact H1].
  apply (kept_by_fold (execution_invariant x)); [|exact H1].
  intros r' item Hin. apply (execution_environment_invariant x envs); assumption.
Qed.

(** The execution passes exactly when it records no issue, and fails exactly
    when the run took more than 300000 ms, or an environment or a scenario
    has an error, or a scenario has fewer than 3 iterations. *)
Theorem execution_verdict (x : run) :
  (passed (validateExecution x) = true <-> issues (validateExecution x) = [])
  /\ (passed (validateExecution x) = false <-> execution_fault x).
Proof.
  destruct (validateExecution_invariant x) as (Hs & _ & Hf & _).
  split; [exact Hs|]. split; [exact Hf|].
  unfold validateExecution.
  set (r1 := match duration x with Some d => duration_check d start | None => start end).
  intros [(d & Hd & Hgt) | (envs & envName & envResult & Hx & Hin & Hwhy)].
  - assert (passed r1 = false) as H1
      by (unfold r1, duration_check; rewrite Hd, Hgt; reflexivity).
    destruct (results x) as [envs|]; [|exact H1].
    apply (still_failed_fold execution_environment envs still_failed_execution_environment).
    exact H1.
  - rewrite Hx.
    apply (failing_step execution_environment envs (envName, envResult)
             still_failed_execution_environment Hin).
    intros r. unfold execution_environment.
    destruct Hwhy as [Hg | (scs & scenarioName & sc & Hscs & Hsc & Hwhy)].
    + rewrite Hg. destruct (scenarios envResult) as [scs|]; [|reflexivity].
      apply (still_failed_fold (execution_scenario envName) scs
               (still_failed_execution_scenario envName)). reflexivity.
    + rewrite Hscs.
      apply (failing_step (execution_scenario envName) scs (scenarioName, sc)
               (still_failed_execution_scenario envName) Hsc).
      intros r'. unfold execution_scenario.
      destruct Hwhy as [Hg | Hlow].
      * rewrite Hg. destruct (iterationCount sc <? minIterations)%nat; [reflexivity|].
        destruct (maxIterations <? iterationCount sc)%nat; reflexivity.
      * apply Nat.ltb_lt in Hlow. rewrite Hlow. reflexivity.
Qed.

(** *** Data quality *)

Import ExtractorFacts.

(** Every metric of an iteration has a number for value. *)
Lemma extractFromProperty_numbers (v : data) :
  forall fullKey, Forall (fun m => nullish (snd m) = false) (extractFromProperty v fullKey).
Proof.
  induction v as [| |b|n|s|items|fields IH] using value_fields_ind;
    intros fullKey; cbn [extractFromProperty]; try constructor.
  - reflexivity.
  - constructor.
  - induction IH as [|[key v'] rest Hv' _ IHrest]; [constructor|].
    apply Forall_app. split; [apply Hv' | apply IHrest].
Qed.

Lemma extractIterationMetrics_numbers (it : object) :
  Forall (fun m => nullish (snd m) = false) (extractIterationMetrics it).
Proof.
  induction it as [|[key v] rest IH]; cbn [extractIterationMetrics]; [constructor|].
  apply Forall_app. split; [apply extractFromProperty_numbers | exact IH].
Qed.

Lemma no_null_metric (envName scenarioName : string) (index : nat) (l : list named_value) :
  Forall (fun m => nullish (snd m) = false) l ->
  forall st, fold_left (null_metric_step envName scenarioName index) l st = st.
Proof.
  induction 1 as [|m rest Hm _ IH]; intros st; cbn [fold_left]; [reflexivity|].
  rewrite <- (IH st) at 2. f_equal. unfold null_metric_step. destruct st as [r c].
  rewrite Hm. reflexivity.
Qed.

Lemma isOutlier_never (it : object) (statistics : option Compare.statistics_object) :
  isOutlier it statistics = false.
Proof.
  unfold isOutlier. destruct statistics; [|reflexivity].
  destruct (negb (Runner.truthy (Runner.get "phases" it))); reflexivity.
Qed.

Definition failed_iteration_warning (envName scenarioName : string) (index : nat)
  (it : object) : entry :=
  {| type := "failed_iteration"; severity := "warning";
     environment := Some envName; scenario := Some scenarioName;
     iteration := Some (index + 1)%nat; metric := None;
     message :=
       if Runner.truthy (Runner.get "error" it) then Runner.get "error" it
       else VStr "Iteration failed";
     value := None; threshold := None; names := None |}.

(** The step on an iteration: a usable one is counted, another one is
    counted and reported; nothing else happens. *)
Lemma iteration_step_cases (envName scenarioName : string)
  (statistics : option Compare.statistics_object)
  (r : report) (c : quality_counters) (index : nat) (it : object) :
  iteration_step envName scenarioName statistics (r, c) index it
  = if Runner.usable it then
      (r, {| totalIterations := S (totalIterations c);
             validIterations := S (validIterations c);
             nullMetrics := nullMetrics c; outliers := outliers c |})
    else
      (warn (failed_iteration_warning envName scenarioName index it) r,
       {| totalIterations := S (totalIterations c);
          validIterations := validIterations c;
          nullMetrics := nullMetrics c; outliers := outliers c |}).
Proof.
  unfold iteration_step, Runner.usable.
  destruct (Runner.truthy (Runner.get "error" it)) eqn:He;
    destruct (Runner.truthy (Runner.get "failed" it)) eqn:Hf; cbn [orb negb andb];
    try (unfold failed_iteration_warning; rewrite He; reflexivity).
  rewrite no_null_metric by apply extractIterationMetrics_numbers.
  rewrite isOutlier_never. reflexivity.
Qed.

(** What a part of the walk over the iterations does to the state. *)
Definition walked (its : list object) (st st' : quality_state) : Prop :=
  passed (fst st') = passed (fst st)
  /\ issues (fst st') = issues (fst st)
  /\ (exists ws,
        warnings (fst st') = warnings (fst st) ++ ws
        /\ Forall (fun w => type w = "failed_iteration") ws
        /\ List.length ws = List.length (filter (fun it => negb (Runner.usable it)) its))
  /\ totalIterations (snd st') = (totalIterations (snd st) + List.length its)%nat
  /\ validIterations (snd st')
     = (validIterations (snd st) + List.length (filter Runner.usable its))%nat
  /\ nullMetrics (snd st') = nullMetrics (snd st)
  /\ outliers (snd st') = outliers (snd st).

Lemma walked_nil (st : quality_state) : walked [] st st.
Proof.
  repeat split; cbn [List.length filter]; try lia.
  exists []. rewrite app_nil_r. repeat split. constructor.
Qed.

Lemma walked_app (l1 l2 : list object) (st1 st2 st3 : quality_state) :
  walked l1 st1 st2 -> walked l2 st2 st3 -> walked (l1 ++ l2) st1 st3.
Proof.
  intros (Hp & Hi & (ws & Hw & Hty & Hn) & Ht & Hv & Hnull & Ho)
         (Hp' & Hi' & (ws' & Hw' & Hty' & Hn') & Ht' & Hv' & Hnull' & Ho').
  unfold walked. rewrite !filter_app, !length_app.
  split; [congruence|]. split; [congruence|]. split.
  - exists (ws ++ ws'). rewrite Hw', Hw, <- app_assoc, length_app.
    split; [reflexivity|]. split; [apply Forall_app; auto | lia].
  - repeat split; try lia; congruence.
Qed.

Lemma walked_iterations (envName scenarioName : string)
  (statistics : option Compare.statistics_object) (its : list object) :
  forall index st,
    walked its st (iterations_from envName scenarioName statistics index its st).
Proof.
  induction its as [|it rest IH]; intros index st; cbn [iterations_from].
  - apply walked_nil.
  - apply (walked_app [it] rest st
             (iteration_step envName scenarioName statistics st index it)); [|apply IH].
    destruct st as [r c]. rewrite iteration_step_cases.
    unfold walked. cbn [filter List.length fst snd].
    destruct (Runner.usable it); cbn [negb fst snd passed issues warnings warn
                                     totalIterations validIterations nullMetrics
                                     outliers List.length].
    + repeat split; try lia. exists []. rewrite app_nil_r. repeat split. constructor.
    + repeat split; try lia. eexists. split; [reflexivity|]. split; [|reflexivity].
      repeat constructor.
Qed.

(** The iterations of a run, over its environments and scenarios. *)
Definition scenario_iterations (scs : list (string * scenario_result)) : list object :=
  flat_map (fun item => match iterations (snd item) with Some its => its | None => [] end)
           scs.

Definition all_iterations (envs : list (string * environment_result)) : list object :=
  flat_map
    (fun item =>
       match scenarios (snd item) with
       | Some scs => scenario_iterations scs
       | None => []
       end)
    envs.

Lemma walked_scenarios (envName : string) (scs : list (string * scenario_result)) :
  forall st, walked (scenario_iterations scs) st (fold_left (quality_scenario envName) scs st).
Proof.
  induction scs as [|[scenarioName sc] rest IH]; intros st; cbn [fold_left].
  - apply walked_nil.
  - unfold scenario_iterations. cbn [flat_map snd].
    eapply walked_app; [|apply IH].
    unfold quality_scenario. destruct (iterations sc) as [its|].
    + apply walked_iterations.
    + apply walked_nil.
Qed.

Lemma walked_environments (envs : list (string * environment_result)) :
  forall st, walked (all_iterations envs) st (fold_left quality_environment envs st).
Proof.
  induction envs as [|[envName envResult] rest IH]; intros st; cbn [fold_left].
  - apply walked_nil.
  - unfold all_iterations. cbn [flat_map snd].
    eapply walked_app; [|apply IH].
    unfold quality_environment. destruct (scenarios envResult) as [scs|].
    + apply walked_scenarios.
    + apply walked_nil.
Qed.

(** The rate of valid data of a run. *)
Definition rate_of (its : list object) : number :=
  if (0 <? List.length its)%nat
  then mul (div (of_nat (List.length (filter Runner.usable its))) (of_nat (List.length its)))
           (of_Z 100)
  else zero.

Lemma data_quality_report (x : run) (envs : list (string * environment_result)) :
  results x = Some envs ->
  let its := all_iterations envs in
  exists r ws m,
    validateDataQuality x = (r, Some m)
    /\ q_totalIterations m = List.length its
    /\ q_validIterations m = List.length (filter Runner.usable its)
    /\ q_nullMetrics m = 0%nat /\ q_outliers m = 0%nat
    /\ validDataRate m = rate_of its
    /\ Forall (fun w => type w = "failed_iteration") ws
    /\ List.length ws = List.length (filter (fun it => negb (Runner.usable it)) its)
    /\ passed r = negb (ltb (rate_of its) (of_Z 80))
    /\ (if ltb (rate_of its) (of_Z 80)
        then exists i, issues r = [i] /\ type i = "low_data_quality"
                       /\ value i = Some (rate_of its)
                       /\ message i
                          = VStr ("Low valid data rate: " +++ toFixed 1 (rate_of its) +++ "%")
                       /\ warnings r = ws
        else issues r = []
             /\ if ltb (rate_of its) (of_Z 90)
                then exists w, warnings r = ws ++ [w] /\ type w = "moderate_data_quality"
                else warnings r = ws).
Proof.
  intros Hx its. unfold validateDataQuality. rewrite Hx.
  set (c0 := {| totalIterations := 0; validIterations := 0; nullMetrics := 0;
                outliers := 0 |}).
  pose proof (walked_environments envs (start, c0))
    as (Hp & Hi & (ws & Hw & Hty & Hn) & Ht & Hv & Hnull & Ho).
  destruct (fold_left quality_environment envs (start, c0)) as [r c].
  cbn [fst snd start passed issues warnings c0 totalIterations validIterations
       nullMetrics outliers Nat.add app] in *.
  fold its in Hn, Ht, Hv.
  assert ((if (0 <? totalIterations c)%nat
           then mul (div (of_nat (validIterations c)) (of_nat (totalIterations c))) (of_Z 100)
           else zero) = rate_of its) as Hrate
    by (unfold rate_of; rewrite Ht, Hv; reflexivity).
  rewrite Hrate.
  eexists _, ws, _. split; [reflexivity|].
  cbn [q_totalIterations q_validIterations q_nullMetrics q_outliers validDataRate].
  repeat (split; [assumption || reflexivity|]).
  destruct (ltb (rate_of its) (of_Z 80)) eqn:H80.
  - split; [reflexivity|]. eexists. cbn [fail issues warnings]. rewrite Hi, Hw.
    repeat split; reflexivity.
  - destruct (ltb (rate_of its) (of_Z 90)) eqn:H90.
    + split; [exact Hp|]. split; [exact Hi|]. eexists. cbn [warn warnings]. rewrite Hw.
      split; reflexivity.
    + split; [exact Hp|]. split; [exact Hi | exact Hw].
Qed.

(** The data quality of a run with results: the counters are those of the
    iterations of the run; the checks of the values of the metrics and of
    the outliers never fire, so the only warnings are one per iteration that
    failed, and one for a rate below 90; the report fails, with its only
    issue, exactly when the rate of valid data is below 80. *)
Theorem data_quality_findings (x : run) (envs : list (string * environment_result)) :
  results x = Some envs ->
  let its := all_iterations envs in
  exists r ws m,
    validateDataQuality x = (r, Some m)
    /\ q_totalIterations m = List.length its
    /\ q_validIterations m = List.length (filter Runner.usable its)
    /\ q_nullMetrics m = 0%nat /\ q_outliers m = 0%nat
    /\ validDataRate m = rate_of its
    /\ Forall (fun w => type w = "failed_iteration") ws
    /\ List.length ws = List.length (filter (fun it => negb (Runner.usable it)) its)
    /\ passed r = negb (ltb (rate_of its) (of_Z 80))
    /\ (if ltb (rate_of its) (of_Z 80)
        then exists i, issues r = [i] /\ type i = "low_data_quality"
                       /\ value i = Some (rate_of its)
                       /\ message i
                          = VStr ("Low valid data rate: " +++ toFixed 1 (rate_of its) +++ "%")
                       /\ warnings r = ws
        else issues r = []
             /\ if ltb (rate_of its) (of_Z 90)
                then exists w, warnings r = ws ++ [w] /\ type w = "moderate_data_quality"
                else warnings r = ws).
Proof. exact (data_quality_report x envs). Qed.

(** At the extremes: a run with results and no iteration at all fails the
    data quality with a rate of 0; a run all of whose iterations are usable
    has a rate of exactly 100 and a report without issue or warning. *)
Theorem data_quality_at_the_extremes (x : run) (envs : list (string * environment_result)) :
  results x = Some envs ->
  let r := fst (validateDataQuality x) in
  (all_iterations envs = [] ->
   passed r = false
   /\ exists i, issues r = [i] /\ type i = "low_data_quality" /\ value i = Some zero
                /\ message i = VStr "Low valid data rate: 0.0%")
  /\ (all_iterations envs <> [] ->
      forallb Runner.usable (all_iterations envs) = true ->
      Z.of_nat (List.length (all_iterations envs)) < 2 ^ 53 ->
      passed r = true /\ issues r = [] /\ warnings r = []
      /\ rate_of (all_iterations envs) = of_Z 100).
Proof.
  intros Hx r.
  destruct (data_quality_report x envs Hx)
    as (r' & ws & m & Hv & _ & _ & _ & _ & _ & Hty & Hn & Hp & Hcases).
  assert (r = r') as Hr by (unfold r; rewrite Hv; reflexivity).
  clearbody r. subst r.
  split.
  - intros Hnone. rewrite Hnone in *. change (rate_of []) with zero in *.
    change (ltb zero (of_Z 80)) with true in *. cbn [negb] in Hp.
    split; [exact Hp|]. destruct Hcases as (i & Hi & Hti & Hvi & Hmi & _).
    exists i. auto.
  - intros Hsome Hall Hlen.
    assert (filter Runner.usable (all_iterations envs) = all_iterations envs) as Hfilter.
    { clear - Hall. induction (all_iterations envs) as [|it rest IH]; [reflexivity|].
      cbn [forallb] in Hall. apply andb_true_iff in Hall. destruct Hall as [Hit Hrest].
      cbn [filter]. rewrite Hit, (IH Hrest). reflexivity. }
    assert (filter (fun it => negb (Runner.usable it)) (all_iterations envs) = []) as Hnone.
    { clear - Hall. induction (all_iterations envs) as [|it rest IH]; [reflexivity|].
      cbn [forallb] in Hall. apply andb_true_iff in Hall. destruct Hall as [Hit Hrest].
      cbn [filter]. rewrite Hit, (IH Hrest). reflexivity. }
    assert (rate_of (all_iterations envs) = of_Z 100) as Hrate.
    { unfold rate_of. rewrite Hfilter.
      assert (1 <= List.length (all_iterations envs))%nat as Hpos
        by (destruct (all_iterations envs); [congruence | cbn; lia]).
      destruct (Nat.ltb_spec 0 (List.length (all_iterations envs))); [|lia].
      destruct (RunnerFacts.of_nat_finite _ Hpos Hlen) as (mm & e & ->).
      rewrite RunnerFacts.div_self. reflexivity. }
    rewrite Hrate in *. change (ltb (of_Z 100) (of_Z 80)) with false in *.
    change (ltb (of_Z 100) (of_Z 90)) with false in *. cbn [negb] in Hp.
    rewrite Hnone in Hn. destruct ws; [|discriminate Hn].
    destruct Hcases as [Hi Hw]. auto.
Qed.

(** A run of one scenario with one failed iteration of three, one without
    iterations, and one whose three iterations are all usable. *)
Definition timed (total : Z) : object :=
  [("timing", VObj [("total", VNum (of_Z total))])].

Definition run_of (its : list object) : list (string * environment_result) :=
  [("local",
    {| error := None;
       scenarios :=
         Some [("cold-start",
                {| scenario_error := None; iterations := Some its; statistics := None |})];
       infrastructure := None |})].

Definition mixed_iterations : list object :=
  [timed 369; [("error", VStr "Navigation timeout")]; timed 403].

Definition usable_iterations : list object := [timed 369; timed 403; timed 381].

Definition with_results (envs : list (string * environment_result)) : run :=
  {| duration := Some (of_Z 1000); results := Some envs |}.

Lemma data_quality_findings_witness :
  results (with_results (run_of mixed_iterations)) = Some (run_of mixed_iterations)
  /\ let x := with_results (run_of mixed_iterations) in
     let its := all_iterations (run_of mixed_iterations) in
     exists r ws m,
       validateDataQuality x = (r, Some m)
       /\ q_totalIterations m = List.length its
       /\ q_validIterations m = List.length (filter Runner.usable its)
       /\ q_nullMetrics m = 0%nat /\ q_outliers m = 0%nat
       /\ validDataRate m = rate_of its
       /\ Forall (fun w => type w = "failed_iteration") ws
       /\ List.length ws = List.length (filter (fun it => negb (Runner.usable it)) its)
       /\ passed r = negb (ltb (rate_of its) (of_Z 80))
       /\ (if ltb (rate_of its) (of_Z 80)
           then exists i, issues r = [i] /\ type i = "low_data_quality"
                          /\ value i = Some (rate_of its)
                          /\ message i
                             = VStr ("Low valid data rate: " +++ toFixed 1 (rate_of its)
                                     +++ "%")
                          /\ warnings r = ws
           else issues r = []
                /\ if ltb (rate_of its) (of_Z 90)
                   then exists w, warnings r = ws ++ [w]
                                  /\ type w = "moderate_data_quality"
                   else warnings r = ws).
Proof.
  assert (H : results (with_results (run_of mixed_iterations))
              = Some (run_of mixed_iterations)) by reflexivity.
  exact (conj H (data_quality_findings (with_results (run_of mixed_iterations))
                   (run_of mixed_iterations) H)).
Defined.

Lemma data_quality_at_the_extremes_witness :
  (results (with_results (run_of [])) = Some (run_of [])
   /\ all_iterations (run_of []) = []
   /\ passed (fst (validateDataQuality (with_results (run_of [])))) = false
   /\ exists i, issues (fst (validateDataQuality (with_results (run_of [])))) = [i]
                /\ type i = "low_data_quality" /\ value i = Some zero
                /\ message i = VStr "Low valid data rate: 0.0%")
  /\ (results (with_results (run_of usable_iterations)) = Some (run_of usable_iterations)
      /\ all_iterations (run_of usable_iterations) <> []
      /\ forallb Runner.usable (all_iterations (run_of usable_iterations)) = true
      /\ Z.of_nat (List.length (all_iterations (run_of usable_iterations))) < 2 ^ 53
      /\ passed (fst (validateDataQuality (with_results (run_of usable_iterations)))) = true
      /\ issues (fst (validateDataQuality (with_results (run_of usable_iterations)))) = []
      /\ warnings (fst (validateDataQuality (with_results (run_of usable_iterations)))) = []
      /\ rate_of (all_iterations (run_of usable_iterations)) = of_Z 100).
Proof.
  assert (H0 : results (with_results (run_of [])) = Some (run_of [])) by reflexivity.
  assert (H1 : all_iterations (run_of []) = []) by reflexivity.
  assert (H2 : results (with_results (run_of usable_iterations))
               = Some (run_of usable_iterations)) by reflexivity.
  assert (H3 : all_iterations (run_of usable_iterations) <> []) by discriminate.
  assert (H4 : forallb Runner.usable (all_iterations (run_of usable_iterations)) = true)
    by reflexivity.
  assert (H5 : Z.of_nat (List.length (all_iterations (run_of usable_iterations))) < 2 ^ 53)
    by reflexivity.
  exact (conj
           (conj H0 (conj H1
              (proj1 (data_quality_at_the_extremes (with_results (run_of [])) (run_of []) H0)
                 H1)))
           (conj H2 (conj H3 (conj H4 (conj H5
              (proj2 (data_quality_at_the_extremes
                        (with_results (run_of usable_iterations))
                        (run_of usable_iterations) H2) H3 H4 H5)))))).
Defined.

(** *** Infrastructure *)

Definition infrastructure_issue_types : list string :=
  ["no_compression"; "low_security_score"].

Definition infrastructure_warning_types : list string :=
  ["cdn_inconsistency"; "compression_inconsistency"; "protocol_inconsistency";
   "no_cdn"; "poor_compression"; "no_http2"].

(** What makes the infrastructure of an environment fail. *)
Definition unsafe (infra : infrastructure_state) : Prop :=
  compression_enabled infra = false
  \/ exists sc, security_score infra = Some sc /\ ltb sc (of_Z 70) = true.

Definition infrastructure_fault (x : run) : Prop :=
  exists envs envName envResult infra,
    results x = Some envs /\ In (envName, envResult) envs
    /\ infrastructure envResult = Some infra /\ envName <> "__proto__"
    /\ unsafe infra.

Lemma infraConfigs_In (envs : list (string * environment_result))
  (envName : string) (infra : infrastructure_state) :
  In (envName, infra) (infraConfigs envs)
  <-> exists envResult,
        In (envName, envResult) envs /\ infrastructure envResult = Some infra
        /\ envName <> "__proto__".
Proof.
  unfold infraConfigs. rewrite in_flat_map. split.
  - intros ([name envResult] & Hin & H). cbn [fst snd] in H.
    destruct (infrastructure envResult) as [infra'|] eqn:Hi; [|destruct H].
    destruct (String.eqb_spec name "__proto__") as [->|Hne]; [destruct H|].
    destruct H as [[= -> ->]|[]]. exists envResult. auto.
  - intros (envResult & Hin & Hi & Hne). exists (envName, envResult). split; [exact Hin|].
    cbn [fst snd]. rewrite Hi. apply String.eqb_neq in Hne. rewrite Hne. left. reflexivity.
Qed.

Definition infrastructure_invariant (configs : list (string * infrastructure_state))
  (r : report) : Prop :=
  settled r
  /\ typed infrastructure_issue_types infrastructure_warning_types r
  /\ (passed r = false -> exists envName infra, In (envName, infra) configs /\ unsafe infra).

Lemma infrastructure_invariant_warn (configs : list (string * infrastructure_state))
  (w : entry) (r : report) :
  In (type w) infrastructure_warning_types ->
  infrastructure_invariant configs r -> infrastructure_invariant configs (warn w r).
Proof.
  intros Hw (Hs & Ht & Hf). split; [exact Hs|]. split; [apply typed_warn; assumption|].
  exact Hf.
Qed.

Lemma infrastructure_invariant_fail (configs : list (string * infrastructure_state))
  (i : entry) (r : report) :
  In (type i) infrastructure_issue_types ->
  (exists envName infra, In (envName, infra) configs /\ unsafe infra) ->
  infrastructure_invariant configs r -> infrastructure_invariant configs (fail i r).
Proof.
  intros Hi Hwhy (Hs & Ht & Hf). split; [apply settled_fail|].
  split; [apply typed_fail; assumption|]. intros _. exact Hwhy.
Qed.

Lemma infrastructure_invariant_start (configs : list (string * infrastructure_state)) :
  infrastructure_invariant configs start.
Proof.
  split; [apply settled_start|]. split; [apply typed_start | discriminate].
Qed.

Lemma detect_invariant (configs all : list (string * infrastructure_state)) (r : report) :
  infrastructure_invariant all r ->
  infrastructure_invariant all (detectInfrastructureInconsistencies configs r).
Proof.
  intros H. unfold detectInfrastructureInconsistencies, inconsistency.
  destruct (1 <? distinct_texts (cdnProviders configs))%nat;
    destruct (1 <? distinct_texts (compressionAlgorithms configs))%nat;
    destruct (1 <? distinct_flags [] (http2Support configs))%nat;
    repeat first [ exact H | apply infrastructure_invariant_warn; [in_types|] ].
Qed.

Lemma environment_infrastructure_invariant (all : list (string * infrastructure_state))
  (r : report) (item : string * infrastructure_state) :
  In item all ->
  infrastructure_invariant all r ->
  infrastructure_invariant all (validateEnvironmentInfrastructure r item).
Proof.
  intros Hin H. destruct item as [envName infra].
  unfold validateEnvironmentInfrastructure, about.
  assert (forall why : unsafe infra,
             exists envName' infra', In (envName', infra') all /\ unsafe infra') as Hwhy
    by (intros why; exists envName, infra; auto).
  destruct (cdn_detected infra); destruct (compression_enabled infra) eqn:Hc;
    try destruct (compression_is_poor infra); destruct (has_http2 infra);
    destruct (security_score infra) as [sc|] eqn:Hsc;
    try destruct (ltb sc (of_Z 70)) eqn:Hlow; cbn [negb];
    repeat first
      [ exact H
      | apply infrastructure_invariant_warn; [in_types|]
      | apply infrastructure_invariant_fail;
        [ in_types
        | apply Hwhy; first [left; assumption | right; exists sc; split; assumption] | ] ].
Qed.

Lemma still_failed_environment_infrastructure (r : report)
  (item : string * infrastructure_state) :
  still_failed r (validateEnvironmentInfrastructure r item).
Proof.
  destruct item as [envName infra]. unfold validateEnvironmentInfrastructure, still_failed.
  destruct (cdn_detected infra); destruct (compression_enabled infra);
    try destruct (compression_is_poor infra); destruct (has_http2 infra);
    destruct (security_score infra) as [sc|];
    try destruct (ltb sc (of_Z 70)); cbn [negb passed fail warn]; auto.
Qed.

Lemma unsafe_environment_fails (r : report) (envName : string)
  (infra : infrastructure_state) :
  unsafe infra -> passed (validateEnvironmentInfrastructure r (envName, infra)) = false.
Proof.
  intros Hwhy. unfold validateEnvironmentInfrastructure.
  destruct Hwhy as [Hc | (sc & Hsc & Hlow)].
  - rewrite Hc. cbn [negb].
    destruct (has_http2 infra); destruct (security_score infra) as [sc|];
      try destruct (ltb sc (of_Z 70)); reflexivity.
  - rewrite Hsc, Hlow. reflexivity.
Qed.

Lemma infrastructure_report (x : run) :
  (passed (validateInfrastructure x) = true <-> issues (validateInfrastructure x) = [])
  /\ (passed (validateInfrastructure x) = false <-> infrastructure_fault x)
  /\ typed infrastructure_issue_types infrastructure_warning_types
           (validateInfrastructure x).
Proof.
  unfold validateInfrastructure, infrastructure_fault.
  destruct (results x) as [envs|].
  - set (configs := infraConfigs envs).
    set (r1 := if (1 <? List.length envs)%nat
               then detectInfrastructureInconsistencies configs start else start).
    assert (infrastructure_invariant configs r1) as H1.
    { unfold r1. destruct (1 <? List.length envs)%nat;
        [apply detect_invariant|]; apply infrastructure_invariant_start. }
    pose proof (kept_by_fold (infrastructure_invariant configs)
                  validateEnvironmentInfrastructure configs
                  (fun r item Hin => environment_infrastructure_invariant configs r item Hin)
                  r1 H1) as (Hs & Ht & Hf).
    split; [exact Hs|]. split; [|exact Ht]. split.
    + intros Hfail. destruct (Hf Hfail) as (envName & infra & Hin & Hwhy).
      apply infraConfigs_In in Hin. destruct Hin as (envResult & Hin & Hi & Hne).
      exists envs, envName, envResult, infra. auto.
    + intros (envs' & envName & envResult & infra & [= <-] & Hin & Hi & Hne & Hwhy).
      apply (failing_step validateEnvironmentInfrastructure configs (envName, infra)
               still_failed_environment_infrastructure).
      * apply infraConfigs_In. exists envResult. auto.
      * intros r. apply unsafe_environment_fails. exact Hwhy.
  - split; [apply settled_start|]. split; [|apply typed_start].
    split; [discriminate|]. intros (envs & _ & _ & _ & H & _). discriminate H.
Qed.

(** The infrastructure passes exactly when it records no issue, and fails
    exactly when some environment with an infrastructure has no compression
    enabled or a security score below 70; its issues and warnings have the
    types listed. *)
Theorem infrastructure_verdict (x : run) :
  (passed (validateInfrastructure x) = true <-> issues (validateInfrastructure x) = [])
  /\ (passed (validateInfrastructure x) = false <-> infrastructure_fault x)
  /\ typed infrastructure_issue_types infrastructure_warning_types
           (validateInfrastructure x).
Proof. exact (infrastructure_report x). Qed.

(** *** Coverage *)

Lemma includes_In (l : list string) (name : string) :
  Compare.includes l name = true <-> In name l.
Proof.
  unfold Compare.includes. rewrite existsb_exists. split.
  - intros (y & Hin & Heq). apply String.eqb_eq in Heq. subst y. exact Hin.
  - intros Hin. exists name. split; [exact Hin | apply String.eqb_refl].
Qed.

Lemma set_of_In (l : list string) :
  forall seen name, In name (Compare.set_of seen l) <-> In name l /\ ~ In name seen.
Proof.
  induction l as [|y rest IH]; intros seen name; cbn [Compare.set_of].
  - cbn. tauto.
  - destruct (Compare.includes seen y) eqn:Hy.
    + apply includes_In in Hy. rewrite IH. cbn [In]. split; [tauto|].
      intros [[->|H] Hn]; [contradiction | tauto].
    + assert (~ In y seen) as Hny by (rewrite <- includes_In, Hy; discriminate).
      cbn [In]. rewrite IH. cbn [In].
      destruct (string_dec y name) as [->|Hne]; [tauto|]. tauto.
Qed.

Lemma set_of_NoDup (l : list string) : forall seen, NoDup (Compare.set_of seen l).
Proof.
  induction l as [|y rest IH]; intros seen; cbn [Compare.set_of]; [constructor|].
  destruct (Compare.includes seen y); [apply IH|].
  constructor; [|apply IH]. rewrite set_of_In. cbn [In]. tauto.
Qed.

(** The names of the scenarios of a run. *)
Definition ran (envs : list (string * environment_result)) (name : string) : Prop :=
  exists envName envResult scs sc,
    In (envName, envResult) envs /\ scenarios envResult = Some scs /\ In (name, sc) scs.

Lemma foundScenarios_In (envs : list (string * environment_result)) (name : string) :
  In name (foundScenarios envs) <-> ran envs name.
Proof.
  unfold foundScenarios, ran. rewrite set_of_In, in_flat_map. split.
  - intros [([envName envResult] & Hin & H) _]. cbn [snd] in H.
    destruct (scenarios envResult) as [scs|] eqn:Hscs; [|destruct H].
    apply in_map_iff in H. destruct H as ([n sc] & <- & Hsc).
    exists envName, envResult, scs, sc. auto.
  - intros (envName & envResult & scs & sc & Hin & Hscs & Hsc). split; [|intros []].
    exists (envName, envResult). split; [exact Hin|]. cbn [snd]. rewrite Hscs.
    apply in_map_iff. exists (name, sc). auto.
Qed.

(** The coverage never fails and records no issue: without results it is
    silent, and with results it warns, once, exactly when one of the four
    expected scenarios ran in no environment.  It counts the distinct names
    of all the scenarios that ran, expected or not. *)
Theorem coverage_only_warns (x : run) :
  passed (fst (validateCoverage x)) = true
  /\ issues (fst (validateCoverage x)) = []
  /\ match results x with
     | None => warnings (fst (validateCoverage x)) = [] /\ snd (validateCoverage x) = None
     | Some envs =>
         (warnings (fst (validateCoverage x)) = []
          <-> forall name, In name expectedScenarios -> ran envs name)
         /\ (List.length (warnings (fst (validateCoverage x))) <= 1)%nat
         /\ exists m,
             snd (validateCoverage x) = Some m
             /\ c_expectedScenarios m = 4%nat
             /\ c_foundScenarios m = List.length (foundScenarios envs)
             /\ NoDup (foundScenarios envs)
             /\ (forall name, In name (foundScenarios envs) <-> ran envs name)
             /\ (c_missingScenarios m
                 + List.length (filter (Compare.includes (foundScenarios envs))
                                       expectedScenarios) = 4)%nat
  end.
Proof.
  unfold validateCoverage. destruct (results x) as [envs|]; cbn [fst snd];
    [|repeat split; reflexivity].
  set (missing := missingScenarios envs).
  assert (missing = [] <-> forall name, In name expectedScenarios -> ran envs name) as Hm.
  { unfold missing, missingScenarios. split.
    - intros Hnil name Hin. apply foundScenarios_In. apply includes_In.
      destruct (Compare.includes (foundScenarios envs) name) eqn:E; [reflexivity|].
      assert (In name (filter (fun n => negb (Compare.includes (foundScenarios envs) n))
                              expectedScenarios)) as Habs
        by (apply filter_In; rewrite E; auto).
      rewrite Hnil in Habs. destruct Habs.
    - intros Hall.
      destruct (filter _ expectedScenarios) as [|name rest] eqn:E; [reflexivity|].
      assert (In name (name :: rest)) as Hin by (left; reflexivity).
      rewrite <- E in Hin. apply filter_In in Hin. destruct Hin as [Hin Hnot].
      apply Hall, foundScenarios_In, includes_In in Hin. rewrite Hin in Hnot. discriminate. }
  destruct missing as [|name rest] eqn:E; cbn [List.length Nat.ltb Nat.leb].
  - fold missing in Hm. split; [reflexivity|]. split; [reflexivity|].
    split; [split; [intros _; apply Hm; reflexivity | reflexivity]|].
    split; [cbn; lia|]. eexists. split; [reflexivity|].
    cbn [c_expectedScenarios c_foundScenarios c_missingScenarios].
    split; [reflexivity|]. split; [reflexivity|]. split; [apply set_of_NoDup|].
    split; [apply foundScenarios_In|].
    pose proof (filter_length (Compare.includes (foundScenarios envs)) expectedScenarios) as Hl.
    unfold missing, missingScenarios in E.
    apply (f_equal (@List.length string)) in E. cbn [List.length] in E.
    change (List.length expectedScenarios) with 4%nat in Hl. lia.
  - split; [reflexivity|]. split; [reflexivity|].
    split; [split; [discriminate | intros Hall; apply Hm in Hall; discriminate Hall]|].
    split; [cbn; lia|]. eexists. split; [reflexivity|].
    cbn [c_expectedScenarios c_foundScenarios c_missingScenarios].
    split; [reflexivity|]. split; [reflexivity|]. split; [apply set_of_NoDup|].
    split; [apply foundScenarios_In|].
    pose proof (filter_length (Compare.includes (foundScenarios envs)) expectedScenarios) as Hl.
    unfold missing, missingScenarios in E.
    apply (f_equal (@List.length string)) in E. cbn [List.length] in E.
    change (List.length expectedScenarios) with 4%nat in Hl.
    cbn [List.length]. lia.
Qed.

(** *** Statistics *)

Definition statistics_issue_types : list string :=
  ["high_variability"; "low_success_rate"].

(** A metric of the run with a coefficient of variation above 20. *)
Definition unstable_in (input : list (string * Validation.environment_result)) : Prop :=
  exists envName envResult scs scenarioName sc st metricName s c,
    In (envName, envResult) input /\ Validation.scenarios envResult = Some scs
    /\ In (scenarioName, sc) scs /\ Compare.statistics sc = Some st
    /\ In (metricName, Compare.MetricStats s) st
    /\ Compare.cv s = Some c /\ gtb c (of_Z 20) = true.

Definition statistics_invariant (input : list (string * Validation.environment_result))
  (r : Validation.report) : Prop :=
  Forall (fun i => In (Validation.type i) statistics_issue_types) (Validation.issues r)
  /\ (forall i, In i (Validation.issues r) ->
                Validation.type i = "high_variability" -> unstable_in input).

Lemma statistics_invariant_issue (input : list (string * Validation.environment_result))
  (i : Validation.issue) (fails : bool) (r : Validation.report) :
  In (Validation.type i) statistics_issue_types ->
  (Validation.type i = "high_variability" -> unstable_in input) ->
  statistics_invariant input r ->
  statistics_invariant input (Validation.add_issue i fails r).
Proof.
  intros Hi Hwhy [Ht Hu]. split; cbn [Validation.add_issue Validation.issues].
  - apply Forall_app. split; [exact Ht | constructor; [exact Hi | constructor]].
  - intros j Hj Hty. apply in_app_or in Hj.
    destruct Hj as [Hj|[<-|[]]]; [exact (Hu j Hj Hty) | exact (Hwhy Hty)].
Qed.

Lemma statistics_invariant_warning (input : list (string * Validation.environment_result))
  (w : Validation.issue) (r : Validation.report) :
  statistics_invariant input r -> statistics_invariant input (Validation.add_warning w r).
Proof. intros H. exact H. Qed.

Lemma twice_the_threshold :
  mul Validation.coefficientOfVariation (of_Z 2) = of_Z 20.
Proof. reflexivity. Qed.

Lemma metric_check_invariant (input : list (string * Validation.environment_result))
  (envName : string) (envResult : Validation.environment_result)
  (scs : list (string * Compare.scenario)) (scenarioName : string) (sc : Compare.scenario)
  (stats : Compare.statistics_object) (st : Validation.state)
  (item : string * Compare.stat_entry) :
  In (envName, envResult) input -> Validation.scenarios envResult = Some scs ->
  In (scenarioName, sc) scs -> Compare.statistics sc = Some stats -> In item stats ->
  statistics_invariant input (fst st) ->
  statistics_invariant input (fst (Validation.metric_check envName scenarioName st item)).
Proof.
  intros Henv Hscs Hsc Hstats Hitem Hinv. destruct item as [metricName e], st as [r c].
  unfold Validation.metric_check. destruct e as [s| |]; try exact Hinv.
  destruct (Compare.cv s) as [cv|] eqn:Hcv; [|exact Hinv].
  rewrite twice_the_threshold.
  destruct (gtb cv (of_Z 20)) eqn:Hhigh;
    [|destruct (gtb cv Validation.coefficientOfVariation)];
    destruct (ltb (Compare.count s) (of_Z 5)); cbn [fst] in *;
    repeat first
      [ exact Hinv
      | apply statistics_invariant_warning
      | apply statistics_invariant_issue;
        [ cbn; tauto
        | intros _; exists envName, envResult, scs, scenarioName, sc, stats, metricName, s, cv;
          repeat (split; [assumption|]); assumption
        | ] ].
Qed.

Lemma scenario_check_invariant (input : list (string * Validation.environment_result))
  (envName : string) (envResult : Validation.environment_result)
  (scs : list (string * Compare.scenario)) (st : Validation.state)
  (item : string * Compare.scenario) :
  In (envName, envResult) input -> Validation.scenarios envResult = Some scs ->
  In item scs ->
  statistics_invariant input (fst st) ->
  statistics_invariant input (fst (Validation.scenario_check envName st item)).
Proof.
  intros Henv Hscs Hitem Hinv. destruct item as [scenarioName sc].
  unfold Validation.scenario_check.
  destruct (Compare.statistics sc) as [stats|] eqn:Hstats; [|exact Hinv].
  pose proof (kept_by_fold (fun st' => statistics_invariant input (fst st'))
                (Validation.metric_check envName scenarioName) stats
                (fun st' item Hin =>
                   metric_check_invariant input envName envResult scs scenarioName sc
                     stats st' item Henv Hscs Hitem Hstats Hin)
                st Hinv) as H.
  match goal with
  | |- context [fold_left ?f ?l ?s] =>
      set (final := fold_left f l s); change (statistics_invariant input (fst final)) in H
  end.
  clearbody final. destruct final as [r c]. cbn [fst] in *. unfold Validation.success_rate_check.
  destruct (Validation.reported_success_rate stats) as [rate|]; [|exact H].
  destruct (ltb rate Validation.successRateThreshold); [|exact H].
  apply statistics_invariant_issue; [cbn; tauto | discriminate | exact H].
Qed.

Lemma validateStatistics_invariant (input : list (string * Validation.environment_result)) :
  statistics_invariant input (fst (Validation.validateStatistics (Some input))).
Proof.
  unfold Validation.validateStatistics.
  apply (kept_by_fold (fun st => statistics_invariant input (fst st))).
  - intros st [envName envResult] Hin Hinv. unfold Validation.environment_check.
    destruct (Validation.scenarios envResult) as [scs|] eqn:Hscs; [|exact Hinv].
    apply (kept_by_fold (fun st' => statistics_invariant input (fst st'))); [|exact Hinv].
    intros st' item Hitem. apply (scenario_check_invariant input envName envResult scs);
      assumption.
  - split; [constructor | intros i []].
Qed.

(** The report holds an issue for a metric that varies too much. *)
Definition flagged (r : Validation.report) : Prop :=
  exists i, In i (Validation.issues r) /\ Validation.type i = "high_variability".

Lemma flagged_keeps (r r' : Validation.report) :
  ValidationFacts.keeps r r' -> flagged r -> flagged r'.
Proof. intros [_ Hk] (i & Hi & Hty). exists i. split; [apply Hk; exact Hi | exact Hty]. Qed.

(** A loop reaches what one of its steps establishes and every step keeps. *)
Lemma reached_by_fold {S A : Type} (P : S -> Prop) (step : S -> A -> S)
  (l : list A) (a : A) :
  (forall s b, P s -> P (step s b)) ->
  In a l -> (forall s, P (step s a)) ->
  forall s, P (fold_left step l s).
Proof.
  intros Hkeep Hin Hhere. induction l as [|b l IH]; intros s; [destruct Hin|].
  cbn [fold_left]. destruct Hin as [->|Hin]; [|apply IH; exact Hin].
  apply (kept_by_fold P step l); [intros s' b _; apply Hkeep | apply Hhere].
Qed.

Lemma unstable_metric_flagged (envName scenarioName metricName : string)
  (s : Compare.stats) (c : number) (st : Validation.state) :
  Compare.cv s = Some c -> gtb c (of_Z 20) = true ->
  flagged (fst (Validation.metric_check envName scenarioName st
                  (metricName, Compare.MetricStats s))).
Proof.
  intros Hcv Hhigh. destruct st as [r c0]. unfold Validation.metric_check.
  rewrite Hcv, twice_the_threshold, Hhigh.
  destruct (ltb (Compare.count s) (of_Z 5)); cbn [fst];
    eexists; (split; [cbn [Validation.add_issue Validation.add_warning Validation.issues];
                      apply in_or_app; right; left; reflexivity | reflexivity]).
Qed.

Lemma unstable_flagged (input : list (string * Validation.environment_result)) :
  unstable_in input -> flagged (fst (Validation.validateStatistics (Some input))).
Proof.
  intros (envName & envResult & scs & scenarioName & sc & stats & metricName & s & c
          & Henv & Hscs & Hsc & Hstats & Hm & Hcv & Hhigh).
  unfold Validation.validateStatistics.
  apply (reached_by_fold (fun st => flagged (fst st)) Validation.environment_check
           input (envName, envResult)); [| exact Henv |].
  - intros st b. apply flagged_keeps, ValidationFacts.keeps_environment_check.
  - intros st. unfold Validation.environment_check. rewrite Hscs.
    apply (reached_by_fold (fun st' => flagged (fst st')) (Validation.scenario_check envName)
             scs (scenarioName, sc)); [| exact Hsc |].
    + intros st' b. apply flagged_keeps, ValidationFacts.keeps_scenario_check.
    + intros st'. unfold Validation.scenario_check. rewrite Hstats.
      pose proof (reached_by_fold (fun st2 => flagged (fst st2))
                    (Validation.metric_check envName scenarioName) stats
                    (metricName, Compare.MetricStats s)
                    (fun st2 b =>
                       flagged_keeps _ _
                         (ValidationFacts.keeps_metric_check envName scenarioName st2 b))
                    Hm
                    (fun st2 =>
                       unstable_metric_flagged envName scenarioName metricName s c st2
                         Hcv Hhigh)
                    st') as H.
      match goal with
      | |- context [fold_left ?f ?l ?s] =>
          set (final := fold_left f l s); change (flagged (fst final)) in H
      end.
      clearbody final. destruct final as [r c0]. cbn [fst] in *.
      exact (flagged_keeps _ _
               (ValidationFacts.keeps_success_rate_check envName scenarioName
                  (Validation.reported_success_rate stats) r) H).
Qed.

(** A metric of the run with a coefficient of variation above 20. *)
Definition unstable (x : run) : Prop :=
  exists envs envName envResult scs scenarioName sc st metricName s c,
    results x = Some envs /\ In (envName, envResult) envs
    /\ scenarios envResult = Some scs /\ In (scenarioName, sc) scs
    /\ statistics sc = Some st /\ In (metricName, Compare.MetricStats s) st
    /\ Compare.cv s = Some c /\ gtb c (of_Z 20) = true.

Lemma unstable_input (x : run) :
  unstable x <-> exists input, statistics_input x = Some input /\ unstable_in input.
Proof.
  unfold statistics_input. split.
  - intros (envs & envName & envResult & scs & scenarioName & sc & st & metricName & s & c
            & Hx & Henv & Hscs & Hsc & Hst & Hm & Hcv & Hhigh).
    rewrite Hx. eexists. split; [reflexivity|].
    eexists envName, _, _, scenarioName, _, st, metricName, s, c.
    split; [apply in_map_iff; exists (envName, envResult); split; [reflexivity | exact Henv]|].
    cbn [Validation.scenarios fst snd]. rewrite Hscs. split; [reflexivity|].
    split; [apply in_map_iff; exists (scenarioName, sc); split; [reflexivity | exact Hsc]|].
    cbn [Compare.statistics snd]. auto.
  - intros (input & Hinput & envName & envResult & scs & scenarioName & sc & st
            & metricName & s & c & Henv & Hscs & Hsc & Hst & Hm & Hcv & Hhigh).
    destruct (results x) as [envs|] eqn:Hx; [|discriminate Hinput].
    injection Hinput as <-.
    apply in_map_iff in Henv. destruct Henv as ([envName' envResult'] & [= <- <-] & Henv).
    cbn [Validation.scenarios fst snd] in Hscs.
    destruct (scenarios envResult') as [scs'|] eqn:Hscs'; [|discriminate Hscs].
    injection Hscs as <-.
    apply in_map_iff in Hsc. destruct Hsc as ([scenarioName' sc'] & [= <- <-] & Hsc).
    cbn [Compare.statistics snd] in Hst.
    exists envs, envName', envResult', scs', scenarioName', sc', st, metricName, s, c.
    repeat (split; [assumption|]). assumption.
Qed.

(** *** Recommendations *)

(** An issue of the report with a type. *)
Definition recorded (ty : string) (r : report) : Prop :=
  exists i, In i (issues r) /\ type i = ty.

Lemma recorded_fail (ty : string) (i : entry) (r : report) :
  recorded ty r -> recorded ty (fail i r).
Proof.
  intros (j & Hj & Hty). exists j. split; [|exact Hty].
  cbn [fail issues]. apply in_or_app. left. exact Hj.
Qed.

Lemma recorded_execution_scenario (ty envName : string) (r : report)
  (item : string * scenario_result) :
  recorded ty r -> recorded ty (execution_scenario envName r item).
Proof.
  intros H. destruct item as [scenarioName sc]. unfold execution_scenario.
  destruct (given (scenario_error sc)); destruct (iterationCount sc <? minIterations)%nat;
    try destruct (maxIterations <? iterationCount sc)%nat;
    repeat first [ exact H | apply recorded_fail ].
Qed.

Lemma recorded_execution_environment (ty : string) (r : report)
  (item : string * environment_result) :
  recorded ty r -> recorded ty (execution_environment r item).
Proof.
  intros H. destruct item as [envName envResult]. unfold execution_environment.
  set (r1 := if given (error envResult) then fail _ r else r).
  assert (recorded ty r1) as H1
    by (unfold r1; destruct (given (error envResult)); [apply recorded_fail|]; exact H).
  clearbody r1. destruct (scenarios envResult) as [scs|]; [|exact H1].
  apply (kept_by_fold (recorded ty)); [|exact H1].
  intros r' item' _. apply recorded_execution_scenario.
Qed.

Lemma too_long_recorded (x : run) :
  too_long x -> recorded "execution_time" (validateExecution x).
Proof.
  intros (d & Hd & Hgt). unfold validateExecution. rewrite Hd.
  assert (recorded "execution_time" (duration_check d start)) as H1.
  { unfold duration_check. rewrite Hgt. eexists. split; [left; reflexivity | reflexivity]. }
  destruct (results x) as [envs|]; [|exact H1].
  apply (kept_by_fold (recorded "execution_time")); [|exact H1].
  intros r item _. apply recorded_execution_environment.
Qed.

(** No text of a list has a part: the texts allowed are checked one by
    one. *)
Lemma no_match (f : string -> bool) (allowed l : list string) :
  Forall (fun t => In t allowed) l ->
  forallb (fun t => negb (f t)) allowed = true ->
  existsb f l = false.
Proof.
  intros Hl Hallowed. rewrite forallb_forall in Hallowed.
  induction Hl as [|t l Ht _ IH]; [reflexivity|].
  cbn [existsb]. rewrite IH, orb_false_r.
  specialize (Hallowed t Ht). destruct (f t); [discriminate Hallowed | reflexivity].
Qed.

Lemma types_of (allowed : list string) (l : list entry) :
  Forall (fun i => In (type i) allowed) l -> Forall (fun t => In t allowed) (map type l).
Proof. intros H. apply Forall_map. exact H. Qed.

Lemma existsb_types (f : string -> bool) (l : list entry) :
  existsb f (map type l) = true <-> exists i, In i l /\ f (type i) = true.
Proof.
  rewrite existsb_exists. split.
  - intros (t & Ht & Hf). apply in_map_iff in Ht. destruct Ht as (i & <- & Hi). eauto.
  - intros (i & Hi & Hf). exists (type i). split; [apply in_map; exact Hi | exact Hf].
Qed.

(** The issues of the five sections, by the part of their type that a
    recommendation looks for. *)
Lemma execution_types (x : run) (f : string -> bool) :
  f "environment_error" = false -> f "scenario_error" = false ->
  f "insufficient_iterations" = false ->
  existsb f (map type (issues (validateExecution x))) = true
  <-> f "execution_time" = true /\ too_long x.
Proof.
  intros H1 H2 H3. destruct (validateExecution_invariant x) as (_ & [Ht _] & _ & Hlong).
  rewrite existsb_types. split.
  - intros (i & Hi & Hf). rewrite Forall_forall in Ht. specialize (Ht i Hi).
    cbn [In execution_issue_types] in Ht.
    destruct Ht as [Ht|[Ht|[Ht|[Ht|[]]]]]; rewrite <- Ht in Hf; try congruence.
    split; [exact Hf | apply (Hlong i Hi); symmetry; exact Ht].
  - intros [Hf Hl]. destruct (too_long_recorded x Hl) as (i & Hi & Hty).
    exists i. rewrite Hty. auto.
Qed.

Lemma statistics_types (x : run) (f : string -> bool) :
  f "low_success_rate" = false ->
  existsb f (map Validation.type
               (Validation.issues (fst (Validation.validateStatistics (statistics_input x)))))
  = true
  <-> f "high_variability" = true /\ unstable x.
Proof.
  intros H1. rewrite unstable_input.
  destruct (statistics_input x) as [input|].
  - destruct (validateStatistics_invariant input) as [Ht Hu].
    rewrite existsb_exists. split.
    + intros (t & Hin & Hf). apply in_map_iff in Hin. destruct Hin as (i & <- & Hi).
      rewrite Forall_forall in Ht. specialize (Ht i Hi).
      cbn [In statistics_issue_types] in Ht.
      destruct Ht as [Ht|[Ht|[]]]; rewrite <- Ht in Hf; try congruence.
      split; [exact Hf|]. exists input. split; [reflexivity|].
      apply (Hu i Hi). symmetry. exact Ht.
    + intros [Hf (input' & [= <-] & Hun)].
      destruct (unstable_flagged input Hun) as (i & Hi & Hty).
      exists (Validation.type i). split; [apply in_map; exact Hi | rewrite Hty; exact Hf].
  - split; [discriminate|]. intros [_ (input & Habs & _)]. discriminate Habs.
Qed.

Lemma data_quality_types (x : run) (f : string -> bool) :
  existsb f (map type (issues (fst (validateDataQuality x)))) = true
  <-> f "low_data_quality" = true /\ passed (fst (validateDataQuality x)) = false.
Proof.
  destruct (results x) as [envs|] eqn:Hx.
  - destruct (data_quality_report x envs Hx)
      as (r & ws & m & Hv & _ & _ & _ & _ & _ & _ & _ & Hp & Hcases).
    rewrite Hv. cbn [fst]. rewrite Hp.
    destruct (ltb (rate_of (all_iterations envs)) (of_Z 80)).
    + destruct Hcases as (i & Hi & Hty & _). rewrite Hi. cbn [map existsb negb].
      rewrite Hty, orb_false_r. tauto.
    + destruct Hcases as [Hi _]. rewrite Hi. cbn.
      split; [discriminate | intros [_ H]; discriminate H].
  - unfold validateDataQuality. rewrite Hx. cbn.
    split; [discriminate | intros [_ H]; discriminate H].
Qed.

Lemma infrastructure_types (x : run) (f : string -> bool) :
  f "no_compression" = true -> f "low_security_score" = true ->
  existsb f (map type (issues (validateInfrastructure x))) = true
  <-> passed (validateInfrastructure x) = false.
Proof.
  intros H1 H2. destruct (infrastructure_report x) as (Hs & _ & [Ht _]).
  destruct (issues (validateInfrastructure x)) as [|i rest] eqn:Hi.
  - cbn. destruct Hs as [_ Hs]. rewrite (Hs eq_refl). split; discriminate.
  - assert (passed (validateInfrastructure x) = false) as Hp.
    { destruct (passed (validateInfrastructure x)); [|reflexivity].
      destruct Hs as [Hs _]. discriminate (Hs eq_refl). }
    rewrite Hp. split; [reflexivity|]. intros _. cbn [map existsb].
    apply Forall_inv in Ht. cbn [In infrastructure_issue_types] in Ht.
    destruct Ht as [Ht|[Ht|[]]]; rewrite <- Ht; [rewrite H1 | rewrite H2]; reflexivity.
Qed.

Lemma infrastructure_no_match (x : run) (f : string -> bool) :
  f "no_compression" = false -> f "low_security_score" = false ->
  existsb f (map type (issues (validateInfrastructure x))) = false.
Proof.
  intros H1 H2. destruct (infrastructure_report x) as (_ & _ & [Ht _]).
  apply (no_match f infrastructure_issue_types); [apply types_of; exact Ht|].
  cbn. rewrite H1, H2. reflexivity.
Qed.

Lemma coverage_types (x : run) : issues (fst (validateCoverage x)) = [].
Proof.
  unfold validateCoverage. destruct (results x) as [envs|]; [|reflexivity].
  cbn [fst]. destruct (0 <? List.length (missingScenarios envs))%nat; reflexivity.
Qed.

(** The part of the types of the issues of the whole report that a
    recommendation looks for. *)
Lemma looked_for (x : run) (f : string -> bool) :
  existsb f (issue_types x)
  = existsb f (map type (issues (validateExecution x)))
    || existsb f (map Validation.type
                    (Validation.issues
                       (fst (Validation.validateStatistics (statistics_input x)))))
    || existsb f (map type (issues (fst (validateDataQuality x))))
    || existsb f (map type (issues (validateInfrastructure x))).
Proof.
  unfold issue_types. rewrite !existsb_app, coverage_types. cbn [map existsb].
  rewrite orb_false_r, !orb_assoc. reflexivity.
Qed.

Lemma not_looked_for (b : bool) (P : Prop) : (b = true <-> false = true /\ P) -> b = false.
Proof.
  intros [H _]. destruct b; [destruct (H eq_refl) as [Habs _]; discriminate Habs | reflexivity].
Qed.

Definition advised (x : run) (name : string) : Prop :=
  In name (map r_type (recommendations x)).

(** Each recommendation answers to one section of the report: [execution]
    is advised exactly when the run took more than 300000 ms (not when an
    environment or a scenario has an error or too few iterations),
    [reliability] exactly when a metric has a coefficient of variation
    above 20, [data-quality] exactly when the data quality fails, and
    [infrastructure] exactly when the infrastructure fails. *)
Theorem recommendations_by_section (x : run) :
  (advised x "execution" <-> too_long x)
  /\ (advised x "reliability" <-> unstable x)
  /\ (advised x "data-quality" <-> passed (fst (validateDataQuality x)) = false)
  /\ (advised x "infrastructure" <-> passed (validateInfrastructure x) = false)
  /\ forall name, advised x name ->
       In name ["execution"; "reliability"; "data-quality"; "infrastructure"].
Proof.
  unfold advised, recommendations, generateValidationRecommendations.
  assert (existsb (contains "execution") (issue_types x) = true <-> too_long x) as H1.
  { rewrite looked_for.
    rewrite (not_looked_for _ _ (statistics_types x (contains "execution") eq_refl)).
    rewrite (not_looked_for _ _ (data_quality_types x (contains "execution"))).
    rewrite (infrastructure_no_match x (contains "execution") eq_refl eq_refl).
    rewrite !orb_false_r.
    rewrite (execution_types x (contains "execution") eq_refl eq_refl eq_refl).
    split; [intros [_ H]; exact H | intros H; split; [reflexivity | exact H]]. }
  assert (existsb (contains "variability") (issue_types x) = true <-> unstable x) as H2.
  { rewrite looked_for.
    rewrite (not_looked_for _ _
               (execution_types x (contains "variability") eq_refl eq_refl eq_refl)).
    rewrite (not_looked_for _ _ (data_quality_types x (contains "variability"))).
    rewrite (infrastructure_no_match x (contains "variability") eq_refl eq_refl).
    rewrite !orb_false_r. cbn [orb].
    rewrite (statistics_types x (contains "variability") eq_refl).
    split; [intros [_ H]; exact H | intros H; split; [reflexivity | exact H]]. }
  assert (existsb (contains "data") (issue_types x) = true
          <-> passed (fst (validateDataQuality x)) = false) as H3.
  { rewrite looked_for.
    rewrite (not_looked_for _ _
               (execution_types x (contains "data") eq_refl eq_refl eq_refl)).
    rewrite (not_looked_for _ _ (statistics_types x (contains "data") eq_refl)).
    rewrite (infrastructure_no_match x (contains "data") eq_refl eq_refl).
    rewrite !orb_false_r. cbn [orb].
    rewrite (data_quality_types x (contains "data")).
    split; [intros [_ H]; exact H | intros H; split; [reflexivity | exact H]]. }
  assert (existsb (fun t => contains "compression" t || contains "security" t)
                  (issue_types x) = true
          <-> passed (validateInfrastructure x) = false) as H4.
  { rewrite looked_for.
    rewrite (not_looked_for _ _
               (execution_types x (fun t => contains "compression" t || contains "security" t)
                  eq_refl eq_refl eq_refl)).
    rewrite (not_looked_for _ _
               (statistics_types x
                  (fun t => contains "compression" t || contains "security" t) eq_refl)).
    rewrite (not_looked_for _ _
               (data_quality_types x
                  (fun t => contains "compression" t || contains "security" t))).
    cbn [orb].
    apply (infrastructure_types x
             (fun t => contains "compression" t || contains "security" t) eq_refl eq_refl). }
  rewrite <- H1, <- H2, <- H3, <- H4.
  destruct (existsb (contains "execution") (issue_types x));
    destruct (existsb (contains "variability") (issue_types x));
    destruct (existsb (contains "data") (issue_types x));
    destruct (existsb (fun t => contains "compression" t || contains "security" t)
                      (issue_types x));
    cbn [app map r_type In];
    (repeat split;
     try solve [ intros; discriminate
               | intros; reflexivity
               | intros; tauto
               | intros H; repeat (destruct H as [H|H]; try discriminate H); destruct H
               | intros name H; repeat (destruct H as [<-|H]; [tauto|]); destruct H ]).
Qed.

End ChecksFacts.

(** ** The recommendations of a comparison *)

Module AdviceFacts.

Import Compare Binary64 SummaryFacts Advice.

(** The categories of the recommendations of a comparison. *)
Definition advised (baseline comparison : environment_result) (name : string) : Prop :=
  In name (map category (recommendations baseline comparison)).

















End AdviceFacts.
